(** * Truck / cargo matching: cost-matrix build and optimal assignment

    A shallow embedding of [app/utils/time_cost_calculator.py],
    [app/utils/optimizer.py] and the assignment part of
    [app/streamlit_app.py].

    Conventions of the embedding:
    - Python floats are exact rationals ([Q]) extended, for matrix cells,
      with [+inf]; float rounding is outside the model.
    - a [datetime] is the rational number of hours since a fixed epoch, a
      [timedelta] a rational number of hours (its microsecond resolution is
      outside the model).
    - a raised exception is the [Raise] branch of [result]; a function that
      raises returns nothing else.
    - a DataFrame is the list of its rows, indexed by position (the default
      [RangeIndex] that [pd.read_csv] produces).
    - the external collaborators (geopy's [geodesic], [datetime.strptime],
      scipy's [linear_sum_assignment]) are section variables.
    - a global name is looked up when the line that names it runs
      ([load_global]); the functions of optimizer.py take the module
      namespace as a variable, and [optimizer_globals] is the namespace of
      the module as it is written. *)

From Stdlib Require Import QArith Qabs Lqa Lia Ascii String Permutation Sorted.
From stdpp Require Import base option list gmap strings sorting.

Local Open Scope Q_scope.
Local Open Scope nat_scope.
Local Open Scope stdpp_scope.

(** ** Exceptions and results *)

Inductive exn : Type :=
| NameError
| TypeError
| ValueError
| ZeroDivisionError
| IndexError.

Inductive result (A : Type) : Type :=
| Ok (a : A)
| Raise (e : exn).
Arguments Ok {A} a.
Arguments Raise {A} e.

Global Instance result_ret : MRet result := fun A a => Ok a.
Global Instance result_bind : MBind result := fun A B f m =>
  match m with
  | Ok a => f a
  | Raise e => Raise e
  end.

Definition returns {A} (r : result A) : Prop := exists a, r = Ok a.
Definition raises {A} (r : result A) : Prop := exists e, r = Raise e.

(** ** Numeric cells: a finite float or [np.inf] *)

Inductive cost : Type :=
| Finite (q : Q)
| Infinity.

Definition np_inf : cost := Infinity.

Definition is_finite (c : cost) : bool :=
  match c with Finite _ => true | Infinity => false end.

(** [a != np.inf] on floats. *)
Definition ne_inf (c : cost) : bool := is_finite c.

Definition Qltb (x y : Q) : bool := negb (Qle_bool y x).

(** ** Values of a timestamp column

    A cell read from CSV is a string; it is a float NaN where the field is
    missing, and a datetime where the caller parsed the column. *)

Inductive cell : Type :=
| Str (s : string)
| Datetime (t : Q)
| NaN.

(** ** time_cost_calculator.py *)

Record TimeCostCalculator : Type := { standard_speed_kmh : Q }.

(** [__init__(self, standard_speed_kmh=73)] *)
Definition TimeCostCalculator_init (arg : option Q) : TimeCostCalculator :=
  {| standard_speed_kmh := match arg with Some s => s | None => 73%Q end |}.

Definition calculate_travel_time (self : TimeCostCalculator) (distance_km : Q) : result Q :=
  if Qeq_bool (standard_speed_kmh self) 0 then Raise ZeroDivisionError
  else Ok (distance_km / standard_speed_kmh self)%Q.

Definition calculate_total_cost (self : TimeCostCalculator)
    (distance_km waiting_hours price_per_km waiting_price_per_hour : Q) : Q :=
  let distance_cost := (distance_km * price_per_km)%Q in
  let waiting_cost := (waiting_hours * waiting_price_per_hour)%Q in
  (distance_cost + waiting_cost)%Q.

Section Calculator.
(** [datetime.strptime(s, '%Y-%m-%d %H:%M:%S')]; [None] is its ValueError. *)
Variable strptime : string -> option Q.

Definition datetime_strptime (s : string) : result Q :=
  match strptime s with
  | Some t => Ok t
  | None => Raise ValueError
  end.

Definition calculate_pickup_time (self : TimeCostCalculator)
    (dropoff_time : cell) (distance_km : Q) : result Q :=
  travel_time ← calculate_travel_time self distance_km;
  match dropoff_time with
  | Str s => t ← datetime_strptime s; Ok (t - travel_time)%Q
  | Datetime t => Ok (t - travel_time)%Q
  | NaN => Raise TypeError
  end.

Definition calculate_waiting_time (self : TimeCostCalculator)
    (pickup_time : Q) (cargo_available_from : cell) : result Q :=
  from ← match cargo_available_from with
         | Str s => datetime_strptime s
         | Datetime t => Ok t
         | NaN => Raise TypeError
         end;
  if Qltb pickup_time from then Ok (from - pickup_time)%Q else Ok 0%Q.
End Calculator.

(** ** numpy arrays of shape (rows, cols) *)

Record ndarray : Type := { shape : nat * nat; data : list (list cost) }.

(** [np.full((n, m), v)] *)
Definition np_full (dims : nat * nat) (v : cost) : ndarray :=
  {| shape := dims; data := replicate (fst dims) (replicate (snd dims) v) |}.

(** [a[i, j]]; out of range is IndexError. *)
Definition getitem (a : ndarray) (i j : nat) : result cost :=
  match data a !! i with
  | Some row => match row !! j with
                | Some c => Ok c
                | None => Raise IndexError
                end
  | None => Raise IndexError
  end.

(** [a[i, j] = v]; out of range is IndexError. *)
Definition setitem (a : ndarray) (i j : nat) (v : cost) : result ndarray :=
  match data a !! i with
  | Some row =>
      if decide (j < length row)
      then Ok {| shape := shape a; data := <[i := <[j := v]> row]> (data a) |}
      else Raise IndexError
  | None => Raise IndexError
  end.

(** [for i, x in df.iterrows(): s = f(i, x, s)], counting from [i]. *)
Fixpoint for_each {A St : Type} (f : nat -> A -> St -> result St)
    (i : nat) (l : list A) (s : St) : result St :=
  match l with
  | [] => Ok s
  | x :: l' => s' ← f i x s; for_each f (S i) l' s'
  end.

(** ** optimizer.py *)

(** Rows of the two DataFrames, with the columns the optimizer reads. *)
Record Truck : Type := {
  Latitude_dropoff : Q;          (* 'Latitude (dropoff)' *)
  Longitude_dropoff : Q;         (* 'Longitude (dropoff)' *)
  Timestamp_dropoff : cell;      (* 'Timestamp (dropoff)' *)
  price_per_km : Q;              (* 'price per km, Eur' *)
  waiting_price_per_h : Q        (* 'waiting time price per h, EUR' *)
}.

Record Cargo : Type := {
  Delivery_Latitude : Q;
  Delivery_Longitude : Q;
  Available_From : cell;
  Available_To : cell
}.

(** The dict stored in [time_info[(i, j)]]. *)
Record CostEntry : Type := {
  pickup_time : Q;
  waiting_hours : Q;
  distance : Q;
  distance_cost : Q;
  waiting_cost : Q;
  total_cost : Q
}.

(** The names bound at module level in optimizer.py: its four imports and its
    two functions. *)
Definition optimizer_globals : list string :=
  ["np"; "linear_sum_assignment"; "geodesic"; "TimeCostCalculator";
   "calculate_cost_matrix"; "optimize_assignments"]%string.

(** Evaluation of a global name: NameError when it is not bound. *)
Definition load_global (globals : list string) (name : string) : result unit :=
  if bool_decide (name ∈ globals) then Ok () else Raise NameError.

Section Optimizer.
Variable strptime : string -> option Q.
(** [geodesic(p, q).kilometers] *)
Variable geodesic : Q * Q -> Q * Q -> result Q.
(** [scipy.optimize.linear_sum_assignment] *)
Variable linear_sum_assignment : ndarray -> result (list nat * list nat).
(** The module namespace the functions run in ([optimizer_globals] for the
    module as it is written). *)
Variable globals : list string.

(** Body of the inner loop of [calculate_cost_matrix], lines 18-54; the
    local variable [calculator] is an argument. *)
Definition cost_matrix_body (calculator : TimeCostCalculator)
    (i : nat) (truck : Truck) (j : nat) (cargo : Cargo)
    (st : ndarray * gmap (nat * nat) CostEntry)
    : result (ndarray * gmap (nat * nat) CostEntry) :=
  let '(cost_matrix, time_info) := st in
  let truck_loc := (Latitude_dropoff truck, Longitude_dropoff truck) in
  let cargo_loc := (Delivery_Latitude cargo, Delivery_Longitude cargo) in
  distance ← geodesic truck_loc cargo_loc;
  pickup_time ← calculate_pickup_time strptime calculator
                  (Timestamp_dropoff truck) distance;
  waiting_hours ← calculate_waiting_time strptime calculator
                    pickup_time (Available_From cargo);
  let total_cost := calculate_total_cost calculator distance waiting_hours
                      (price_per_km truck) (waiting_price_per_h truck) in
  _ ← load_global globals "datetime";
  cargo_available_to ← match Available_To cargo with
                       | Str s => datetime_strptime strptime s
                       | _ => Raise TypeError
                       end;
  if Qle_bool pickup_time cargo_available_to then
    cost_matrix' ← setitem cost_matrix i j (Finite total_cost);
    Ok (cost_matrix',
        <[(i, j) := {| pickup_time := pickup_time;
                       waiting_hours := waiting_hours;
                       distance := distance;
                       distance_cost := (distance * price_per_km truck)%Q;
                       waiting_cost := (waiting_hours * waiting_price_per_h truck)%Q;
                       total_cost := total_cost |}]> time_info)
  else Ok (cost_matrix, time_info).

Definition calculate_cost_matrix (trucks_df : list Truck) (cargo_df : list Cargo)
    : result (ndarray * gmap (nat * nat) CostEntry) :=
  let calculator := TimeCostCalculator_init None in
  let num_trucks := length trucks_df in
  let num_cargo := length cargo_df in
  let cost_matrix := np_full (num_trucks, num_cargo) np_inf in
  let time_info : gmap (nat * nat) CostEntry := ∅ in
  for_each (fun i truck =>
              for_each (fun j cargo => cost_matrix_body calculator i truck j cargo)
                       0 cargo_df)
           0 trucks_df (cost_matrix, time_info).

(** The list comprehension of lines 67-70. *)
Fixpoint valid_pairs (cost_matrix : ndarray) (pairs : list (nat * nat))
    : result (list (nat * nat)) :=
  match pairs with
  | [] => Ok []
  | (r, c) :: rest =>
      v ← getitem cost_matrix r c;
      rest' ← valid_pairs cost_matrix rest;
      Ok (if ne_inf v then (r, c) :: rest' else rest')
  end.

(** Lines 63-70: solve, then drop the pairs of infinite cost. *)
Definition solve (cost_matrix : ndarray) : result (list (nat * nat)) :=
  '(row_ind, col_ind) ← linear_sum_assignment cost_matrix;
  valid_pairs cost_matrix (zip row_ind col_ind).

Definition optimize_assignments (trucks_df : list Truck) (cargo_df : list Cargo)
    : result (list (nat * nat) * gmap (nat * nat) CostEntry) :=
  '(cost_matrix, time_info) ← calculate_cost_matrix trucks_df cargo_df;
  valid_assignments ← solve cost_matrix;
  Ok (valid_assignments, time_info).
End Optimizer.

(** ** The assignment problem on a cost matrix *)

Definition nrows (a : ndarray) : nat := fst (shape a).
Definition ncols (a : ndarray) : nat := snd (shape a).

Definition well_shaped (a : ndarray) : Prop :=
  length (data a) = nrows a /\ Forall (fun row => length row = ncols a) (data a).

(** The cell a pair selects ([np.inf] stands in for a pair outside the array,
    which no matching contains). *)
Definition cell_cost (a : ndarray) (p : nat * nat) : cost :=
  match getitem a (fst p) (snd p) with
  | Ok c => c
  | Raise _ => Infinity
  end.

Definition cost_add (c1 c2 : cost) : cost :=
  match c1, c2 with
  | Finite x, Finite y => Finite (x + y)%Q
  | _, _ => Infinity
  end.

(** [cost_matrix[row_ind, col_ind].sum()] *)
Definition assignment_cost (a : ndarray) (pairs : list (nat * nat)) : cost :=
  foldr (fun p acc => cost_add (cell_cost a p) acc) (Finite 0%Q) pairs.

Definition cost_le (c1 c2 : cost) : Prop :=
  match c1, c2 with
  | Finite x, Finite y => (x <= y)%Q
  | _, Infinity => True
  | Infinity, Finite _ => False
  end.

Definition cost_leb (c1 c2 : cost) : bool :=
  match c1, c2 with
  | Finite x, Finite y => Qle_bool x y
  | _, Infinity => true
  | Infinity, Finite _ => false
  end.

(** A matching: no row and no column used twice, every pair inside the array. *)
Definition matching (a : ndarray) (pairs : list (nat * nat)) : Prop :=
  NoDup pairs.*1 /\ NoDup pairs.*2 /\
  Forall (fun p => fst p < nrows a /\ snd p < ncols a) pairs.

Definition full_matching (a : ndarray) (pairs : list (nat * nat)) : Prop :=
  matching a pairs /\ length pairs = Nat.min (nrows a) (ncols a).

(** What scipy documents of [linear_sum_assignment] on a two-dimensional array
    of finite and [+inf] entries: it returns sorted row indices and their
    columns, [min(rows, cols)] of them, of minimal total cost; it raises
    ValueError ("cost matrix is infeasible") exactly when every complete
    assignment has an infinite entry. *)
Record lsa_contract (lsa : ndarray -> result (list nat * list nat)) : Prop := {
  lsa_full : forall a rs cs, well_shaped a -> lsa a = Ok (rs, cs) ->
    length rs = length cs /\ full_matching a (zip rs cs);
  lsa_sorted : forall a rs cs, well_shaped a -> lsa a = Ok (rs, cs) ->
    StronglySorted lt rs;
  lsa_optimal : forall a rs cs pairs, well_shaped a -> lsa a = Ok (rs, cs) ->
    full_matching a pairs ->
    cost_le (assignment_cost a (zip rs cs)) (assignment_cost a pairs);
  lsa_feasible : forall a pairs, well_shaped a -> full_matching a pairs ->
    is_finite (assignment_cost a pairs) = true -> returns (lsa a);
  lsa_infeasible : forall a, well_shaped a ->
    (forall pairs, full_matching a pairs -> assignment_cost a pairs = Infinity) ->
    lsa a = Raise ValueError
}.

(** ** An exhaustive solver

    Every way of choosing [k] pairs with increasing rows and distinct columns,
    rows in order; the first of least total cost is the answer. It meets
    [lsa_contract] and serves to run the model on concrete matrices. *)

Fixpoint matchings (rows cols : list nat) (k : nat) {struct rows}
    : list (list (nat * nat)) :=
  match k with
  | O => [[]]
  | S k' =>
      match rows with
      | [] => []
      | r :: rows' =>
          flat_map (fun c => map (cons (r, c))
                                 (matchings rows' (filter (fun c' => c' <> c) cols) k'))
                   cols
          ++ matchings rows' cols k
      end
  end.

(** The first element of least [key]. *)
Fixpoint argmin {A : Type} (key : A -> cost) (l : list A) : option A :=
  match l with
  | [] => None
  | x :: l' =>
      match argmin key l' with
      | Some y => if cost_leb (key x) (key y) then Some x else Some y
      | None => Some x
      end
  end.

(** Every complete assignment of the array. *)
Definition candidates (a : ndarray) : list (list (nat * nat)) :=
  matchings (seq 0 (nrows a)) (seq 0 (ncols a)) (Nat.min (nrows a) (ncols a)).

Definition exhaustive_lsa (a : ndarray) : result (list nat * list nat) :=
  match argmin (assignment_cost a) (candidates a) with
  | Some pairs =>
      if is_finite (assignment_cost a pairs)
      then Ok (pairs.*1, pairs.*2)
      else Raise ValueError
  | None => Raise ValueError
  end.

(** ** Concrete collaborators, to run the model on examples *)

Definition digit (c : ascii) : option Z :=
  let n := nat_of_ascii c in
  if (48 <=? n)%nat && (n <=? 57)%nat then Some (Z.of_nat (n - 48)) else None.

Definition number (cs : list ascii) : option Z :=
  foldl (fun acc c => a ← acc; d ← digit c; Some (10 * a + d)%Z) (Some 0%Z) cs.

Definition is_leap (y : Z) : bool :=
  ((y mod 4 =? 0) && negb (y mod 100 =? 0) || (y mod 400 =? 0))%Z.

Definition days_in_month (y m : Z) : Z :=
  if (m =? 2)%Z then (if is_leap y then 29 else 28)%Z
  else if ((m =? 4) || (m =? 6) || (m =? 9) || (m =? 11))%Z then 30%Z
  else 31%Z.

(** Days between 1970-01-01 and the given civil date. *)
Definition days_from_civil (y m d : Z) : Z :=
  let y' := (if m <=? 2 then y - 1 else y)%Z in
  let era := (y' / 400)%Z in
  let yoe := (y' - era * 400)%Z in
  let doy := ((153 * (if 2 <? m then m - 3 else m + 9) + 2) / 5 + d - 1)%Z in
  let doe := (yoe * 365 + yoe / 4 - yoe / 100 + doy)%Z in
  (era * 146097 + doe - 719468)%Z.

(** The zero-padded form of '%Y-%m-%d %H:%M:%S', in hours since 1970-01-01
    00:00:00. Python's [strptime] accepts these strings and gives the same
    instant. *)
Definition iso_strptime (s : string) : option Q :=
  match list_ascii_of_string s with
  | [y1; y2; y3; y4; "-"; m1; m2; "-"; d1; d2; " ";
     h1; h2; ":"; n1; n2; ":"; s1; s2]%char =>
      y ← number [y1; y2; y3; y4];
      m ← number [m1; m2];
      d ← number [d1; d2];
      hh ← number [h1; h2];
      mm ← number [n1; n2];
      ss ← number [s1; s2];
      if ((1 <=? y) && (1 <=? m) && (m <=? 12) && (1 <=? d)
          && (d <=? days_in_month y m) && (hh <=? 23) && (mm <=? 59)
          && (ss <=? 59))%Z
      then Some (inject_Z (days_from_civil y m d * 24 + hh)
                 + inject_Z mm / 60 + inject_Z ss / 3600)%Q
      else None
  | _ => None
  end.

(** A stand-in for geopy: 111 km per degree along meridians and parallels;
    like geopy it rejects a latitude outside [-90, 90]. *)
Definition grid_geodesic (p q : Q * Q) : result Q :=
  if Qle_bool (Qabs (fst p)) 90 && Qle_bool (Qabs (fst q)) 90
  then Ok (111 * (Qabs (fst p - fst q) + Qabs (snd p - snd q)))%Q
  else Raise ValueError.

(** A namespace in which optimizer.py's missing name is bound. *)
Definition globals_with_datetime : list string :=
  ("datetime"%string :: optimizer_globals).


(** ** streamlit_app.py: the assignment on distances alone *)

Module StreamlitApp.

(** Rows of the two DataFrames, with the columns this module reads. *)
Record Place : Type := { Latitude : Q; Longitude : Q }.

(** [np.zeros((n, m))] *)
Definition np_zeros (dims : nat * nat) : ndarray := np_full dims (Finite 0%Q).

(** [a[:n, :m] = block], for a block of shape (n, m). *)
Definition set_block (a block : ndarray) : ndarray :=
  {| shape := shape a;
     data := imap (fun i row =>
                     match data block !! i with
                     | Some brow => imap (fun j v => default v (brow !! j)) row
                     | None => row
                     end) (data a) |}.

(** "Use large value instead of inf" (line 53). *)
Definition large_value : cost := Finite 1000000%Q.

(** Lines 52-54: the square matrix handed to the solver. *)
Definition square_cost_matrix (distances : ndarray) (num_trucks num_cargo : nat)
    : ndarray :=
  let max_dim := Nat.max num_trucks num_cargo in
  set_block (np_full (max_dim, max_dim) large_value) distances.

Section App.
Variable geodesic : Q * Q -> Q * Q -> result Q.
Variable linear_sum_assignment : ndarray -> result (list nat * list nat).

Definition calculate_distances (trucks_df cargo_df : list Place) : result ndarray :=
  let distances := np_zeros (length trucks_df, length cargo_df) in
  for_each (fun i truck =>
              for_each (fun j cargo distances =>
                          let truck_loc := (Latitude truck, Longitude truck) in
                          let cargo_loc := (Latitude cargo, Longitude cargo) in
                          d ← geodesic truck_loc cargo_loc;
                          setitem distances i j (Finite d))
                       0 cargo_df)
           0 trucks_df distances.

Definition optimize_assignments (trucks_df cargo_df : list Place)
    : result (list (nat * nat)) :=
  distances ← calculate_distances trucks_df cargo_df;
  let num_trucks := length trucks_df in
  let num_cargo := length cargo_df in
  let cost_matrix := square_cost_matrix distances num_trucks num_cargo in
  '(row_ind, col_ind) ← linear_sum_assignment cost_matrix;
  Ok (filter (fun rc => fst rc < num_trucks /\ snd rc < num_cargo)
             (zip row_ind col_ind)).
End App.

End StreamlitApp.

(** ** What the build computes for one pair *)

Section PairOutcome.
Variable strptime : string -> option Q.
Variable geodesic : Q * Q -> Q * Q -> result Q.
Variable globals : list string.

(** Lines 18-45 for one (truck, cargo) pair, as a value: the entry the pair
    is recorded with, or [None] when the time window excludes it. *)
Definition pair_outcome (calculator : TimeCostCalculator)
    (truck : Truck) (cargo : Cargo) : result (option CostEntry) :=
  let truck_loc := (Latitude_dropoff truck, Longitude_dropoff truck) in
  let cargo_loc := (Delivery_Latitude cargo, Delivery_Longitude cargo) in
  distance ← geodesic truck_loc cargo_loc;
  pickup_time ← calculate_pickup_time strptime calculator
                  (Timestamp_dropoff truck) distance;
  waiting_hours ← calculate_waiting_time strptime calculator
                    pickup_time (Available_From cargo);
  let total_cost := calculate_total_cost calculator distance waiting_hours
                      (price_per_km truck) (waiting_price_per_h truck) in
  _ ← load_global globals "datetime";
  cargo_available_to ← match Available_To cargo with
                       | Str s => datetime_strptime strptime s
                       | _ => Raise TypeError
                       end;
  Ok (if Qle_bool pickup_time cargo_available_to
      then Some {| pickup_time := pickup_time;
                   waiting_hours := waiting_hours;
                   distance := distance;
                   distance_cost := (distance * price_per_km truck)%Q;
                   waiting_cost := (waiting_hours * waiting_price_per_h truck)%Q;
                   total_cost := total_cost |}
      else None).

(** The pickup time the build projects for a pair (lines 19-27). *)
Definition projected_pickup_time (truck : Truck) (cargo : Cargo) : result Q :=
  distance ← geodesic (Latitude_dropoff truck, Longitude_dropoff truck)
                      (Delivery_Latitude cargo, Delivery_Longitude cargo);
  calculate_pickup_time strptime (TimeCostCalculator_init None)
    (Timestamp_dropoff truck) distance.

(** The end of the cargo's window (line 44, the argument of the comparison). *)
Definition available_to (cargo : Cargo) : result Q :=
  match Available_To cargo with
  | Str s => datetime_strptime strptime s
  | _ => Raise TypeError
  end.

(** The instant a timestamp field denotes, when it denotes one. *)
Definition timestamp_value (c : cell) : option Q :=
  match c with
  | Str s => strptime s
  | Datetime t => Some t
  | NaN => None
  end.

(** A timestamp field that is missing or does not parse. *)
Definition malformed (c : cell) : Prop :=
  match c with
  | Str s => strptime s = None
  | Datetime _ => False
  | NaN => True
  end.
End PairOutcome.

(** How cell (i, j) and key (i, j) stand after the pair was visited. *)
Definition recorded (o : option CostEntry) (cm : ndarray)
    (ti : gmap (nat * nat) CostEntry) (i j : nat) : Prop :=
  match o with
  | Some e => getitem cm i j = Ok (Finite (total_cost e)) /\ ti !! (i, j) = Some e
  | None => getitem cm i j = Ok np_inf /\ ti !! (i, j) = None
  end.

Section BuildInvariant.
Variable strptime : string -> option Q.
Variable geodesic : Q * Q -> Q * Q -> result Q.
Variable globals : list string.

(** The state of the build when the pairs before (k, kj), in row-major
    order, have been visited. *)
Definition build_inv (calc : TimeCostCalculator) (trucks : list Truck)
    (cargo : list Cargo) (k kj : nat)
    (st : ndarray * gmap (nat * nat) CostEntry) : Prop :=
  well_shaped (fst st) /\
  shape (fst st) = (length trucks, length cargo) /\
  (forall i j, is_Some (snd st !! (i, j)) -> i < length trucks /\ j < length cargo) /\
  forall i j t c, trucks !! i = Some t -> cargo !! j = Some c ->
    if decide (i < k \/ (i = k /\ j < kj))
    then exists o, pair_outcome strptime geodesic globals calc t c = Ok o /\ recorded o (fst st) (snd st) i j
    else recorded None (fst st) (snd st) i j.

End BuildInvariant.

(** ** Example records *)

(** Two trucks released at noon, two cargos with a window from noon to 17:00. *)
Definition truck_R1 : Truck :=
  {| Latitude_dropoff := 0; Longitude_dropoff := 0;
     Timestamp_dropoff := Str "2024-01-01 12:00:00";
     price_per_km := 1; waiting_price_per_h := 10 |}.

Definition truck_R2 : Truck :=
  {| Latitude_dropoff := 10; Longitude_dropoff := 10;
     Timestamp_dropoff := Str "2024-01-01 12:00:00";
     price_per_km := 1; waiting_price_per_h := 10 |}.

Definition cargo_A : Cargo :=
  {| Delivery_Latitude := 1 # 10; Delivery_Longitude := 1 # 10;
     Available_From := Str "2024-01-01 12:00:00";
     Available_To := Str "2024-01-01 17:00:00" |}.

Definition cargo_B : Cargo :=
  {| Delivery_Latitude := 99 # 10; Delivery_Longitude := 99 # 10;
     Available_From := Str "2024-01-01 12:00:00";
     Available_To := Str "2024-01-01 17:00:00" |}.

(** A truck whose timestamp is not in the expected format. *)
Definition truck_bad_timestamp : Truck :=
  {| Latitude_dropoff := 0; Longitude_dropoff := 0;
     Timestamp_dropoff := Str "01/01/2024 12:00";
     price_per_km := 1; waiting_price_per_h := 10 |}.

(** A truck with a negative price per km. *)
Definition truck_negative_price : Truck :=
  {| Latitude_dropoff := 0; Longitude_dropoff := 0;
     Timestamp_dropoff := Str "2024-01-01 12:00:00";
     price_per_km := -1; waiting_price_per_h := 10 |}.

(** A cargo whose window closed a month before the trucks are released. *)
Definition cargo_closed : Cargo :=
  {| Delivery_Latitude := 1 # 10; Delivery_Longitude := 1 # 10;
     Available_From := Str "2023-12-01 08:00:00";
     Available_To := Str "2023-12-01 17:00:00" |}.

(** Hand-built matrices. *)
Definition matrix_3x3 : ndarray :=
  {| shape := (3, 3);
     data := [[Finite 4; Finite 1; Finite 3];
              [Finite 2; Finite 0; Finite 5];
              [Finite 3; Finite 2; Finite 2]] |}.

Definition matrix_1x1 : ndarray :=
  {| shape := (1, 1); data := [[Finite 5]] |}.

(** ** Totals read from time_info *)

(** The sum of the [total_cost] entries of the given pairs. *)
Definition assignment_total (ti : gmap (nat * nat) CostEntry)
    (pairs : list (nat * nat)) : Q :=
  foldr (fun p acc =>
           (match ti !! p with Some e => total_cost e | None => 0 end + acc)%Q)
        0%Q pairs.

(** ** streamlit_app.py: the state of [calculate_distances] *)

(** The array when the pairs before (k, kj), in row-major order, have been
    visited. *)
Definition distances_inv (geodesic : Q * Q -> Q * Q -> result Q)
    (trucks cargo : list StreamlitApp.Place) (k kj : nat) (dm : ndarray) : Prop :=
  well_shaped dm /\
  shape dm = (length trucks, length cargo) /\
  forall i j t c, trucks !! i = Some t -> cargo !! j = Some c ->
    if decide (i < k \/ (i = k /\ j < kj))
    then exists d,
           geodesic (StreamlitApp.Latitude t, StreamlitApp.Longitude t)
                    (StreamlitApp.Latitude c, StreamlitApp.Longitude c) = Ok d /\
           getitem dm i j = Ok (Finite d)
    else getitem dm i j = Ok (Finite 0%Q).

(** The pairs of the main diagonal of a square array. *)
Definition diagonal (k : nat) : list (nat * nat) := zip (seq 0 k) (seq 0 k).

(** Places used in examples. *)
Definition place_origin : StreamlitApp.Place :=
  {| StreamlitApp.Latitude := 0; StreamlitApp.Longitude := 0 |}.
Definition place_far : StreamlitApp.Place :=
  {| StreamlitApp.Latitude := 10; StreamlitApp.Longitude := 10 |}.
Definition place_near_origin : StreamlitApp.Place :=
  {| StreamlitApp.Latitude := 1 # 10; StreamlitApp.Longitude := 1 # 10 |}.
Definition place_near_far : StreamlitApp.Place :=
  {| StreamlitApp.Latitude := 99 # 10; StreamlitApp.Longitude := 99 # 10 |}.

(** ** Sums over arrays without infinite cells *)

(** The sum of the cells the pairs select, as a number. *)
Definition cells_sum (a : ndarray) (pairs : list (nat * nat)) : Q :=
  foldr (fun p acc =>
           (match cell_cost a p with Finite q => q | Infinity => 0 end + acc)%Q)
        0%Q pairs.

(** The indices below [k] that [l] does not use. *)
Definition unused (l : list nat) (k : nat) : list nat :=
  filter (fun x => x ∉ l) (seq 0 k).

(** A matching, extended by pairing its unused rows with its unused columns
    of a square array of side [k]. *)
Definition completion (pairs : list (nat * nat)) (k : nat) : list (nat * nat) :=
  pairs ++ zip (unused pairs.*1 k) (unused pairs.*2 k).

(** A place whose latitude no distance provider accepts. *)
Definition place_off_globe : StreamlitApp.Place :=
  {| StreamlitApp.Latitude := 95; StreamlitApp.Longitude := 0 |}.

(** ** Two runs and their collaborators

    Between two runs the code is the same, and so are the records; what may
    differ is what geopy, [strptime] and the solver answer. A run asks geopy
    for the distance of each (truck, cargo) pair, [strptime] for the strings
    of the three timestamp columns, and the solver for the matrix it built. *)



(** A second exhaustive solver: among the assignments of least cost it
    takes the last one in the enumeration instead of the first. *)
Definition exhaustive_lsa_rev (a : ndarray) : result (list nat * list nat) :=
  match argmin (assignment_cost a) (reverse (candidates a)) with
  | Some pairs =>
      if is_finite (assignment_cost a pairs)
      then Ok (pairs.*1, pairs.*2)
      else Raise ValueError
  | None => Raise ValueError
  end.



(** A matrix on which two assignments tie. *)
Definition matrix_tie : ndarray :=
  {| shape := (2, 2); data := [[Finite 1; Finite 1]; [Finite 1; Finite 1]] |}.
(** * Properties *)

(** ** Results and loops *)

Lemma Qltb_lt x y : Qltb x y = true <-> (x < y)%Q.
Proof.
  unfold Qltb. rewrite negb_true_iff. split.
  - intros H. apply Qnot_le_lt. intros Hle. apply Qle_bool_iff in Hle. congruence.
  - intros H. destruct (Qle_bool y x) eqn:E; [|done].
    apply Qle_bool_iff in E. exfalso. apply (Qlt_not_le _ _ H E).
Qed.

Lemma bind_Ok_inv {A B} (m : result A) (f : A -> result B) (b : B) :
  m ≫= f = Ok b -> exists a, m = Ok a /\ f a = Ok b.
Proof. destruct m as [a|e]; simpl; [eauto | discriminate]. Qed.

Lemma returns_not_raises {A} (r : result A) : returns r -> raises r -> False.
Proof. intros [a ->] [e He]. discriminate. Qed.

Lemma returns_or_raises {A} (r : result A) : returns r \/ raises r.
Proof. destruct r; [left | right]; eexists; reflexivity. Qed.

Section Loops.
Context {A St : Type}.
Variable f : nat -> A -> St -> result St.

Lemma for_each_invariant (P : nat -> St -> Prop) (l : list A) :
  forall i0 s0 s',
    P i0 s0 ->
    (forall k x s s1, l !! k = Some x -> P (i0 + k) s ->
                      f (i0 + k) x s = Ok s1 -> P (S (i0 + k)) s1) ->
    for_each f i0 l s0 = Ok s' ->
    P (i0 + length l) s'.
Proof.
  induction l as [|x l IH]; intros i0 s0 s' H0 Hstep Hrun; simpl in *.
  - injection Hrun as <-. by rewrite Nat.add_0_r.
  - apply bind_Ok_inv in Hrun as (s1 & Hx & Hrest).
    replace (i0 + S (length l)) with (S i0 + length l) by lia.
    apply (IH (S i0) s1 s'); [| |done].
    + specialize (Hstep 0 x s0 s1). rewrite !Nat.add_0_r in Hstep. by apply Hstep.
    + intros k y s s2 Hk HP Hf.
      specialize (Hstep (S k) y s s2).
      replace (i0 + S k) with (S i0 + k) in Hstep by lia. by apply Hstep.
Qed.

Lemma for_each_returns (P : nat -> St -> Prop) (l : list A) :
  forall i0 s0,
    P i0 s0 ->
    (forall k x s, l !! k = Some x -> P (i0 + k) s ->
                   exists s1, f (i0 + k) x s = Ok s1 /\ P (S (i0 + k)) s1) ->
    exists s', for_each f i0 l s0 = Ok s' /\ P (i0 + length l) s'.
Proof.
  induction l as [|x l IH]; intros i0 s0 H0 Hstep; simpl.
  - exists s0. by rewrite Nat.add_0_r.
  - destruct (Hstep 0 x s0) as (s1 & Hx & H1); [done | by rewrite Nat.add_0_r |].
    rewrite Nat.add_0_r in Hx, H1. rewrite Hx. simpl.
    replace (i0 + S (length l)) with (S i0 + length l) by lia.
    apply IH; [done|].
    intros k y s Hk HP.
    specialize (Hstep (S k) y s).
    replace (i0 + S k) with (S i0 + k) in Hstep by lia. by apply Hstep.
Qed.

(** An iteration that raises in every state aborts the loop. *)
Lemma for_each_raises (l : list A) :
  forall i0 k x s,
    l !! k = Some x ->
    (forall s1, raises (f (i0 + k) x s1)) ->
    raises (for_each f i0 l s).
Proof.
  induction l as [|y l IH]; intros i0 k x s Hk Hbad; [done|].
  simpl. destruct k as [|k]; simpl in Hk.
  - injection Hk as ->. destruct (Hbad s) as [e He].
    rewrite Nat.add_0_r in He. rewrite He. by exists e.
  - destruct (f i0 y s) as [s1|e]; simpl; [|by exists e].
    apply (IH (S i0) k x s1 Hk).
    intros s2. replace (S i0 + k) with (i0 + S k) by lia. apply Hbad.
Qed.

Lemma for_each_nil i s : for_each f i [] s = Ok s.
Proof. reflexivity. Qed.
End Loops.

(** ** Arrays *)

Lemma well_shaped_np_full n m v : well_shaped (np_full (n, m) v).
Proof.
  split; simpl.
  - apply length_replicate.
  - apply Forall_replicate. apply length_replicate.
Qed.

Lemma getitem_np_full n m v i j :
  i < n -> j < m -> getitem (np_full (n, m) v) i j = Ok v.
Proof.
  intros Hi Hj. unfold getitem, np_full. simpl.
  rewrite lookup_replicate_2 by done. by rewrite lookup_replicate_2.
Qed.

Lemma getitem_Ok_lt a i j c :
  well_shaped a -> getitem a i j = Ok c -> i < nrows a /\ j < ncols a.
Proof.
  intros [Hlen Hrows] H. unfold getitem in H.
  destruct (data a !! i) as [row|] eqn:Hi; [|done].
  destruct (row !! j) as [c'|] eqn:Hj; [|done].
  split.
  - rewrite <- Hlen. by eapply lookup_lt_Some.
  - rewrite Forall_forall in Hrows.
    rewrite <- (Hrows row); [by eapply lookup_lt_Some|].
    eapply list_elem_of_lookup_2. exact Hi.
Qed.

Lemma getitem_returns a i j :
  well_shaped a -> i < nrows a -> j < ncols a -> returns (getitem a i j).
Proof.
  intros [Hlen Hrows] Hi Hj. unfold getitem.
  destruct (lookup_lt_is_Some_2 (data a) i) as [row Hrow]; [lia|].
  rewrite Hrow.
  rewrite Forall_forall in Hrows.
  assert (length row = ncols a) as Hl.
  { apply Hrows. eapply list_elem_of_lookup_2. exact Hrow. }
  destruct (lookup_lt_is_Some_2 row j) as [c Hc]; [lia|].
  rewrite Hc. by exists c.
Qed.

Lemma setitem_returns a i j v :
  well_shaped a -> i < nrows a -> j < ncols a -> returns (setitem a i j v).
Proof.
  intros [Hlen Hrows] Hi Hj. unfold setitem.
  destruct (lookup_lt_is_Some_2 (data a) i) as [row Hrow]; [lia|].
  rewrite Hrow.
  rewrite Forall_forall in Hrows.
  assert (length row = ncols a) as Hl.
  { apply Hrows. eapply list_elem_of_lookup_2. exact Hrow. }
  rewrite decide_True by lia. eexists; reflexivity.
Qed.

Lemma setitem_Ok_inv a i j v a' :
  setitem a i j v = Ok a' ->
  shape a' = shape a /\
  getitem a' i j = Ok v /\
  (forall i' j', (i', j') <> (i, j) -> getitem a' i' j' = getitem a i' j') /\
  (well_shaped a -> well_shaped a').
Proof.
  unfold setitem. intros H.
  destruct (data a !! i) as [row|] eqn:Hrow; [|done].
  destruct (decide (j < length row)) as [Hj|]; [|done].
  injection H as <-. simpl.
  assert (i < length (data a)) as Hi by (by eapply lookup_lt_Some).
  repeat split.
  - unfold getitem. simpl. rewrite list_lookup_insert_eq by done.
    by rewrite list_lookup_insert_eq.
  - intros i' j' Hne. unfold getitem. simpl.
    destruct (decide (i' = i)) as [->|Hi'].
    + rewrite list_lookup_insert_eq by done. rewrite Hrow.
      rewrite list_lookup_insert_ne; [done|]. intros ->. by apply Hne.
    + by rewrite list_lookup_insert_ne.
  - destruct H as [Hlen _]. unfold nrows in *. simpl. by rewrite length_insert.
  - destruct H as [_ Hrows]. unfold ncols in *. simpl.
    apply Forall_insert; [done|]. rewrite length_insert.
    rewrite Forall_forall in Hrows. apply Hrows.
    eapply list_elem_of_lookup_2. exact Hrow.
Qed.

(** ** The cost-matrix build *)

Section Build.
Variable strptime : string -> option Q.
Variable geodesic : Q * Q -> Q * Q -> result Q.
Variable globals : list string.

Local Abbreviation body := (cost_matrix_body strptime geodesic globals).
Local Abbreviation outcome := (pair_outcome strptime geodesic globals).
Local Abbreviation build := (calculate_cost_matrix strptime geodesic globals).

Lemma cost_matrix_body_outcome calc i t j c cm ti :
  body calc i t j c (cm, ti) =
  o ← outcome calc t c;
  match o with
  | Some e => cm' ← setitem cm i j (Finite (total_cost e));
              Ok (cm', <[(i, j) := e]> ti)
  | None => Ok (cm, ti)
  end.
Proof.
  unfold cost_matrix_body, pair_outcome.
  destruct (geodesic _ _) as [d|]; simpl; [|done].
  destruct (calculate_pickup_time _ _ _ _) as [p|]; simpl; [|done].
  destruct (calculate_waiting_time _ _ _ _) as [w|]; simpl; [|done].
  destruct (load_global _ _) as [u|]; simpl; [|done].
  destruct (Available_To c) as [s| |]; simpl; try done.
  destruct (datetime_strptime strptime s) as [at_|]; simpl; [|done].
  by destruct (Qle_bool p at_).
Qed.

Lemma build_inv_init calc trucks cargo :
  build_inv strptime geodesic globals calc trucks cargo 0 0
    (np_full (length trucks, length cargo) np_inf, ∅).
Proof.
  split; [apply well_shaped_np_full|]. split; [done|]. split.
  - intros i j [e He]. simpl in He. by rewrite lookup_empty in He.
  - intros i j t c Ht Hc. rewrite decide_False by lia. split; simpl.
    + apply getitem_np_full; by eapply lookup_lt_Some.
    + apply lookup_empty.
Qed.

Lemma build_inv_next_row calc trucks cargo k st :
  build_inv strptime geodesic globals calc trucks cargo k (length cargo) st ->
  build_inv strptime geodesic globals calc trucks cargo (S k) 0 st.
Proof.
  intros (Hws & Hsh & Hdom & Hcells).
  split; [done|]. split; [done|]. split; [done|].
  intros i j t c Ht Hc. specialize (Hcells i j t c Ht Hc).
  assert (j < length cargo) by (by eapply lookup_lt_Some).
  destruct (decide (i < k \/ i = k /\ j < length cargo)).
  - rewrite decide_True by lia. done.
  - rewrite decide_False by lia. done.
Qed.

Lemma build_inv_step calc trucks cargo k kj t c st o :
  build_inv strptime geodesic globals calc trucks cargo k kj st ->
  trucks !! k = Some t -> cargo !! kj = Some c ->
  outcome calc t c = Ok o ->
  exists st', body calc k t kj c st = Ok st' /\
              build_inv strptime geodesic globals calc trucks cargo k (S kj) st'.
Proof.
  intros (Hws & Hsh & Hdom & Hcells) Ht Hc Ho.
  destruct st as [cm ti]. simpl in *.
  pose proof (cost_matrix_body_outcome calc k t kj c cm ti) as Hbody.
  rewrite Ho in Hbody. simpl in Hbody.
  assert (k < length trucks) as Hk by (by eapply lookup_lt_Some).
  assert (kj < length cargo) as Hkj by (by eapply lookup_lt_Some).
  destruct o as [e|].
  - destruct (setitem_returns cm k kj (Finite (total_cost e))) as [cm' Hset];
      [done | unfold nrows; by rewrite Hsh | unfold ncols; by rewrite Hsh |].
    rewrite Hset in Hbody. simpl in Hbody. eexists; split; [exact Hbody|].
    apply setitem_Ok_inv in Hset as (Hsh' & Hget & Hother & Hws').
    split; [by apply Hws'|]. simpl. split; [congruence|]. split.
    + intros i j. destruct (decide ((k, kj) = (i, j))) as [[= <- <-]|Hne].
      * done.
      * rewrite lookup_insert_ne by done. apply Hdom.
    + intros i j t' c' Ht' Hc'. specialize (Hcells i j t' c' Ht' Hc').
      destruct (decide ((i, j) = (k, kj))) as [[= -> ->]|Hne].
      * rewrite decide_True by lia. exists (Some e).
        assert (t' = t) as -> by congruence. assert (c' = c) as -> by congruence.
        split; [done|]. split; [done|]. apply lookup_insert_eq.
      * assert (i <> k \/ j <> kj) by (destruct (decide (i = k)); [right|left]; congruence).
        unfold recorded in *. rewrite Hother by done.
        rewrite lookup_insert_ne by congruence.
        destruct (decide (i < k \/ i = k /\ j < kj)).
        -- rewrite decide_True by lia. done.
        -- rewrite decide_False by lia. done.
  - eexists; split; [exact Hbody|].
    split; [done|]. split; [done|]. split; [done|].
    intros i j t' c' Ht' Hc'. specialize (Hcells i j t' c' Ht' Hc').
    destruct (decide ((i, j) = (k, kj))) as [[= -> ->]|Hne].
    + rewrite decide_True by lia. rewrite decide_False in Hcells by lia.
      exists None. assert (t' = t) as -> by congruence.
      assert (c' = c) as -> by congruence. done.
    + assert (i <> k \/ j <> kj) by (destruct (decide (i = k)); [right|left]; congruence).
      destruct (decide (i < k \/ i = k /\ j < kj)).
      * rewrite decide_True by lia. done.
      * rewrite decide_False by lia. done.
Qed.
End Build.

Section BuildRuns.
Variable strptime : string -> option Q.
Variable geodesic : Q * Q -> Q * Q -> result Q.
Variable globals : list string.

Local Abbreviation body := (cost_matrix_body strptime geodesic globals).
Local Abbreviation outcome := (pair_outcome strptime geodesic globals).
Local Abbreviation build := (calculate_cost_matrix strptime geodesic globals).
Local Abbreviation inv := (build_inv strptime geodesic globals).
Local Abbreviation calc0 := (TimeCostCalculator_init None).

Lemma body_raises calc i t j c st :
  raises (outcome calc t c) -> raises (body calc i t j c st).
Proof.
  intros [e He]. destruct st as [cm ti].
  rewrite cost_matrix_body_outcome, He. by exists e.
Qed.

Lemma body_Ok_outcome calc i t j c st st' :
  body calc i t j c st = Ok st' -> returns (outcome calc t c).
Proof.
  destruct st as [cm ti]. rewrite cost_matrix_body_outcome.
  intros H. apply bind_Ok_inv in H as (o & Ho & _). by exists o.
Qed.

Lemma inner_loop_inv calc trucks cargo k t st st' :
  trucks !! k = Some t ->
  inv calc trucks cargo k 0 st ->
  for_each (fun j c => body calc k t j c) 0 cargo st = Ok st' ->
  inv calc trucks cargo (S k) 0 st'.
Proof.
  intros Ht Hinv Hrun. apply build_inv_next_row.
  apply (for_each_invariant (fun j c => body calc k t j c)
           (fun kj s => inv calc trucks cargo k kj s)
           cargo 0 st st'); [done| |done].
  simpl. intros kj c s s1 Hc Hs Hstep.
  destruct (body_Ok_outcome _ _ _ _ _ _ _ Hstep) as [o Ho].
  destruct (build_inv_step _ _ _ _ _ _ _ _ _ _ _ _ Hs Ht Hc Ho) as (s2 & Hs2 & Hinv2).
  congruence.
Qed.

(** The state returned by the build has visited every pair. *)
Lemma calculate_cost_matrix_inv trucks cargo st :
  build trucks cargo = Ok st ->
  inv calc0 trucks cargo (length trucks) 0 st.
Proof.
  unfold calculate_cost_matrix. intros Hrun.
  apply (for_each_invariant
           (fun i truck => for_each (fun j c => body calc0 i truck j c) 0 cargo)
           (fun k s => inv calc0 trucks cargo k 0 s)
           trucks 0 (np_full (length trucks, length cargo) np_inf, ∅) st);
    [apply build_inv_init| |done].
  simpl. intros k t s s1 Ht Hs Hstep. by eapply inner_loop_inv.
Qed.

(** The build returns when no pair raises ... *)
Lemma calculate_cost_matrix_returns trucks cargo :
  (forall i j t c, trucks !! i = Some t -> cargo !! j = Some c ->
                   returns (outcome calc0 t c)) ->
  returns (build trucks cargo).
Proof.
  intros Hall. unfold calculate_cost_matrix.
  destruct (for_each_returns
              (fun i truck => for_each (fun j c => body calc0 i truck j c) 0 cargo)
              (fun k s => inv calc0 trucks cargo k 0 s) trucks 0
              (np_full (length trucks, length cargo) np_inf, ∅))
    as (st & Hst & _); [apply build_inv_init| |by exists st].
  simpl. intros k t s Ht Hs.
  destruct (for_each_returns (fun j c => body calc0 k t j c)
              (fun kj s => inv calc0 trucks cargo k kj s) cargo 0 s)
    as (s1 & Hs1 & Hinv1); [done| |].
  - simpl. intros kj c s2 Hc Hs2.
    destruct (Hall k kj t c Ht Hc) as [o Ho].
    by eapply build_inv_step.
  - exists s1. split; [done|]. by apply build_inv_next_row.
Qed.

(** ... and a pair that raises aborts it. *)
Lemma calculate_cost_matrix_raises trucks cargo i j t c :
  trucks !! i = Some t -> cargo !! j = Some c ->
  raises (outcome calc0 t c) ->
  raises (build trucks cargo).
Proof.
  intros Ht Hc Hbad. unfold calculate_cost_matrix.
  apply (for_each_raises
           (fun i truck => for_each (fun j c => body calc0 i truck j c) 0 cargo)
           trucks 0 i t _ Ht).
  intros s1. simpl.
  apply (for_each_raises (fun j c => body calc0 i t j c) cargo 0 j c _ Hc).
  intros s2. simpl. by apply body_raises.
Qed.

(** Every cell and every key of the returned state. *)
Lemma calculate_cost_matrix_cells trucks cargo cm ti :
  build trucks cargo = Ok (cm, ti) ->
  well_shaped cm /\ shape cm = (length trucks, length cargo) /\
  (forall i j, is_Some (ti !! (i, j)) -> i < length trucks /\ j < length cargo) /\
  forall i j t c, trucks !! i = Some t -> cargo !! j = Some c ->
    exists o, outcome calc0 t c = Ok o /\ recorded o cm ti i j.
Proof.
  intros Hrun. apply calculate_cost_matrix_inv in Hrun as (Hws & Hsh & Hdom & Hcells).
  simpl in *. split; [done|]. split; [done|]. split; [done|].
  intros i j t c Ht Hc. specialize (Hcells i j t c Ht Hc).
  assert (i < length trucks) by (by eapply lookup_lt_Some).
  by rewrite decide_True in Hcells by lia.
Qed.
End BuildRuns.

(** ** The temporal cost model *)

(** C7: [calculate_pickup_time] returns the release timestamp minus
    distance / standard_speed hours; the speed is the constant the calculator
    was constructed with, 73 by default. The function reads nothing but its
    arguments and returns nothing but its value. *)
Theorem C7_pickup_time_formula (strptime : string -> option Q)
    (dropoff_time : cell) (release distance_km : Q) :
  timestamp_value strptime dropoff_time = Some release ->
  standard_speed_kmh (TimeCostCalculator_init None) = 73%Q /\
  calculate_pickup_time strptime (TimeCostCalculator_init None)
    dropoff_time distance_km = Ok (release - distance_km / 73)%Q /\
  forall speed, ~ (speed == 0)%Q ->
    calculate_pickup_time strptime (TimeCostCalculator_init (Some speed))
      dropoff_time distance_km = Ok (release - distance_km / speed)%Q.
Proof.
  intros Hts. split; [reflexivity|]. split.
  - unfold calculate_pickup_time, calculate_travel_time. simpl.
    destruct dropoff_time as [s|t|]; simpl in *.
    + unfold datetime_strptime. by rewrite Hts.
    + by injection Hts as ->.
    + done.
  - intros speed Hne.
    unfold calculate_pickup_time, calculate_travel_time. simpl.
    destruct (Qeq_bool speed 0) eqn:E.
    { apply Qeq_bool_iff in E. contradiction. }
    simpl. destruct dropoff_time as [s|t|]; simpl in *.
    + unfold datetime_strptime. by rewrite Hts.
    + by injection Hts as ->.
    + done.
Qed.

Lemma C7_pickup_time_formula_witness :
  timestamp_value iso_strptime (Str "2024-01-01 12:00:00")
    = Some (102246624000 # 216000)%Q /\
  calculate_pickup_time iso_strptime (TimeCostCalculator_init None)
    (Str "2024-01-01 12:00:00") 146%Q
    = Ok ((102246624000 # 216000) - 146 / 73)%Q.
Proof.
  split; [reflexivity|].
  destruct (C7_pickup_time_formula iso_strptime (Str "2024-01-01 12:00:00")
              (102246624000 # 216000)%Q 146%Q) as (_ & H & _);
    [reflexivity | exact H].
Defined.

Lemma calculate_travel_time_zero self distance_km :
  (standard_speed_kmh self == 0)%Q ->
  calculate_travel_time self distance_km = Raise ZeroDivisionError.
Proof.
  intros H. unfold calculate_travel_time.
  apply Qeq_bool_iff in H. by rewrite H.
Qed.

Lemma calculate_travel_time_nonzero self distance_km :
  ~ (standard_speed_kmh self == 0)%Q ->
  calculate_travel_time self distance_km
    = Ok (distance_km / standard_speed_kmh self)%Q.
Proof.
  intros H. unfold calculate_travel_time.
  destruct (Qeq_bool _ 0) eqn:E; [|done].
  apply Qeq_bool_iff in E. contradiction.
Qed.

(** C10: [calculate_travel_time] divides by the configured speed without a
    guard. It returns exactly when the speed is not zero; with speed zero it
    raises ZeroDivisionError on every call, and so do
    [calculate_pickup_time] and the loop body of the build, whatever the
    timestamp. The constructor accepts zero. *)
Theorem C10_zero_speed_unguarded :
  standard_speed_kmh (TimeCostCalculator_init (Some 0%Q)) = 0%Q /\
  (forall self d, (standard_speed_kmh self == 0)%Q ->
     calculate_travel_time self d = Raise ZeroDivisionError) /\
  (forall self d, ~ (standard_speed_kmh self == 0)%Q ->
     calculate_travel_time self d = Ok (d / standard_speed_kmh self)%Q) /\
  (forall strptime self ts d, (standard_speed_kmh self == 0)%Q ->
     calculate_pickup_time strptime self ts d = Raise ZeroDivisionError) /\
  (forall strptime geodesic globals self i t j c st d,
     (standard_speed_kmh self == 0)%Q ->
     geodesic (Latitude_dropoff t, Longitude_dropoff t)
              (Delivery_Latitude c, Delivery_Longitude c) = Ok d ->
     cost_matrix_body strptime geodesic globals self i t j c st
       = Raise ZeroDivisionError).
Proof.
  split; [reflexivity|].
  split; [apply calculate_travel_time_zero|].
  split; [apply calculate_travel_time_nonzero|].
  split.
  - intros strptime self ts d H. unfold calculate_pickup_time.
    by rewrite calculate_travel_time_zero.
  - intros strptime geodesic globals self i t j c [cm ti] d H Hd.
    unfold cost_matrix_body. rewrite Hd. simpl.
    unfold calculate_pickup_time. by rewrite calculate_travel_time_zero.
Qed.

Lemma C10_zero_speed_unguarded_witness :
  calculate_travel_time (TimeCostCalculator_init (Some 0%Q)) 100%Q
    = Raise ZeroDivisionError /\
  calculate_travel_time (TimeCostCalculator_init None) 146%Q
    = Ok (146 / 73)%Q /\
  calculate_pickup_time iso_strptime (TimeCostCalculator_init (Some 0%Q))
    (Str "not a date") 100%Q = Raise ZeroDivisionError.
Proof.
  destruct C10_zero_speed_unguarded as (_ & Hzero & Hnonzero & Hpickup & _).
  split; [apply Hzero; reflexivity|].
  split; [apply Hnonzero; discriminate|].
  apply Hpickup; reflexivity.
Defined.

(** ** One pair *)

Lemma bind_raises {A B} (m : result A) (f : A -> result B) :
  raises m -> raises (m ≫= f).
Proof. intros [e ->]. by exists e. Qed.

Lemma bind_raises_after {A B} (m : result A) (f : A -> result B) :
  (forall a, m = Ok a -> raises (f a)) -> raises (m ≫= f).
Proof. destruct m as [a|e]; simpl; [auto | by exists e]. Qed.

Section Pair.
Variable strptime : string -> option Q.
Variable geodesic : Q * Q -> Q * Q -> result Q.
Variable globals : list string.

Local Abbreviation outcome := (pair_outcome strptime geodesic globals).

Lemma datetime_strptime_malformed s :
  strptime s = None -> datetime_strptime strptime s = Raise ValueError.
Proof. unfold datetime_strptime. by intros ->. Qed.

Lemma calculate_pickup_time_malformed calc ts d :
  malformed strptime ts -> raises (calculate_pickup_time strptime calc ts d).
Proof.
  intros Hbad. unfold calculate_pickup_time.
  apply bind_raises_after. intros travel _.
  destruct ts as [s|t|]; simpl in Hbad.
  - rewrite datetime_strptime_malformed by done. by eexists.
  - done.
  - by eexists.
Qed.

Lemma calculate_waiting_time_malformed calc p from :
  malformed strptime from -> raises (calculate_waiting_time strptime calc p from).
Proof.
  intros Hbad. unfold calculate_waiting_time. apply bind_raises.
  destruct from as [s|t|]; simpl in Hbad.
  - rewrite datetime_strptime_malformed by done. by eexists.
  - done.
  - by eexists.
Qed.

Lemma available_to_malformed c :
  malformed strptime (Available_To c) -> raises (available_to strptime c).
Proof.
  unfold available_to. destruct (Available_To c) as [s|t|]; simpl; intros Hbad.
  - rewrite datetime_strptime_malformed by done. by eexists.
  - done.
  - by eexists.
Qed.

(** A bad timestamp on either record makes the pair raise. *)
Lemma pair_outcome_malformed calc t c :
  malformed strptime (Timestamp_dropoff t) \/
  malformed strptime (Available_From c) \/
  malformed strptime (Available_To c) ->
  raises (outcome calc t c).
Proof.
  intros Hbad. unfold pair_outcome.
  apply bind_raises_after. intros d _.
  destruct Hbad as [Hbad|Hbad].
  { apply bind_raises. by apply calculate_pickup_time_malformed. }
  apply bind_raises_after. intros p _.
  destruct Hbad as [Hbad|Hbad].
  { apply bind_raises. by apply calculate_waiting_time_malformed. }
  apply bind_raises_after. intros w _.
  apply bind_raises_after. intros u _.
  apply bind_raises. by apply available_to_malformed.
Qed.

(** Where [datetime] is not bound, every pair raises. *)
Lemma pair_outcome_unbound calc t c :
  "datetime"%string ∉ globals -> raises (outcome calc t c).
Proof.
  intros Hun. unfold pair_outcome.
  apply bind_raises_after. intros d _.
  apply bind_raises_after. intros p _.
  apply bind_raises_after. intros w _.
  apply bind_raises. unfold load_global.
  rewrite bool_decide_eq_false_2 by done. by eexists.
Qed.

(** What a pair that returns went through. *)
Lemma pair_outcome_Ok_inv calc t c o :
  outcome calc t c = Ok o ->
  exists d p w a,
    geodesic (Latitude_dropoff t, Longitude_dropoff t)
             (Delivery_Latitude c, Delivery_Longitude c) = Ok d /\
    calculate_pickup_time strptime calc (Timestamp_dropoff t) d = Ok p /\
    calculate_waiting_time strptime calc p (Available_From c) = Ok w /\
    available_to strptime c = Ok a /\
    o = if Qle_bool p a
        then Some {| pickup_time := p; waiting_hours := w; distance := d;
                     distance_cost := (d * price_per_km t)%Q;
                     waiting_cost := (w * waiting_price_per_h t)%Q;
                     total_cost := calculate_total_cost calc d w
                                     (price_per_km t) (waiting_price_per_h t) |}
        else None.
Proof.
  unfold pair_outcome. intros H.
  apply bind_Ok_inv in H as (d & Hd & H).
  apply bind_Ok_inv in H as (p & Hp & H).
  apply bind_Ok_inv in H as (w & Hw & H).
  apply bind_Ok_inv in H as (u & Hu & H).
  apply bind_Ok_inv in H as (a & Ha & H).
  injection H as <-. by exists d, p, w, a.
Qed.
End Pair.

Lemma datetime_unbound : "datetime"%string ∉ optimizer_globals.
Proof.
  apply (bool_decide_eq_false_1 ("datetime"%string ∈ optimizer_globals)).
  reflexivity.
Qed.

(** ** When the build returns *)

Lemma calculate_waiting_time_nonneg strptime calc p from w :
  calculate_waiting_time strptime calc p from = Ok w -> (0 <= w)%Q.
Proof.
  unfold calculate_waiting_time. intros H.
  apply bind_Ok_inv in H as (f & _ & H).
  destruct (Qltb p f) eqn:E; injection H as <-.
  - apply Qltb_lt in E. lra.
  - apply Qle_refl.
Qed.

(** A pair with usable fields returns, where [datetime] is bound. *)
Lemma pair_outcome_returns strptime geodesic globals t c d r f s a :
  "datetime"%string ∈ globals ->
  geodesic (Latitude_dropoff t, Longitude_dropoff t)
           (Delivery_Latitude c, Delivery_Longitude c) = Ok d ->
  timestamp_value strptime (Timestamp_dropoff t) = Some r ->
  timestamp_value strptime (Available_From c) = Some f ->
  Available_To c = Str s -> strptime s = Some a ->
  returns (pair_outcome strptime geodesic globals (TimeCostCalculator_init None) t c).
Proof.
  intros Hg Hd Hr Hf Hs Ha. unfold pair_outcome. rewrite Hd. simpl.
  assert (calculate_pickup_time strptime (TimeCostCalculator_init None)
            (Timestamp_dropoff t) d = Ok (r - d / 73)%Q) as ->.
  { unfold calculate_pickup_time, calculate_travel_time. simpl.
    destruct (Timestamp_dropoff t); simpl in *.
    - unfold datetime_strptime. by rewrite Hr.
    - by injection Hr as ->.
    - done. }
  simpl.
  assert (returns (calculate_waiting_time strptime (TimeCostCalculator_init None)
                     (r - d / 73)%Q (Available_From c))) as [w ->].
  { unfold calculate_waiting_time.
    destruct (Available_From c); simpl in *.
    - unfold datetime_strptime. rewrite Hf. simpl.
      destruct (Qltb _ f); by eexists.
    - destruct (Qltb _ t0); by eexists.
    - done. }
  simpl. unfold load_global. rewrite bool_decide_eq_true_2 by done. simpl.
  rewrite Hs. unfold datetime_strptime. rewrite Ha. simpl. by eexists.
Qed.

(** With [datetime] bound, the build returns on records whose fields are
    usable. *)
Lemma calculate_cost_matrix_well_formed_returns strptime geodesic globals trucks cargo :
  "datetime"%string ∈ globals ->
  (forall t c, t ∈ trucks -> c ∈ cargo ->
     returns (geodesic (Latitude_dropoff t, Longitude_dropoff t)
                       (Delivery_Latitude c, Delivery_Longitude c))) ->
  (forall t, t ∈ trucks ->
     is_Some (timestamp_value strptime (Timestamp_dropoff t))) ->
  (forall c, c ∈ cargo ->
     is_Some (timestamp_value strptime (Available_From c)) /\
     exists s, Available_To c = Str s /\ is_Some (strptime s)) ->
  returns (calculate_cost_matrix strptime geodesic globals trucks cargo).
Proof.
  intros Hg Hgeo Htr Hca. apply calculate_cost_matrix_returns.
  intros i j t c Ht Hc.
  apply list_elem_of_lookup_2 in Ht, Hc.
  destruct (Hgeo t c Ht Hc) as [d Hd].
  destruct (Htr t Ht) as [r Hr].
  destruct (Hca c Hc) as ([f Hf] & s & Hs & [a Ha]).
  by eapply pair_outcome_returns.
Qed.

(** ** Claims about the build *)

(** C1 (amended): a malformed or missing timestamp on any (truck, cargo)
    pair raises an exception that aborts the whole build, so that no matrix
    at all is returned; no pair is turned into an [np.inf] cell on account of
    its timestamp. A build that returns, returns a complete matrix of
    len(trucks) rows and len(cargo) columns. *)
Theorem C1_bad_timestamp_aborts_build (strptime : string -> option Q)
    (geodesic : Q * Q -> Q * Q -> result Q) (globals : list string)
    (trucks : list Truck) (cargo : list Cargo) :
  (forall i j t c,
     trucks !! i = Some t -> cargo !! j = Some c ->
     malformed strptime (Timestamp_dropoff t) \/
     malformed strptime (Available_From c) \/
     malformed strptime (Available_To c) ->
     raises (calculate_cost_matrix strptime geodesic globals trucks cargo)) /\
  (forall cm ti,
     calculate_cost_matrix strptime geodesic globals trucks cargo = Ok (cm, ti) ->
     well_shaped cm /\ shape cm = (length trucks, length cargo)).
Proof.
  split.
  - intros i j t c Ht Hc Hbad.
    eapply calculate_cost_matrix_raises; [exact Ht | exact Hc |].
    by apply pair_outcome_malformed.
  - intros cm ti Hrun.
    apply calculate_cost_matrix_cells in Hrun as (Hws & Hsh & _). done.
Qed.

Lemma C1_bad_timestamp_aborts_build_witness :
  raises (calculate_cost_matrix iso_strptime grid_geodesic globals_with_datetime
            [truck_R1; truck_bad_timestamp] [cargo_A; cargo_B]).
Proof.
  destruct (C1_bad_timestamp_aborts_build iso_strptime grid_geodesic
              globals_with_datetime [truck_R1; truck_bad_timestamp]
              [cargo_A; cargo_B]) as [Habort _].
  apply (Habort 1 0 truck_bad_timestamp cargo_A);
    [reflexivity | reflexivity | left; reflexivity].
Defined.

(** C1, as stated, fails: one truck with an unparseable timestamp next to a
    well-formed one; the build raises ValueError instead of returning a
    matrix with one [np.inf] row, with or without [datetime] bound. *)
Lemma C1_counterexample :
  malformed iso_strptime (Timestamp_dropoff truck_bad_timestamp) /\
  calculate_cost_matrix iso_strptime grid_geodesic globals_with_datetime
    [truck_bad_timestamp; truck_R1] [cargo_A] = Raise ValueError /\
  calculate_cost_matrix iso_strptime grid_geodesic optimizer_globals
    [truck_bad_timestamp; truck_R1] [cargo_A] = Raise ValueError.
Proof. repeat split; vm_compute; reflexivity. Qed.

(** C3 (the code as written): optimizer.py never binds the name [datetime]
    that line 44 evaluates, so on at least one truck and one cargo the build
    raises before it records a pair: there is no matrix whose cells could
    satisfy the claim. *)
Theorem C3_build_raises_as_written (strptime : string -> option Q)
    (geodesic : Q * Q -> Q * Q -> result Q)
    (t : Truck) (trucks : list Truck) (c : Cargo) (cargo : list Cargo) :
  raises (calculate_cost_matrix strptime geodesic optimizer_globals
            (t :: trucks) (c :: cargo)) /\
  calculate_cost_matrix iso_strptime grid_geodesic optimizer_globals
    [truck_R1] [cargo_A] = Raise NameError.
Proof.
  split.
  - apply (calculate_cost_matrix_raises _ _ _ (t :: trucks) (c :: cargo) 0 0 t c);
      [reflexivity | reflexivity |].
    apply pair_outcome_unbound, datetime_unbound.
  - vm_compute. reflexivity.
Qed.

Lemma projected_pickup_time_eq strptime geodesic t c d :
  geodesic (Latitude_dropoff t, Longitude_dropoff t)
           (Delivery_Latitude c, Delivery_Longitude c) = Ok d ->
  projected_pickup_time strptime geodesic t c =
  calculate_pickup_time strptime (TimeCostCalculator_init None)
    (Timestamp_dropoff t) d.
Proof. intros H. unfold projected_pickup_time. by rewrite H. Qed.

(** Every cell of a returned matrix, in terms of the records. *)
Lemma calculate_cost_matrix_cell strptime geodesic globals trucks cargo cm ti i j t c :
  calculate_cost_matrix strptime geodesic globals trucks cargo = Ok (cm, ti) ->
  trucks !! i = Some t -> cargo !! j = Some c ->
  exists d p w a,
    geodesic (Latitude_dropoff t, Longitude_dropoff t)
             (Delivery_Latitude c, Delivery_Longitude c) = Ok d /\
    projected_pickup_time strptime geodesic t c = Ok p /\
    calculate_waiting_time strptime (TimeCostCalculator_init None) p
      (Available_From c) = Ok w /\
    available_to strptime c = Ok a /\
    if Qle_bool p a
    then getitem cm i j
           = Ok (Finite (d * price_per_km t + w * waiting_price_per_h t)%Q) /\
         exists e, ti !! (i, j) = Some e /\
                   total_cost e = (d * price_per_km t + w * waiting_price_per_h t)%Q /\
                   distance_cost e = (d * price_per_km t)%Q /\
                   waiting_cost e = (w * waiting_price_per_h t)%Q
    else getitem cm i j = Ok np_inf /\ ti !! (i, j) = None.
Proof.
  intros Hrun Ht Hc.
  apply calculate_cost_matrix_cells in Hrun as (_ & _ & _ & Hcells).
  destruct (Hcells i j t c Ht Hc) as (o & Ho & Hrec).
  apply pair_outcome_Ok_inv in Ho as (d & p & w & a & Hd & Hp & Hw & Ha & ->).
  exists d, p, w, a. rewrite (projected_pickup_time_eq _ _ _ _ _ Hd).
  split; [done|]. split; [done|]. split; [done|]. split; [done|].
  destruct (Qle_bool p a); simpl in Hrec; destruct Hrec as [Hcell Hkey].
  - split; [exact Hcell|]. eexists. split; [exact Hkey|]. done.
  - done.
Qed.

(** C6 (amended): the sign of a price or of the distance is checked nowhere.
    [calculate_total_cost] returns distance * price_per_km + waiting_hours *
    waiting_price for all numeric arguments, and a returned matrix holds that
    value, with its entry in [time_info], for every pair whose projected
    pickup time is within the window, and [np.inf] for the others; prices
    and distance play no part in that test. *)
Theorem C6_sign_is_not_checked (strptime : string -> option Q)
    (geodesic : Q * Q -> Q * Q -> result Q) (globals : list string)
    (trucks : list Truck) (cargo : list Cargo) :
  (forall calc d w p wp,
     calculate_total_cost calc d w p wp = (d * p + w * wp)%Q) /\
  (forall cm ti i j t c,
     calculate_cost_matrix strptime geodesic globals trucks cargo = Ok (cm, ti) ->
     trucks !! i = Some t -> cargo !! j = Some c ->
     exists d p w a,
       geodesic (Latitude_dropoff t, Longitude_dropoff t)
                (Delivery_Latitude c, Delivery_Longitude c) = Ok d /\
       projected_pickup_time strptime geodesic t c = Ok p /\
       calculate_waiting_time strptime (TimeCostCalculator_init None) p
         (Available_From c) = Ok w /\
       available_to strptime c = Ok a /\
       if Qle_bool p a
       then getitem cm i j
              = Ok (Finite (d * price_per_km t + w * waiting_price_per_h t)%Q) /\
            exists e, ti !! (i, j) = Some e /\
                      total_cost e = (d * price_per_km t + w * waiting_price_per_h t)%Q
       else getitem cm i j = Ok np_inf /\ ti !! (i, j) = None).
Proof.
  split; [reflexivity|].
  intros cm ti i j t c Hrun Ht Hc.
  destruct (calculate_cost_matrix_cell _ _ _ _ _ _ _ _ _ _ _ Hrun Ht Hc)
    as (d & p & w & a & Hd & Hp & Hw & Ha & Hcell).
  exists d, p, w, a. do 4 (split; [done|]).
  destruct (Qle_bool p a); [|done].
  destruct Hcell as (Hget & e & Hkey & Htot & _). eauto.
Qed.

Lemma C6_sign_is_not_checked_witness :
  exists cm ti q,
    calculate_cost_matrix iso_strptime grid_geodesic globals_with_datetime
      [truck_negative_price] [cargo_A] = Ok (cm, ti) /\
    getitem cm 0 0 = Ok (Finite q) /\ (q < 0)%Q.
Proof.
  destruct (calculate_cost_matrix iso_strptime grid_geodesic globals_with_datetime
              [truck_negative_price] [cargo_A]) as [[cm ti]|e] eqn:Hrun;
    [|by vm_compute in Hrun].
  destruct (C6_sign_is_not_checked iso_strptime grid_geodesic
              globals_with_datetime [truck_negative_price] [cargo_A])
    as [_ Hcells].
  destruct (Hcells cm ti 0 0 truck_negative_price cargo_A Hrun eq_refl eq_refl)
    as (d & p & w & a & Hd & Hp & Hw & Ha & Hcell).
  vm_compute in Hd. injection Hd as <-.
  vm_compute in Hp. injection Hp as <-.
  vm_compute in Hw. injection Hw as <-.
  vm_compute in Ha. injection Ha as <-.
  change (Qle_bool _ _) with true in Hcell.
  destruct Hcell as (Hget & _).
  exists cm, ti. eexists. split; [reflexivity|]. split; [exact Hget|].
  reflexivity.
Defined.

(** C6, as stated, fails: a truck with price -1 per km. The cost function
    returns a (negative) cost, and with [datetime] bound the build records
    the pair with a negative finite cell; as written the build raises
    NameError. In no case does the pair become an [np.inf] cell. *)
Lemma C6_counterexample :
  (price_per_km truck_negative_price < 0)%Q /\
  calculate_total_cost (TimeCostCalculator_init None) 10 0 (-1) 5 = (-10)%Q /\
  (exists cm ti e,
     calculate_cost_matrix iso_strptime grid_geodesic globals_with_datetime
       [truck_negative_price] [cargo_A] = Ok (cm, ti) /\
     getitem cm 0 0 = Ok (Finite (total_cost e)) /\
     ti !! (0, 0) = Some e /\
     (total_cost e < 0)%Q) /\
  calculate_cost_matrix iso_strptime grid_geodesic optimizer_globals
    [truck_negative_price] [cargo_A] = Raise NameError.
Proof.
  split; [reflexivity|]. split; [reflexivity|]. split.
  - destruct (calculate_cost_matrix iso_strptime grid_geodesic globals_with_datetime
                [truck_negative_price] [cargo_A]) as [[cm ti]|e] eqn:Hrun;
      [|by vm_compute in Hrun].
    destruct (calculate_cost_matrix_cell _ _ _ _ _ _ _ 0 0 truck_negative_price
                cargo_A Hrun eq_refl eq_refl)
      as (d & p & w & a & Hd & Hp & Hw & Ha & Hcell).
    vm_compute in Hd. injection Hd as <-.
    vm_compute in Hp. injection Hp as <-.
    vm_compute in Hw. injection Hw as <-.
    vm_compute in Ha. injection Ha as <-.
    change (Qle_bool _ _) with true in Hcell.
    destruct Hcell as (Hget & e & Hkey & Htot & _).
    exists cm, ti, e. rewrite Htot. split; [done|]. split; [exact Hget|].
    split; [exact Hkey|]. reflexivity.
  - vm_compute. reflexivity.
Qed.

(** ** Costs *)

Lemma cost_le_refl c : cost_le c c.
Proof. destruct c; simpl; [apply Qle_refl | done]. Qed.

Lemma cost_le_trans c1 c2 c3 : cost_le c1 c2 -> cost_le c2 c3 -> cost_le c1 c3.
Proof.
  destruct c1, c2, c3; simpl; try done. apply Qle_trans.
Qed.

Lemma cost_leb_le c1 c2 : cost_leb c1 c2 = true <-> cost_le c1 c2.
Proof.
  destruct c1, c2; simpl; try done. apply Qle_bool_iff.
Qed.

Lemma cost_leb_false c1 c2 : cost_leb c1 c2 = false -> cost_le c2 c1.
Proof.
  destruct c1 as [x|], c2 as [y|]; simpl; try done.
  intros H. apply Qlt_le_weak, Qnot_le_lt. intros Hle.
  apply Qle_bool_iff in Hle. congruence.
Qed.

Lemma cost_le_Infinity c : cost_le Infinity c -> c = Infinity.
Proof. by destruct c. Qed.

Lemma cost_le_finite c1 c2 :
  cost_le c1 c2 -> is_finite c2 = true -> is_finite c1 = true.
Proof. by destruct c1, c2. Qed.

Lemma cost_add_mono c x y : cost_le x y -> cost_le (cost_add c x) (cost_add c y).
Proof.
  destruct c as [q|], x as [a|], y as [b|]; simpl; try done.
  intros H. lra.
Qed.

Lemma cost_add_swap c1 c2 z :
  cost_le (cost_add c1 (cost_add c2 z)) (cost_add c2 (cost_add c1 z)).
Proof.
  destruct c1 as [a|], c2 as [b|], z as [c|]; simpl; try done. lra.
Qed.

Lemma assignment_cost_perm_le a (P1 P2 : list (nat * nat)) :
  P1 ≡ₚ P2 -> cost_le (assignment_cost a P1) (assignment_cost a P2).
Proof.
  induction 1 as [|p l1 l2 _ IH|p1 p2 l|l1 l2 l3 _ IH1 _ IH2]; simpl.
  - apply Qle_refl.
  - by apply cost_add_mono.
  - apply cost_add_swap.
  - by eapply cost_le_trans.
Qed.

Lemma cell_cost_finite a p q :
  cell_cost a p = Finite q -> getitem a (fst p) (snd p) = Ok (Finite q).
Proof.
  unfold cell_cost. destruct (getitem a (fst p) (snd p)) as [c|e]; [|done].
  by intros ->.
Qed.

(** A finite sum has finite terms only. *)
Lemma assignment_cost_finite_cells a (pairs : list (nat * nat)) :
  is_finite (assignment_cost a pairs) = true ->
  Forall (fun p => exists q, getitem a (fst p) (snd p) = Ok (Finite q)) pairs.
Proof.
  induction pairs as [|p l IH]; simpl; [constructor|].
  destruct (cell_cost a p) as [q|] eqn:Hp; simpl; [|done].
  destruct (assignment_cost a l) as [s|]; simpl; [|done].
  intros _. constructor; [|by apply IH].
  exists q. by apply cell_cost_finite.
Qed.

Lemma assignment_cost_all_finite a (pairs : list (nat * nat)) :
  Forall (fun p => exists q, getitem a (fst p) (snd p) = Ok (Finite q)) pairs ->
  is_finite (assignment_cost a pairs) = true.
Proof.
  induction 1 as [|p l [q Hq] _ IH]; simpl; [done|].
  unfold cell_cost. rewrite Hq.
  by destruct (assignment_cost a l).
Qed.

(** ** The list comprehension *)

Lemma valid_pairs_Ok_inv cm (l l' : list (nat * nat)) :
  valid_pairs cm l = Ok l' ->
  l' `sublist_of` l /\
  Forall (fun p => exists q, getitem cm (fst p) (snd p) = Ok (Finite q)) l'.
Proof.
  revert l'. induction l as [|[r c] l IH]; intros l' H; simpl in H.
  - injection H as <-. split; constructor.
  - apply bind_Ok_inv in H as (v & Hv & H).
    apply bind_Ok_inv in H as (rest & Hrest & H).
    injection H as <-. destruct (IH rest Hrest) as [Hsub Hfin].
    destruct v as [q|]; simpl.
    + split; [by constructor|]. constructor; [by exists q | done].
    + split; [by constructor | done].
Qed.

Lemma valid_pairs_all_finite cm (l : list (nat * nat)) :
  Forall (fun p => exists q, getitem cm (fst p) (snd p) = Ok (Finite q)) l ->
  valid_pairs cm l = Ok l.
Proof.
  induction 1 as [|[r c] l [q Hq] _ IH]; simpl; [done|].
  simpl in Hq. rewrite Hq. simpl. rewrite IH. done.
Qed.

(** ** Solving, for any solver that meets the contract *)

Section Solve.
Variable lsa : ndarray -> result (list nat * list nat).
Hypothesis contract : lsa_contract lsa.

(** A returned assignment has no infinite entry. *)
Lemma lsa_result_finite a rs cs :
  well_shaped a -> lsa a = Ok (rs, cs) ->
  is_finite (assignment_cost a (zip rs cs)) = true.
Proof.
  intros Hws Hrun.
  destruct (assignment_cost a (zip rs cs)) as [q|] eqn:Hcost; [done|].
  exfalso.
  assert (lsa a = Raise ValueError) as Hraise; [|congruence].
  apply (lsa_infeasible _ contract a Hws). intros pairs Hfull.
  apply cost_le_Infinity. rewrite <- Hcost.
  by apply (lsa_optimal _ contract).
Qed.

(** The comprehension of lines 67-70 finds nothing to drop. *)
Lemma solve_Ok_inv a pairs :
  well_shaped a -> solve lsa a = Ok pairs ->
  exists rs cs, lsa a = Ok (rs, cs) /\ pairs = zip rs cs /\
                StronglySorted lt rs /\ length rs = length cs /\
                full_matching a pairs /\
                is_finite (assignment_cost a pairs) = true.
Proof.
  intros Hws Hrun. unfold solve in Hrun.
  apply bind_Ok_inv in Hrun as ([rs cs] & Hlsa & Hvalid).
  pose proof (lsa_result_finite a rs cs Hws Hlsa) as Hfin.
  rewrite valid_pairs_all_finite in Hvalid
    by (by apply assignment_cost_finite_cells).
  injection Hvalid as <-.
  destruct (lsa_full _ contract a rs cs Hws Hlsa) as [Hlen Hfull].
  exists rs, cs. repeat (split; [done|]).
  split; [by apply (lsa_sorted _ contract a rs cs)|]. done.
Qed.

Lemma solve_returns a pairs :
  well_shaped a -> full_matching a pairs ->
  is_finite (assignment_cost a pairs) = true ->
  returns (solve lsa a).
Proof.
  intros Hws Hfull Hfin.
  destruct (lsa_feasible _ contract a pairs Hws Hfull Hfin) as [[rs cs] Hlsa].
  unfold solve. rewrite Hlsa. simpl.
  rewrite valid_pairs_all_finite; [by eexists|].
  apply assignment_cost_finite_cells. by apply lsa_result_finite.
Qed.

Lemma solve_infeasible a :
  well_shaped a ->
  (forall pairs, full_matching a pairs -> assignment_cost a pairs = Infinity) ->
  solve lsa a = Raise ValueError.
Proof.
  intros Hws Hinf. unfold solve.
  by rewrite (lsa_infeasible _ contract a Hws Hinf).
Qed.

(** On an array without cells the solver returns no pair. *)
Lemma solve_no_cells a :
  well_shaped a -> nrows a = 0 \/ ncols a = 0 -> solve lsa a = Ok [].
Proof.
  intros Hws Hempty.
  assert (Nat.min (nrows a) (ncols a) = 0) as Hmin by lia.
  destruct (solve_returns a []) as [pairs Hpairs]; [done| |done|].
  { split; [|by rewrite Hmin]. repeat split; constructor. }
  rewrite Hpairs.
  destruct (solve_Ok_inv a pairs Hws Hpairs) as (_ & _ & _ & _ & _ & _ & [_ Hlen] & _).
  rewrite Hmin in Hlen. by destruct pairs.
Qed.
End Solve.

(** ** The exhaustive solver meets the contract *)

Lemma matchings_length rows :
  forall cols k P, In P (matchings rows cols k) -> length P = k.
Proof.
  induction rows as [|r rows IH]; intros cols k P H; destruct k as [|k]; simpl in H.
  - by destruct H as [<-|[]].
  - done.
  - by destruct H as [<-|[]].
  - apply in_app_or in H as [H|H]; [|by apply (IH cols)].
    apply in_flat_map in H as (c & _ & H).
    apply in_map_iff in H as (P' & <- & H). simpl. f_equal. by apply (IH _ _ _ H).
Qed.

Lemma matchings_sound rows :
  forall cols k P, NoDup cols -> In P (matchings rows cols k) ->
    P.*1 `sublist_of` rows /\ NoDup P.*2 /\ (forall c, c ∈ P.*2 -> c ∈ cols).
Proof.
  induction rows as [|r rows IH]; intros cols k P Hnd H; destruct k as [|k]; simpl in H.
  - destruct H as [<-|[]]. split; [constructor|]. split; [constructor|]. by intros c Hc%elem_of_nil.
  - done.
  - destruct H as [<-|[]]. split; [apply sublist_nil_l|]. split; [constructor|]. by intros c Hc%elem_of_nil.
  - apply in_app_or in H as [H|H].
    + apply in_flat_map in H as (c & Hc & H).
      apply in_map_iff in H as (P' & <- & H).
      destruct (IH (filter (fun c' => c' <> c) cols) k P') as (Hsub & Hnd' & Hin);
        [by apply NoDup_filter | done |].
      simpl. split; [by constructor|]. split.
      * constructor; [|done]. intros Hc'. apply Hin in Hc'.
        apply list_elem_of_filter in Hc' as [Hne _]. done.
      * intros c' Hc'. apply elem_of_cons in Hc' as [->|Hc'].
        -- by apply list_elem_of_In.
        -- apply Hin in Hc'. by apply list_elem_of_filter in Hc' as [_ ?].
    + destruct (IH cols (S k) P Hnd H) as (Hsub & Hnd' & Hin).
      split; [by constructor|]. done.
Qed.

Lemma matchings_complete rows :
  forall cols k (P : list (nat * nat)),
    NoDup P.*1 -> NoDup P.*2 ->
    (forall p, p ∈ P -> fst p ∈ rows /\ snd p ∈ cols) ->
    length P = k ->
    exists P', In P' (matchings rows cols k) /\ P' ≡ₚ P.
Proof.
  induction rows as [|r rows IH]; intros cols k P Hnd1 Hnd2 Hin Hlen.
  - destruct P as [|p P].
    + simpl in Hlen. subst k. exists []. split; [by left | done].
    + destruct (Hin p) as [Hp _]; [by left|]. by apply elem_of_nil in Hp.
  - destruct k as [|k].
    { destruct P; [|done]. exists []. split; [by left | done]. }
    destruct (decide (r ∈ P.*1)) as [Hr|Hr].
    + apply list_elem_of_fmap in Hr as ([r0 c] & Heq & Hp). simpl in Heq. subst r0.
      apply elem_of_Permutation in Hp as [P2 HP].
      rewrite HP in Hnd1, Hnd2. simpl in Hnd1, Hnd2.
      apply NoDup_cons in Hnd1 as [Hr1 Hnd1]. apply NoDup_cons in Hnd2 as [Hc2 Hnd2].
      destruct (IH (filter (fun c' => c' <> c) cols) k P2) as (Q & HQ & HQP); [done|done| | |].
      * intros q Hq. destruct (Hin q) as [Hq1 Hq2].
        { rewrite HP. by right. }
        split.
        -- apply elem_of_cons in Hq1 as [Heq|Hq1]; [|done].
           exfalso. apply Hr1. rewrite <- Heq. apply list_elem_of_fmap. by exists q.
        -- apply list_elem_of_filter. split; [|done].
           intros Heq. apply Hc2. rewrite <- Heq. apply list_elem_of_fmap. by exists q.
      * apply Permutation_length in HP. simpl in HP. lia.
      * exists ((r, c) :: Q). split.
        -- simpl. apply in_or_app. left. apply in_flat_map. exists c. split.
           ++ apply list_elem_of_In. destruct (Hin (r, c)) as [_ ?]; [|done].
              rewrite HP. by left.
           ++ by apply in_map.
        -- rewrite HP. by constructor.
    + destruct (IH cols (S k) P Hnd1 Hnd2) as (Q & HQ & HQP); [|done|].
      * intros p Hp. destruct (Hin p Hp) as [Hp1 Hp2]. split; [|done].
        apply elem_of_cons in Hp1 as [Heq|Hp1]; [|done].
        exfalso. apply Hr. rewrite <- Heq. apply list_elem_of_fmap. by exists p.
      * exists Q. split; [|done]. simpl. apply in_or_app. by right.
Qed.

Lemma argmin_None {A} (key : A -> cost) l : argmin key l = None -> l = [].
Proof.
  destruct l as [|x l]; [done|]. simpl.
  destruct (argmin key l); [destruct (cost_leb _ _)|]; done.
Qed.

Lemma argmin_Some {A} (key : A -> cost) l x :
  argmin key l = Some x ->
  In x l /\ forall y, In y l -> cost_le (key x) (key y).
Proof.
  revert x. induction l as [|z l IH]; intros x H; [done|]. simpl in H.
  destruct (argmin key l) as [m|] eqn:Hm.
  - destruct (IH m eq_refl) as [Hin Hmin].
    destruct (cost_leb (key z) (key m)) eqn:Hle; injection H as <-.
    + apply cost_leb_le in Hle. split; [by left|].
      intros y [<-|Hy]; [apply cost_le_refl|].
      eapply cost_le_trans; [exact Hle | by apply Hmin].
    + apply cost_leb_false in Hle. split; [by right|].
      intros y [<-|Hy]; [done | by apply Hmin].
  - injection H as <-. apply argmin_None in Hm as ->.
    split; [by left|]. intros y [<-|[]]. apply cost_le_refl.
Qed.

Lemma StronglySorted_lt_seq i n : StronglySorted lt (seq i n).
Proof.
  revert i. induction n as [|n IH]; intros i; simpl; constructor; [apply IH|].
  apply Forall_forall. intros x Hx. apply elem_of_seq in Hx. lia.
Qed.

Lemma sublist_StronglySorted {A} (R : A -> A -> Prop) (l1 l2 : list A) :
  l1 `sublist_of` l2 -> StronglySorted R l2 -> StronglySorted R l1.
Proof.
  induction 1 as [|x l1 l2 Hsub IH|x l1 l2 Hsub IH]; intros Hs.
  - constructor.
  - apply StronglySorted_inv in Hs as [Hs Hall]. constructor; [by apply IH|].
    apply Forall_forall. intros y Hy. rewrite Forall_forall in Hall.
    apply Hall. by eapply elem_of_sublist.
  - apply StronglySorted_inv in Hs as [Hs _]. by apply IH.
Qed.

Lemma candidate_full_matching a P :
  In P (candidates a) -> full_matching a P /\ StronglySorted lt P.*1.
Proof.
  intros HP. unfold candidates in HP.
  pose proof (matchings_length _ _ _ _ HP) as Hlen.
  destruct (matchings_sound _ _ _ _ (NoDup_seq 0 (ncols a)) HP) as (Hsub & Hnd2 & Hcols).
  split; [split; [|done]|].
  - split; [by eapply sublist_NoDup; [apply NoDup_seq|]|]. split; [done|].
    apply Forall_forall. intros p Hp. split.
    + assert (fst p ∈ seq 0 (nrows a)) as H.
      { eapply elem_of_sublist; [|exact Hsub]. apply list_elem_of_fmap. by exists p. }
      apply elem_of_seq in H. lia.
    + assert (snd p ∈ seq 0 (ncols a)) as H.
      { apply Hcols. apply list_elem_of_fmap. by exists p. }
      apply elem_of_seq in H. lia.
  - eapply sublist_StronglySorted; [exact Hsub | apply StronglySorted_lt_seq].
Qed.

Lemma full_matching_candidate a P :
  full_matching a P -> exists Q, In Q (candidates a) /\ Q ≡ₚ P.
Proof.
  intros [(Hnd1 & Hnd2 & Hrange) Hlen].
  apply matchings_complete; [done | done | | done].
  intros p Hp. rewrite Forall_forall in Hrange.
  destruct (Hrange p Hp) as [H1 H2].
  split; apply elem_of_seq; lia.
Qed.

Lemma exhaustive_lsa_Ok_inv a rs cs :
  exhaustive_lsa a = Ok (rs, cs) ->
  exists P, In P (candidates a) /\
            (forall Q, In Q (candidates a) ->
                       cost_le (assignment_cost a P) (assignment_cost a Q)) /\
            is_finite (assignment_cost a P) = true /\
            rs = P.*1 /\ cs = P.*2.
Proof.
  unfold exhaustive_lsa.
  destruct (argmin (assignment_cost a) (candidates a)) as [P|] eqn:Hmin; [|done].
  destruct (is_finite (assignment_cost a P)) eqn:Hfin; [|done].
  intros [= <- <-]. apply argmin_Some in Hmin as [Hin Hle].
  by exists P.
Qed.

Theorem exhaustive_lsa_contract : lsa_contract exhaustive_lsa.
Proof.
  split.
  - intros a rs cs _ H.
    apply exhaustive_lsa_Ok_inv in H as (P & HP & _ & _ & -> & ->).
    rewrite !length_fmap, zip_fst_snd. split; [done|].
    by destruct (candidate_full_matching a P HP).
  - intros a rs cs _ H.
    apply exhaustive_lsa_Ok_inv in H as (P & HP & _ & _ & -> & _).
    by destruct (candidate_full_matching a P HP).
  - intros a rs cs pairs _ H Hfull.
    apply exhaustive_lsa_Ok_inv in H as (P & HP & Hmin & _ & -> & ->).
    rewrite zip_fst_snd.
    destruct (full_matching_candidate a pairs Hfull) as (Q & HQ & Hperm).
    apply (cost_le_trans _ (assignment_cost a Q));
      [by apply Hmin | by apply assignment_cost_perm_le].
  - intros a pairs _ Hfull Hfin.
    destruct (full_matching_candidate a pairs Hfull) as (Q & HQ & Hperm).
    unfold exhaustive_lsa.
    destruct (argmin (assignment_cost a) (candidates a)) as [P|] eqn:Hmin.
    + apply argmin_Some in Hmin as [Hin Hle].
      assert (is_finite (assignment_cost a P) = true) as ->; [|by eexists].
      eapply cost_le_finite; [|exact Hfin].
      apply (cost_le_trans _ (assignment_cost a Q));
        [by apply Hle | by apply assignment_cost_perm_le].
    + apply argmin_None in Hmin. rewrite Hmin in HQ. done.
  - intros a _ Hinf. unfold exhaustive_lsa.
    destruct (argmin (assignment_cost a) (candidates a)) as [P|] eqn:Hmin; [|done].
    apply argmin_Some in Hmin as [Hin _].
    apply candidate_full_matching in Hin as [Hfull _].
    by rewrite (Hinf P Hfull).
Qed.

(** ** Claims about the engine *)

Lemma for_each_skip {A St} (f : nat -> A -> St -> result St) (l : list A) :
  (forall i x s, f i x s = Ok s) -> forall i s, for_each f i l s = Ok s.
Proof.
  intros Hf. induction l as [|x l IH]; intros i s; simpl; [done|].
  rewrite Hf. simpl. apply IH.
Qed.

Lemma calculate_cost_matrix_empty strptime geodesic globals trucks cargo :
  trucks = [] \/ cargo = [] ->
  calculate_cost_matrix strptime geodesic globals trucks cargo
    = Ok (np_full (length trucks, length cargo) np_inf, ∅).
Proof.
  intros [->| ->]; unfold calculate_cost_matrix; [done|].
  by apply for_each_skip.
Qed.

Lemma getitem_no_cells n m v i j :
  n = 0 \/ m = 0 -> getitem (np_full (n, m) v) i j = Raise IndexError.
Proof.
  intros H. unfold getitem, np_full. simpl.
  destruct (replicate n (replicate m v) !! i) as [row|] eqn:Hrow; [|done].
  apply lookup_replicate in Hrow as [-> Hi].
  destruct H as [->| ->]; [lia|]. done.
Qed.

(** C8: with no truck or no cargo nothing fails: the build returns a matrix
    without cells and an empty [time_info], and [optimize_assignments]
    returns the empty list of pairs. *)
Theorem C8_empty_input_is_not_an_error (strptime : string -> option Q)
    (geodesic : Q * Q -> Q * Q -> result Q)
    (lsa : ndarray -> result (list nat * list nat)) (globals : list string)
    (trucks : list Truck) (cargo : list Cargo) :
  lsa_contract lsa ->
  trucks = [] \/ cargo = [] ->
  exists cm,
    calculate_cost_matrix strptime geodesic globals trucks cargo = Ok (cm, ∅) /\
    shape cm = (length trucks, length cargo) /\
    (forall i j, getitem cm i j = Raise IndexError) /\
    optimize_assignments strptime geodesic lsa globals trucks cargo = Ok ([], ∅).
Proof.
  intros Hlsa Hempty.
  exists (np_full (length trucks, length cargo) np_inf).
  pose proof (calculate_cost_matrix_empty strptime geodesic globals _ _ Hempty) as Hb.
  split; [done|]. split; [done|]. split.
  - intros i j. apply getitem_no_cells.
    destruct Hempty as [->| ->]; [by left | by right].
  - unfold optimize_assignments. rewrite Hb. simpl.
    rewrite (solve_no_cells lsa Hlsa); [done | apply well_shaped_np_full |].
    unfold nrows, ncols. simpl. destruct Hempty as [->| ->]; [by left | by right].
Qed.

Lemma C8_empty_input_is_not_an_error_witness :
  exists cm,
    calculate_cost_matrix iso_strptime grid_geodesic optimizer_globals
      [truck_R1; truck_R2] [] = Ok (cm, ∅) /\
    shape cm = (2, 0) /\
    (forall i j, getitem cm i j = Raise IndexError) /\
    optimize_assignments iso_strptime grid_geodesic exhaustive_lsa
      optimizer_globals [truck_R1; truck_R2] [] = Ok ([], ∅).
Proof.
  apply (C8_empty_input_is_not_an_error iso_strptime grid_geodesic exhaustive_lsa
           optimizer_globals [truck_R1; truck_R2] []).
  - apply exhaustive_lsa_contract.
  - right. reflexivity.
Defined.

(** C4: whatever [optimize_assignments] returns is a partial matching: no
    truck index and no cargo index occurs twice; every returned pair (i, j)
    has a finite cell, not [np.inf], and its projected pickup time is at most
    the end of the cargo's window. *)
Theorem C4_result_is_valid_matching (strptime : string -> option Q)
    (geodesic : Q * Q -> Q * Q -> result Q)
    (lsa : ndarray -> result (list nat * list nat)) (globals : list string)
    (trucks : list Truck) (cargo : list Cargo)
    (pairs : list (nat * nat)) (ti : gmap (nat * nat) CostEntry) :
  lsa_contract lsa ->
  optimize_assignments strptime geodesic lsa globals trucks cargo = Ok (pairs, ti) ->
  NoDup pairs.*1 /\ NoDup pairs.*2 /\
  exists cm,
    calculate_cost_matrix strptime geodesic globals trucks cargo = Ok (cm, ti) /\
    forall i j, (i, j) ∈ pairs ->
      (exists q, getitem cm i j = Ok (Finite q)) /\
      exists t c p a,
        trucks !! i = Some t /\ cargo !! j = Some c /\
        projected_pickup_time strptime geodesic t c = Ok p /\
        available_to strptime c = Ok a /\ (p <= a)%Q.
Proof.
  intros Hlsa Hrun. unfold optimize_assignments in Hrun.
  apply bind_Ok_inv in Hrun as ([cm ti'] & Hbuild & Hrun).
  apply bind_Ok_inv in Hrun as (pairs' & Hsolve & Hrun).
  injection Hrun as -> ->.
  destruct (calculate_cost_matrix_cells _ _ _ _ _ _ _ Hbuild) as (Hws & Hsh & _ & _).
  destruct (solve_Ok_inv lsa Hlsa cm pairs Hws Hsolve)
    as (rs & cs & _ & _ & _ & _ & [(Hnd1 & Hnd2 & Hrange) _] & Hfin).
  split; [done|]. split; [done|]. exists cm. split; [done|].
  intros i j Hij.
  apply assignment_cost_finite_cells in Hfin.
  rewrite Forall_forall in Hfin, Hrange.
  destruct (Hfin _ Hij) as [q Hq]. destruct (Hrange _ Hij) as [Hi Hj].
  simpl in *. split; [by exists q|].
  unfold nrows, ncols in *. rewrite Hsh in Hi, Hj. simpl in *.
  destruct (lookup_lt_is_Some_2 trucks i Hi) as [t Ht].
  destruct (lookup_lt_is_Some_2 cargo j Hj) as [c Hc].
  destruct (calculate_cost_matrix_cell _ _ _ _ _ _ _ _ _ _ _ Hbuild Ht Hc)
    as (d & p & w & a & _ & Hp & _ & Ha & Hcell).
  exists t, c, p, a. do 4 (split; [done|]).
  destruct (Qle_bool p a) eqn:Hle; [by apply Qle_bool_iff|].
  destruct Hcell as [Hinf _]. rewrite Hinf in Hq. discriminate.
Qed.

Lemma C4_result_is_valid_matching_witness :
  exists pairs ti,
    optimize_assignments iso_strptime grid_geodesic exhaustive_lsa
      globals_with_datetime [truck_R1; truck_R2] [cargo_A; cargo_B]
      = Ok (pairs, ti) /\
    pairs = [(0, 0); (1, 1)] /\
    NoDup pairs.*1 /\ NoDup pairs.*2 /\
    exists cm,
      calculate_cost_matrix iso_strptime grid_geodesic globals_with_datetime
        [truck_R1; truck_R2] [cargo_A; cargo_B] = Ok (cm, ti) /\
      forall i j, (i, j) ∈ pairs ->
        (exists q, getitem cm i j = Ok (Finite q)) /\
        exists t c p a,
          [truck_R1; truck_R2] !! i = Some t /\ [cargo_A; cargo_B] !! j = Some c /\
          projected_pickup_time iso_strptime grid_geodesic t c = Ok p /\
          available_to iso_strptime c = Ok a /\ (p <= a)%Q.
Proof.
  destruct (optimize_assignments iso_strptime grid_geodesic exhaustive_lsa
              globals_with_datetime [truck_R1; truck_R2] [cargo_A; cargo_B])
    as [[pairs ti]|e] eqn:Hrun; [|by vm_compute in Hrun].
  exists pairs, ti. split; [reflexivity|]. split.
  - vm_compute in Hrun. by injection Hrun as <- _.
  - apply (C4_result_is_valid_matching iso_strptime grid_geodesic exhaustive_lsa
             globals_with_datetime [truck_R1; truck_R2] [cargo_A; cargo_B]
             pairs ti exhaustive_lsa_contract Hrun).
Defined.

(** C5 (amended): the pairs returned for a cost matrix have a total cost
    less than or equal to that of any other matching of the same size over
    pairs of finite cost. *)
Theorem C5_minimal_among_equal_size
    (lsa : ndarray -> result (list nat * list nat))
    (a : ndarray) (pairs other : list (nat * nat)) :
  lsa_contract lsa -> well_shaped a ->
  solve lsa a = Ok pairs ->
  matching a other ->
  Forall (fun p => is_finite (cell_cost a p) = true) other ->
  length other = length pairs ->
  exists x y, assignment_cost a pairs = Finite x /\
              assignment_cost a other = Finite y /\ (x <= y)%Q.
Proof.
  intros Hlsa Hws Hsolve Hother Hfeas Hlen.
  destruct (solve_Ok_inv lsa Hlsa a pairs Hws Hsolve)
    as (rs & cs & Hrun & -> & _ & _ & [_ Hfull] & Hfin).
  assert (cost_le (assignment_cost a (zip rs cs)) (assignment_cost a other)) as Hle.
  { apply (lsa_optimal _ Hlsa); [done | done |]. split; [done | congruence]. }
  assert (is_finite (assignment_cost a other) = true) as Hfin'.
  { apply assignment_cost_all_finite. eapply Forall_impl; [exact Hfeas|].
    intros p Hp. simpl in Hp. destruct (cell_cost a p) as [q|] eqn:Hq; [|done].
    exists q. by apply cell_cost_finite. }
  destruct (assignment_cost a (zip rs cs)) as [x|]; [|done].
  destruct (assignment_cost a other) as [y|]; [|done].
  by exists x, y.
Qed.

Lemma C5_minimal_among_equal_size_witness :
  exists x y,
    assignment_cost matrix_3x3 [(0, 1); (1, 0); (2, 2)] = Finite x /\
    assignment_cost matrix_3x3 [(0, 0); (1, 1); (2, 2)] = Finite y /\
    (x <= y)%Q.
Proof.
  apply (C5_minimal_among_equal_size exhaustive_lsa matrix_3x3
           [(0, 1); (1, 0); (2, 2)] [(0, 0); (1, 1); (2, 2)]).
  - apply exhaustive_lsa_contract.
  - split; [reflexivity|]. by repeat constructor.
  - vm_compute. reflexivity.
  - split; [by apply (bool_decide_unpack _)|].
    split; [by apply (bool_decide_unpack _)|].
    repeat constructor; unfold nrows, ncols; simpl; lia.
  - by repeat constructor.
  - reflexivity.
Defined.

(** A single finite cell is always selected. *)
Lemma solve_single_cell (lsa : ndarray -> result (list nat * list nat)) :
  lsa_contract lsa -> solve lsa matrix_1x1 = Ok [(0, 0)].
Proof.
  intros Hlsa.
  assert (well_shaped matrix_1x1) as Hws.
  { split; [done|]. by repeat constructor. }
  destruct (solve_returns lsa Hlsa matrix_1x1 [(0, 0)]) as [pairs Hpairs];
    [done | | done |].
  { split; [|done]. split; [apply NoDup_singleton|].
    split; [apply NoDup_singleton|].
    constructor; [|constructor]. unfold nrows, ncols; simpl; lia. }
  rewrite Hpairs. f_equal.
  destruct (solve_Ok_inv lsa Hlsa _ _ Hws Hpairs)
    as (_ & _ & _ & _ & _ & _ & [(_ & _ & Hrange) Hlen] & _).
  destruct pairs as [|[i j] [|? ?]]; try done.
  apply Forall_cons in Hrange as [[Hi Hj] _].
  unfold nrows, ncols in *. simpl in *.
  by replace i with 0 by lia; replace j with 0 by lia.
Qed.

(** C5, as stated, fails: on the 1x1 matrix of cost 5 the pair (0, 0) is
    returned, and the empty matching, which is smaller and uses feasible
    pairs only, costs 0. *)
Lemma C5_counterexample :
  (forall lsa, lsa_contract lsa -> solve lsa matrix_1x1 = Ok [(0, 0)]) /\
  solve exhaustive_lsa matrix_1x1 = Ok [(0, 0)] /\
  matching matrix_1x1 [] /\
  Forall (fun p => is_finite (cell_cost matrix_1x1 p) = true) [] /\
  length (@nil (nat * nat)) <= length [(0, 0)] /\
  assignment_cost matrix_1x1 [(0, 0)] = Finite (5 + 0)%Q /\
  assignment_cost matrix_1x1 [] = Finite 0%Q /\
  ~ (5 + 0 <= 0)%Q.
Proof.
  split; [apply solve_single_cell|].
  split; [apply solve_single_cell, exhaustive_lsa_contract|].
  split; [repeat split; constructor|].
  split; [constructor|]. split; [simpl; lia|].
  split; [reflexivity|]. split; [reflexivity|]. intros H. lra.
Qed.

(** ** The value that marks an excluded pair *)

(** In streamlit_app.py every cell added to make the matrix square holds the
    finite value 1e6. *)
Lemma square_cost_matrix_padding distances n m i j :
  i < Nat.max n m -> j < Nat.max n m ->
  length (data distances) = n ->
  Forall (fun row => length row = m) (data distances) ->
  n <= i \/ m <= j ->
  getitem (StreamlitApp.square_cost_matrix distances n m) i j
    = Ok (Finite 1000000%Q).
Proof.
  intros Hi Hj Hlen Hrows Hpad.
  unfold getitem, StreamlitApp.square_cost_matrix, StreamlitApp.set_block. simpl.
  rewrite list_lookup_imap, lookup_replicate_2 by done. simpl.
  destruct (data distances !! i) as [brow|] eqn:Hb.
  - rewrite list_lookup_imap, lookup_replicate_2 by done. simpl.
    assert (i < n) by (rewrite <- Hlen; by eapply lookup_lt_Some).
    assert (length brow = m) as Hm.
    { rewrite Forall_forall in Hrows. apply Hrows. by eapply list_elem_of_lookup_2. }
    rewrite (lookup_ge_None_2 brow j) by lia. done.
  - by rewrite lookup_replicate_2.
Qed.

Lemma solve_single_infinite_cell (lsa : ndarray -> result (list nat * list nat)) cm :
  lsa_contract lsa -> well_shaped cm -> shape cm = (1, 1) ->
  getitem cm 0 0 = Ok np_inf ->
  solve lsa cm = Raise ValueError.
Proof.
  intros Hlsa Hws Hsh Hcell. apply (solve_infeasible lsa Hlsa cm Hws).
  intros pairs [(_ & _ & Hrange) Hlen].
  unfold nrows, ncols in *. rewrite Hsh in *. simpl in *.
  destruct pairs as [|[i j] [|? ?]]; try done.
  apply Forall_cons in Hrange as [[Hi Hj] _]. simpl in *.
  replace i with 0 by lia. replace j with 0 by lia.
  unfold cell_cost. simpl. by rewrite Hcell.
Qed.

(** C2 (the code): the value optimizer.py puts in every cell that is not
    recorded is [np.inf], which is not finite. A pair outside its window
    keeps it, and a solver that meets scipy's contract raises ValueError on
    the resulting matrix instead of leaving the pair out; as written the run
    ends earlier, with NameError. streamlit_app.py marks its padding with the
    finite value 1e6. *)
Theorem C2_sentinel_is_infinity :
  is_finite np_inf = false /\
  (forall n m i j, i < n -> j < m ->
     getitem (np_full (n, m) np_inf) i j = Ok Infinity) /\
  (forall lsa, lsa_contract lsa ->
     optimize_assignments iso_strptime grid_geodesic lsa globals_with_datetime
       [truck_R1] [cargo_closed] = Raise ValueError) /\
  optimize_assignments iso_strptime grid_geodesic exhaustive_lsa
    globals_with_datetime [truck_R1; truck_R2] [cargo_closed; cargo_A]
    = Raise ValueError /\
  optimize_assignments iso_strptime grid_geodesic exhaustive_lsa
    optimizer_globals [truck_R1] [cargo_closed] = Raise NameError /\
  is_finite StreamlitApp.large_value = true /\
  (forall distances n m i j,
     i < Nat.max n m -> j < Nat.max n m ->
     length (data distances) = n ->
     Forall (fun row => length row = m) (data distances) ->
     n <= i \/ m <= j ->
     getitem (StreamlitApp.square_cost_matrix distances n m) i j
       = Ok StreamlitApp.large_value).
Proof.
  split; [reflexivity|].
  split; [intros n m i j; apply getitem_np_full|]. split.
  - intros lsa Hlsa. unfold optimize_assignments.
    destruct (calculate_cost_matrix iso_strptime grid_geodesic
                globals_with_datetime [truck_R1] [cargo_closed])
      as [[cm ti]|e] eqn:Hrun; [|by vm_compute in Hrun].
    simpl.
    destruct (calculate_cost_matrix_cells _ _ _ _ _ _ _ Hrun) as (Hws & Hsh & _ & _).
    destruct (calculate_cost_matrix_cell _ _ _ _ _ _ _ 0 0 truck_R1 cargo_closed
                Hrun eq_refl eq_refl)
      as (d & p & w & a & Hd & Hp & Hw & Ha & Hcell).
    vm_compute in Hd. injection Hd as <-.
    vm_compute in Hp. injection Hp as <-.
    vm_compute in Ha. injection Ha as <-.
    change (Qle_bool _ _) with false in Hcell. destruct Hcell as [Hcell _].
    by rewrite (solve_single_infinite_cell lsa cm Hlsa Hws Hsh Hcell).
  - split; [vm_compute; reflexivity|].
    split; [vm_compute; reflexivity|].
    split; [reflexivity|]. apply square_cost_matrix_padding.
Qed.

(** * Further properties *)

(** ** time_cost_calculator.py *)

(** X1: for an availability start that denotes an instant,
    [calculate_waiting_time] returns max(0, start - pickup): never a negative
    wait, zero when the truck is not early, and just enough to reach the
    start otherwise. An unparseable string raises ValueError, a missing field
    TypeError. *)
Theorem X1_waiting_time_is_clamped_gap (strptime : string -> option Q)
    (self : TimeCostCalculator) (pickup : Q) (available_from : cell) :
  (forall start, timestamp_value strptime available_from = Some start ->
     exists w,
       calculate_waiting_time strptime self pickup available_from = Ok w /\
       (0 <= w)%Q /\ (start <= pickup + w)%Q /\
       ((start <= pickup)%Q -> w = 0%Q) /\
       ((pickup < start)%Q -> w = (start - pickup)%Q)) /\
  (forall s, available_from = Str s -> strptime s = None ->
     calculate_waiting_time strptime self pickup available_from
       = Raise ValueError) /\
  (available_from = NaN ->
     calculate_waiting_time strptime self pickup available_from
       = Raise TypeError).
Proof.
  split; [|split].
  - intros start Hstart. unfold calculate_waiting_time.
    assert (match available_from with
            | Str s => datetime_strptime strptime s
            | Datetime t => Ok t
            | NaN => Raise TypeError
            end = Ok start) as ->.
    { destruct available_from as [s|t|]; simpl in Hstart.
      - unfold datetime_strptime. by rewrite Hstart.
      - by injection Hstart as ->.
      - done. }
    simpl. destruct (Qltb pickup start) eqn:E.
    + apply Qltb_lt in E. eexists. split; [reflexivity|].
      split; [lra|]. split; [lra|]. split; [intros; lra | done].
    + assert (start <= pickup)%Q as Hle.
      { apply Qnot_lt_le. intros Hlt. apply Qltb_lt in Hlt. congruence. }
      eexists. split; [reflexivity|].
      split; [lra|]. split; [lra|]. split; [done | intros; lra].
  - intros s -> Hs. unfold calculate_waiting_time, datetime_strptime.
    by rewrite Hs.
  - by intros ->.
Qed.

Lemma X1_waiting_time_is_clamped_gap_witness :
  exists w,
    calculate_waiting_time iso_strptime (TimeCostCalculator_init None)
      (473362 # 1)%Q (Str "2024-01-01 12:00:00") = Ok w /\
    (0 <= w)%Q /\ ((102246624000 # 216000) <= (473362 # 1) + w)%Q.
Proof.
  destruct (X1_waiting_time_is_clamped_gap iso_strptime
              (TimeCostCalculator_init None) (473362 # 1)%Q
              (Str "2024-01-01 12:00:00")) as [H _].
  destruct (H (102246624000 # 216000)%Q) as (w & Hw & H0 & H1 & _);
    [reflexivity|].
  exists w. by repeat split.
Defined.

(** X2: [calculate_pickup_time] returns only if the speed is not zero and
    the dropoff field denotes an instant; at a speed that is not zero a
    string that does not parse raises ValueError. *)
Theorem X2_pickup_time_needs_speed_and_instant (strptime : string -> option Q)
    (self : TimeCostCalculator) (dropoff_time : cell) (distance_km : Q) :
  (returns (calculate_pickup_time strptime self dropoff_time distance_km) ->
   ~ (standard_speed_kmh self == 0)%Q /\
   is_Some (timestamp_value strptime dropoff_time)) /\
  (~ (standard_speed_kmh self == 0)%Q ->
   forall s, dropoff_time = Str s -> strptime s = None ->
     calculate_pickup_time strptime self dropoff_time distance_km
       = Raise ValueError).
Proof.
  unfold calculate_pickup_time. split.
  - intros [p Hp]. apply bind_Ok_inv in Hp as (travel & Htravel & Hp).
    split.
    + intros Hzero. by rewrite calculate_travel_time_zero in Htravel.
    + destruct dropoff_time as [s|t|]; simpl; [|by eexists|done].
      apply bind_Ok_inv in Hp as (t & Ht & _). unfold datetime_strptime in Ht.
      destruct (strptime s); [by eexists | done].
  - intros Hne s -> Hs. rewrite calculate_travel_time_nonzero by done. simpl.
    unfold datetime_strptime. by rewrite Hs.
Qed.

Lemma X2_pickup_time_needs_speed_and_instant_witness :
  is_Some (timestamp_value iso_strptime (Str "2024-01-01 12:00:00")) /\
  calculate_pickup_time iso_strptime (TimeCostCalculator_init None)
    (Str "01/01/2024 12:00") 146%Q = Raise ValueError.
Proof.
  split.
  - apply (X2_pickup_time_needs_speed_and_instant iso_strptime
             (TimeCostCalculator_init None) (Str "2024-01-01 12:00:00") 146%Q).
    eexists. vm_compute. reflexivity.
  - destruct (X2_pickup_time_needs_speed_and_instant iso_strptime
                (TimeCostCalculator_init None) (Str "01/01/2024 12:00") 146%Q)
      as [_ H].
    apply (H ltac:(discriminate) "01/01/2024 12:00"%string); reflexivity.
Defined.

Lemma calculate_pickup_time_Ok_inv strptime self ts d p :
  calculate_pickup_time strptime self ts d = Ok p ->
  exists r, timestamp_value strptime ts = Some r /\
            ~ (standard_speed_kmh self == 0)%Q /\
            p = (r - d / standard_speed_kmh self)%Q.
Proof.
  unfold calculate_pickup_time, calculate_travel_time. intros H.
  destruct (Qeq_bool (standard_speed_kmh self) 0) eqn:E; [done|].
  assert (~ (standard_speed_kmh self == 0)%Q) as Hne.
  { intros Hz. apply Qeq_bool_iff in Hz. congruence. }
  simpl in H. destruct ts as [s|t|]; simpl in *.
  - unfold datetime_strptime in H. destruct (strptime s) as [r|]; [|done].
    simpl in H. injection H as <-. by exists r.
  - injection H as <-. by exists t.
  - done.
Qed.

Lemma Qdiv_le_mono (x y s : Q) : (0 < s)%Q -> (x <= y)%Q -> (x / s <= y / s)%Q.
Proof.
  intros Hs Hxy. unfold Qdiv. apply Qmult_le_compat_r; [done|].
  apply Qlt_le_weak, Qinv_lt_0_compat, Hs.
Qed.

(** X3: the pickup time and the travel time add up to the release time; at
    a positive speed the pickup is never after the release for a
    non-negative distance, and a longer distance never gives a later
    pickup. *)
Theorem X3_pickup_plus_travel_is_release (strptime : string -> option Q)
    (self : TimeCostCalculator) (dropoff_time : cell)
    (release distance_km pickup : Q) :
  timestamp_value strptime dropoff_time = Some release ->
  calculate_pickup_time strptime self dropoff_time distance_km = Ok pickup ->
  (exists travel, calculate_travel_time self distance_km = Ok travel /\
                  (pickup + travel == release)%Q) /\
  ((0 < standard_speed_kmh self)%Q -> (0 <= distance_km)%Q ->
   (pickup <= release)%Q) /\
  (forall farther pickup',
     (0 < standard_speed_kmh self)%Q -> (distance_km <= farther)%Q ->
     calculate_pickup_time strptime self dropoff_time farther = Ok pickup' ->
     (pickup' <= pickup)%Q).
Proof.
  intros Hrel Hp.
  apply calculate_pickup_time_Ok_inv in Hp as (r & Hr & Hne & ->).
  assert (r = release) as -> by congruence.
  split; [|split].
  - rewrite calculate_travel_time_nonzero by done. eexists. split; [done|]. ring.
  - intros Hs Hd.
    pose proof (Qdiv_le_mono 0 distance_km _ Hs Hd) as H.
    unfold Qdiv in H at 1. rewrite Qmult_0_l in H. lra.
  - intros farther pickup' Hs Hle Hp'.
    apply calculate_pickup_time_Ok_inv in Hp' as (r' & Hr' & _ & ->).
    assert (r' = release) as -> by congruence.
    pose proof (Qdiv_le_mono _ _ _ Hs Hle). lra.
Qed.

Lemma X3_pickup_plus_travel_is_release_witness :
  exists travel,
    calculate_travel_time (TimeCostCalculator_init None) 146%Q = Ok travel /\
    ((102246624000 # 216000) - 146 / 73 + travel == 102246624000 # 216000)%Q.
Proof.
  destruct (X3_pickup_plus_travel_is_release iso_strptime
              (TimeCostCalculator_init None) (Str "2024-01-01 12:00:00")
              (102246624000 # 216000)%Q 146%Q
              ((102246624000 # 216000) - 146 / 73)%Q) as [H _];
    [reflexivity | reflexivity | exact H].
Defined.

(** X4: [calculate_total_cost] is non-negative on non-negative arguments
    and never decreases when a price rises: over a non-negative distance in
    the price per km, over a non-negative wait in the price per waiting
    hour. *)
Theorem X4_total_cost_monotone (self : TimeCostCalculator)
    (distance_km waiting price price' waiting_price waiting_price' : Q) :
  ((0 <= distance_km)%Q -> (0 <= waiting)%Q -> (0 <= price)%Q ->
   (0 <= waiting_price)%Q ->
   (0 <= calculate_total_cost self distance_km waiting price waiting_price)%Q) /\
  ((0 <= distance_km)%Q -> (price <= price')%Q ->
   (calculate_total_cost self distance_km waiting price waiting_price
    <= calculate_total_cost self distance_km waiting price' waiting_price)%Q) /\
  ((0 <= waiting)%Q -> (waiting_price <= waiting_price')%Q ->
   (calculate_total_cost self distance_km waiting price waiting_price
    <= calculate_total_cost self distance_km waiting price waiting_price')%Q).
Proof.
  unfold calculate_total_cost. split; [|split].
  - intros Hd Hw Hp Hwp.
    pose proof (Qmult_le_0_compat _ _ Hd Hp).
    pose proof (Qmult_le_0_compat _ _ Hw Hwp). lra.
  - intros Hd Hp.
    assert (distance_km * price <= distance_km * price')%Q; [|lra].
    rewrite !(Qmult_comm distance_km). by apply Qmult_le_compat_r.
  - intros Hw Hwp.
    assert (waiting * waiting_price <= waiting * waiting_price')%Q; [|lra].
    rewrite !(Qmult_comm waiting). by apply Qmult_le_compat_r.
Qed.

Lemma X4_total_cost_monotone_witness :
  (0 <= calculate_total_cost (TimeCostCalculator_init None) 10 2 1 5)%Q /\
  (calculate_total_cost (TimeCostCalculator_init None) 10 2 1 5
   <= calculate_total_cost (TimeCostCalculator_init None) 10 2 3 5)%Q /\
  (calculate_total_cost (TimeCostCalculator_init None) 10 2 1 5
   <= calculate_total_cost (TimeCostCalculator_init None) 10 2 1 7)%Q.
Proof.
  destruct (X4_total_cost_monotone (TimeCostCalculator_init None) 10 2 1 3 5 7)
    as (H1 & H2 & H3).
  split; [apply H1; discriminate|].
  split; [apply H2; discriminate | apply H3; discriminate].
Defined.

(** ** optimizer.py: the build *)

(** The first iteration that raises decides the exception of the loop. *)
Lemma for_each_raises_first {A St} (f : nat -> A -> St -> result St)
    (P : nat -> St -> Prop) (l : list A) :
  forall i0 s0 k x e,
    P i0 s0 ->
    l !! k = Some x ->
    (forall k' y s, k' < k -> l !! k' = Some y -> P (i0 + k') s ->
       exists s1, f (i0 + k') y s = Ok s1 /\ P (S (i0 + k')) s1) ->
    (forall s, P (i0 + k) s -> f (i0 + k) x s = Raise e) ->
    for_each f i0 l s0 = Raise e.
Proof.
  induction l as [|y l IH]; intros i0 s0 k x e H0 Hk Hbefore Hat; [done|].
  simpl. destruct k as [|k]; simpl in Hk.
  - injection Hk as ->. rewrite Nat.add_0_r in Hat. by rewrite Hat.
  - destruct (Hbefore 0 y s0) as (s1 & Hs1 & HP1);
      [lia | done | by rewrite Nat.add_0_r |].
    rewrite Nat.add_0_r in Hs1, HP1. rewrite Hs1. simpl.
    apply (IH (S i0) s1 k x e); [done | done | |].
    + intros k' z s Hlt Hz HP.
      replace (S i0 + k') with (i0 + S k') in * by lia.
      apply Hbefore; [lia | done | done].
    + intros s HP. replace (S i0 + k) with (i0 + S k) in * by lia. by apply Hat.
Qed.

Section BuildErrors.
Variable strptime : string -> option Q.
Variable geodesic : Q * Q -> Q * Q -> result Q.
Variable globals : list string.

Local Abbreviation body := (cost_matrix_body strptime geodesic globals).
Local Abbreviation outcome := (pair_outcome strptime geodesic globals).
Local Abbreviation inv := (build_inv strptime geodesic globals).
Local Abbreviation calc0 := (TimeCostCalculator_init None).

Lemma inner_loop_returns trucks cargo k t st :
  trucks !! k = Some t ->
  (forall j c, cargo !! j = Some c -> returns (outcome calc0 t c)) ->
  inv calc0 trucks cargo k 0 st ->
  exists st', for_each (fun j c => body calc0 k t j c) 0 cargo st = Ok st' /\
              inv calc0 trucks cargo (S k) 0 st'.
Proof.
  intros Ht Hall Hinv.
  destruct (for_each_returns (fun j c => body calc0 k t j c)
              (fun kj s => inv calc0 trucks cargo k kj s) cargo 0 st)
    as (s1 & Hs1 & Hinv1); [done| |].
  - simpl. intros kj c s2 Hc Hs2.
    destruct (Hall kj c Hc) as [o Ho]. by eapply build_inv_step.
  - exists s1. split; [done|]. by apply build_inv_next_row.
Qed.

Lemma calculate_cost_matrix_first_error trucks cargo i j t c e :
  trucks !! i = Some t -> cargo !! j = Some c ->
  outcome calc0 t c = Raise e ->
  (forall i' j' t' c',
     i' < i \/ (i' = i /\ j' < j) ->
     trucks !! i' = Some t' -> cargo !! j' = Some c' ->
     returns (outcome calc0 t' c')) ->
  calculate_cost_matrix strptime geodesic globals trucks cargo = Raise e.
Proof.
  intros Ht Hc He Hbefore. unfold calculate_cost_matrix.
  apply (for_each_raises_first
           (fun i truck => for_each (fun j c => body calc0 i truck j c) 0 cargo)
           (fun k s => inv calc0 trucks cargo k 0 s) trucks 0 _ i t e);
    [apply build_inv_init | done | |].
  - simpl. intros k' t' s Hlt Ht' Hs.
    apply inner_loop_returns; [done | | done].
    intros j' c' Hc'. apply (Hbefore k' j'); [lia | done | done].
  - simpl. intros s Hs.
    apply (for_each_raises_first (fun j c => body calc0 i t j c)
             (fun kj s => inv calc0 trucks cargo i kj s) cargo 0 s j c e);
      [done | done | |].
    + simpl. intros j' c' s' Hlt Hc' Hs'.
      destruct (Hbefore i j' t c') as [o Ho]; [lia | done | done |].
      by eapply build_inv_step.
    + simpl. intros [cm ti] _. rewrite cost_matrix_body_outcome, He. done.
Qed.
End BuildErrors.

(** X5: the build raises the exception of the first pair, in row-major
    order, that raises: the pairs before it are visited without error and no
    pair after it is reached. *)
Theorem X5_build_raises_first_error (strptime : string -> option Q)
    (geodesic : Q * Q -> Q * Q -> result Q) (globals : list string)
    (trucks : list Truck) (cargo : list Cargo)
    (i j : nat) (t : Truck) (c : Cargo) (e : exn) :
  trucks !! i = Some t -> cargo !! j = Some c ->
  pair_outcome strptime geodesic globals (TimeCostCalculator_init None) t c
    = Raise e ->
  (forall i' j' t' c',
     i' < i \/ (i' = i /\ j' < j) ->
     trucks !! i' = Some t' -> cargo !! j' = Some c' ->
     returns (pair_outcome strptime geodesic globals
                (TimeCostCalculator_init None) t' c')) ->
  calculate_cost_matrix strptime geodesic globals trucks cargo = Raise e.
Proof. apply calculate_cost_matrix_first_error. Qed.

Lemma X5_build_raises_first_error_witness :
  calculate_cost_matrix iso_strptime grid_geodesic globals_with_datetime
    [truck_R1; truck_bad_timestamp; truck_R2] [cargo_A; cargo_B]
  = Raise ValueError.
Proof.
  apply (X5_build_raises_first_error iso_strptime grid_geodesic
           globals_with_datetime
           [truck_R1; truck_bad_timestamp; truck_R2] [cargo_A; cargo_B]
           1 0 truck_bad_timestamp cargo_A ValueError);
    [reflexivity | reflexivity | vm_compute; reflexivity |].
  intros i' j' t' c' Hlt Ht' Hc'.
  assert (i' = 0) as -> by lia.
  injection Ht' as <-.
  destruct j' as [|[|j']]; simpl in Hc'; [| |done];
    injection Hc' as <-; eexists; vm_compute; reflexivity.
Defined.

(** X6: the build returns exactly when every (truck, cargo) pair can be
    evaluated without an exception. *)
Theorem X6_build_returns_iff (strptime : string -> option Q)
    (geodesic : Q * Q -> Q * Q -> result Q) (globals : list string)
    (trucks : list Truck) (cargo : list Cargo) :
  returns (calculate_cost_matrix strptime geodesic globals trucks cargo) <->
  (forall i j t c, trucks !! i = Some t -> cargo !! j = Some c ->
     returns (pair_outcome strptime geodesic globals
                (TimeCostCalculator_init None) t c)).
Proof.
  split.
  - intros [[cm ti] Hrun] i j t c Ht Hc.
    apply calculate_cost_matrix_cells in Hrun as (_ & _ & _ & Hcells).
    destruct (Hcells i j t c Ht Hc) as (o & Ho & _). by exists o.
  - apply calculate_cost_matrix_returns.
Qed.

Lemma X6_build_returns_iff_witness :
  returns (calculate_cost_matrix iso_strptime grid_geodesic globals_with_datetime
             [truck_R1] [cargo_A; cargo_closed]).
Proof.
  apply (X6_build_returns_iff iso_strptime grid_geodesic globals_with_datetime
           [truck_R1] [cargo_A; cargo_closed]).
  intros i j t c Ht Hc.
  destruct i as [|i]; simpl in Ht; [|done]. injection Ht as <-.
  destruct j as [|[|j]]; simpl in Hc; [| |done];
    injection Hc as <-; eexists; vm_compute; reflexivity.
Defined.

(** X7: in the state a build returns, every cell that holds a finite cost
    has its key in [time_info], and a cell of the matrix without a key holds
    [np.inf]; for every key the cell holds the entry's total cost, and the
    key lies inside the matrix. *)
Theorem X7_finite_cells_have_entries (strptime : string -> option Q)
    (geodesic : Q * Q -> Q * Q -> result Q) (globals : list string)
    (trucks : list Truck) (cargo : list Cargo)
    (cm : ndarray) (ti : gmap (nat * nat) CostEntry) :
  calculate_cost_matrix strptime geodesic globals trucks cargo = Ok (cm, ti) ->
  forall i j,
    (forall q, getitem cm i j = Ok (Finite q) -> is_Some (ti !! (i, j))) /\
    (i < length trucks -> j < length cargo -> ti !! (i, j) = None ->
     getitem cm i j = Ok np_inf) /\
    (forall e, ti !! (i, j) = Some e ->
       getitem cm i j = Ok (Finite (total_cost e)) /\
       i < length trucks /\ j < length cargo).
Proof.
  intros Hrun i j.
  destruct (calculate_cost_matrix_cells _ _ _ _ _ _ _ Hrun)
    as (Hws & Hsh & Hdom & Hcells).
  assert (i < length trucks -> j < length cargo ->
          exists o, recorded o cm ti i j) as Hrec.
  { intros Hi Hj.
    destruct (lookup_lt_is_Some_2 trucks i Hi) as [t Ht].
    destruct (lookup_lt_is_Some_2 cargo j Hj) as [c Hc].
    destruct (Hcells i j t c Ht Hc) as (o & _ & Ho). by exists o. }
  split; [|split].
  - intros q Hq.
    destruct (getitem_Ok_lt cm i j _ Hws Hq) as [Hi Hj].
    unfold nrows, ncols in *. rewrite Hsh in Hi, Hj. simpl in *.
    destruct (Hrec Hi Hj) as [[e|] [Hcell Hti]]; simpl in *.
    + by eexists.
    + rewrite Hcell in Hq. discriminate.
  - intros Hi Hj Hnone.
    destruct (Hrec Hi Hj) as [[e|] [Hcell Hti]]; simpl in *; [congruence|done].
  - intros e He. destruct (Hdom i j) as [Hi Hj]; [by eexists|].
    destruct (Hrec Hi Hj) as [[e'|] [Hcell Hti]]; simpl in *; [|congruence].
    assert (e' = e) as -> by congruence. done.
Qed.

Lemma X7_finite_cells_have_entries_witness :
  exists cm ti,
    calculate_cost_matrix iso_strptime grid_geodesic globals_with_datetime
      [truck_R1] [cargo_A; cargo_closed] = Ok (cm, ti) /\
    is_Some (ti !! (0, 0)) /\ getitem cm 0 1 = Ok np_inf.
Proof.
  destruct (calculate_cost_matrix iso_strptime grid_geodesic globals_with_datetime
              [truck_R1] [cargo_A; cargo_closed]) as [[cm ti]|e] eqn:Hrun;
    [|by vm_compute in Hrun].
  exists cm, ti. split; [reflexivity|].
  destruct (X7_finite_cells_have_entries _ _ _ _ _ _ _ Hrun 0 0) as (H00 & _).
  destruct (X7_finite_cells_have_entries _ _ _ _ _ _ _ Hrun 0 1) as (_ & H01 & _).
  assert (exists q, getitem cm 0 0 = Ok (Finite q)) as [q Hq].
  { vm_compute in Hrun. injection Hrun as <- _. by eexists. }
  split; [by apply (H00 q)|].
  apply H01; [simpl; lia | simpl; lia |].
  vm_compute in Hrun. by injection Hrun as _ <-.
Defined.

Lemma calculate_waiting_time_Ok_inv strptime calc p from w :
  calculate_waiting_time strptime calc p from = Ok w ->
  exists f, timestamp_value strptime from = Some f /\
            w = if Qltb p f then (f - p)%Q else 0%Q.
Proof.
  unfold calculate_waiting_time. intros H.
  apply bind_Ok_inv in H as (f & Hf & H). exists f. split.
  - destruct from as [s|t|]; simpl in *.
    + unfold datetime_strptime in Hf. by destruct (strptime s) as [r|]; [injection Hf as ->|].
    + by injection Hf as ->.
    + done.
  - by destruct (Qltb p f); injection H as <-.
Qed.

(** X8: every entry of [time_info] is consistent with its two records: its
    distance is the geodesic distance, its pickup time plus the travel time
    at 73 km/h is the truck's release time and lies within the cargo's
    window end, its waiting time is non-negative and reaches the window
    start, and its costs are distance * price, waiting * waiting price and
    their sum. *)
Theorem X8_cost_entry_is_consistent (strptime : string -> option Q)
    (geodesic : Q * Q -> Q * Q -> result Q) (globals : list string)
    (trucks : list Truck) (cargo : list Cargo)
    (cm : ndarray) (ti : gmap (nat * nat) CostEntry)
    (i j : nat) (e : CostEntry) :
  calculate_cost_matrix strptime geodesic globals trucks cargo = Ok (cm, ti) ->
  ti !! (i, j) = Some e ->
  exists t c release start stop,
    trucks !! i = Some t /\ cargo !! j = Some c /\
    geodesic (Latitude_dropoff t, Longitude_dropoff t)
             (Delivery_Latitude c, Delivery_Longitude c) = Ok (distance e) /\
    timestamp_value strptime (Timestamp_dropoff t) = Some release /\
    (pickup_time e + distance e / 73 == release)%Q /\
    timestamp_value strptime (Available_From c) = Some start /\
    (0 <= waiting_hours e)%Q /\
    (start <= pickup_time e + waiting_hours e)%Q /\
    available_to strptime c = Ok stop /\
    (pickup_time e <= stop)%Q /\
    distance_cost e = (distance e * price_per_km t)%Q /\
    waiting_cost e = (waiting_hours e * waiting_price_per_h t)%Q /\
    total_cost e = (distance_cost e + waiting_cost e)%Q.
Proof.
  intros Hrun He.
  destruct (calculate_cost_matrix_cells _ _ _ _ _ _ _ Hrun)
    as (_ & _ & Hdom & Hcells).
  destruct (Hdom i j) as [Hi Hj]; [by eexists|].
  destruct (lookup_lt_is_Some_2 trucks i Hi) as [t Ht].
  destruct (lookup_lt_is_Some_2 cargo j Hj) as [c Hc].
  destruct (Hcells i j t c Ht Hc) as (o & Ho & Hrec).
  apply pair_outcome_Ok_inv in Ho as (d & p & w & a & Hd & Hp & Hw & Ha & ->).
  destruct (Qle_bool p a) eqn:Hle; simpl in Hrec; destruct Hrec as [_ Hti];
    [|congruence].
  rewrite He in Hti. injection Hti as ->. simpl.
  apply calculate_pickup_time_Ok_inv in Hp as (r & Hr & _ & ->).
  destruct (calculate_waiting_time_Ok_inv _ _ _ _ _ Hw) as (f & Hf & Hwf).
  pose proof (calculate_waiting_time_nonneg _ _ _ _ _ Hw) as Hw0.
  exists t, c, r, f, a. simpl.
  do 3 (split; [done|]). split; [done|]. split; [ring|].
  split; [done|]. split; [done|]. split.
  { rewrite Hwf. set (pk := (r - d / _)%Q).
    destruct (Qltb pk f) eqn:E; [lra|].
    assert (f <= pk)%Q; [|lra].
    apply Qnot_lt_le. intros Hlt. apply Qltb_lt in Hlt. congruence. }
  split; [done|]. split; [by apply Qle_bool_iff|]. done.
Qed.

Lemma X8_cost_entry_is_consistent_witness :
  exists cm ti e,
    calculate_cost_matrix iso_strptime grid_geodesic globals_with_datetime
      [truck_R1] [cargo_A] = Ok (cm, ti) /\
    ti !! (0, 0) = Some e /\
    total_cost e = (distance_cost e + waiting_cost e)%Q /\
    (0 <= waiting_hours e)%Q.
Proof.
  destruct (calculate_cost_matrix iso_strptime grid_geodesic globals_with_datetime
              [truck_R1] [cargo_A]) as [[cm ti]|e] eqn:Hrun;
    [|by vm_compute in Hrun].
  destruct (ti !! (0, 0)) as [e|] eqn:He.
  - destruct (X8_cost_entry_is_consistent _ _ _ _ _ _ _ 0 0 e Hrun He)
      as (t & c & r & f & a & _ & _ & _ & _ & _ & _ & Hw & _ & _ & _ & _ & _ & Htot).
    exists cm, ti, e. by repeat split.
  - exfalso. vm_compute in Hrun. injection Hrun as <- <-. discriminate.
Defined.

(** X9: when the distance provider gives non-negative distances and the
    prices of every truck are non-negative, no cell of a returned matrix is
    negative. *)
Theorem X9_cells_are_nonnegative (strptime : string -> option Q)
    (geodesic : Q * Q -> Q * Q -> result Q) (globals : list string)
    (trucks : list Truck) (cargo : list Cargo)
    (cm : ndarray) (ti : gmap (nat * nat) CostEntry) :
  (forall p q d, geodesic p q = Ok d -> (0 <= d)%Q) ->
  (forall t, t ∈ trucks ->
     (0 <= price_per_km t)%Q /\ (0 <= waiting_price_per_h t)%Q) ->
  calculate_cost_matrix strptime geodesic globals trucks cargo = Ok (cm, ti) ->
  forall i j q, getitem cm i j = Ok (Finite q) -> (0 <= q)%Q.
Proof.
  intros Hgeo Hprices Hrun i j q Hq.
  destruct (calculate_cost_matrix_cells _ _ _ _ _ _ _ Hrun)
    as (Hws & Hsh & _ & _).
  destruct (getitem_Ok_lt cm i j _ Hws Hq) as [Hi Hj].
  unfold nrows, ncols in *. rewrite Hsh in Hi, Hj. simpl in *.
  destruct (lookup_lt_is_Some_2 trucks i Hi) as [t Ht].
  destruct (lookup_lt_is_Some_2 cargo j Hj) as [c Hc].
  destruct (calculate_cost_matrix_cell _ _ _ _ _ _ _ _ _ _ _ Hrun Ht Hc)
    as (d & p & w & a & Hd & _ & Hw & _ & Hcell).
  destruct (Qle_bool p a).
  - destruct Hcell as [Hcell _]. rewrite Hcell in Hq. injection Hq as <-.
    apply Hgeo in Hd. apply calculate_waiting_time_nonneg in Hw.
    destruct (Hprices t) as [Hp Hwp]; [by eapply list_elem_of_lookup_2|].
    pose proof (Qmult_le_0_compat _ _ Hd Hp).
    pose proof (Qmult_le_0_compat _ _ Hw Hwp). lra.
  - destruct Hcell as [Hcell _]. rewrite Hcell in Hq. discriminate.
Qed.

Lemma grid_geodesic_nonneg p q d : grid_geodesic p q = Ok d -> (0 <= d)%Q.
Proof.
  unfold grid_geodesic. destruct (_ && _); [|done]. intros H.
  assert (d = 111 * (Qabs (fst p - fst q) + Qabs (snd p - snd q)))%Q as ->
    by congruence.
  pose proof (Qabs_nonneg (fst p - fst q)) as Hx.
  pose proof (Qabs_nonneg (snd p - snd q)) as Hy.
  revert Hx Hy. generalize (Qabs (fst p - fst q)) (Qabs (snd p - snd q)).
  intros x y Hx Hy. apply Qmult_le_0_compat; [discriminate | lra].
Qed.

Lemma X9_cells_are_nonnegative_witness :
  exists cm ti q,
    calculate_cost_matrix iso_strptime grid_geodesic globals_with_datetime
      [truck_R1; truck_R2] [cargo_A] = Ok (cm, ti) /\
    getitem cm 1 0 = Ok (Finite q) /\ (0 <= q)%Q.
Proof.
  destruct (calculate_cost_matrix iso_strptime grid_geodesic globals_with_datetime
              [truck_R1; truck_R2] [cargo_A]) as [[cm ti]|e] eqn:Hrun;
    [|by vm_compute in Hrun].
  destruct (getitem cm 1 0) as [[q|]|e] eqn:Hq.
  - exists cm, ti, q. split; [reflexivity|]. split; [exact Hq|].
    apply (X9_cells_are_nonnegative iso_strptime grid_geodesic
             globals_with_datetime [truck_R1; truck_R2] [cargo_A] cm ti
             grid_geodesic_nonneg) with (i := 1) (j := 0); [|exact Hrun|exact Hq].
    intros t Ht. apply list_elem_of_In in Ht.
    destruct Ht as [<-|[<-|[]]]; split; discriminate.
  - exfalso. vm_compute in Hrun. injection Hrun as <- <-. discriminate.
  - exfalso. vm_compute in Hrun. injection Hrun as <- <-. discriminate.
Defined.

(** ** optimizer.py: solving *)

Lemma below_NoDup_Permutation (l : list nat) k :
  NoDup l -> Forall (fun x => x < k) l -> length l = k -> l ≡ₚ seq 0 k.
Proof.
  intros Hnd Hlt Hlen. apply submseteq_length_Permutation.
  - apply NoDup_submseteq; [done|]. intros x Hx. apply elem_of_seq.
    rewrite Forall_forall in Hlt. specialize (Hlt x Hx). lia.
  - rewrite length_seq. lia.
Qed.

Lemma StronglySorted_lt_NoDup (l : list nat) : StronglySorted lt l -> NoDup l.
Proof.
  induction 1 as [|x l _ IH Hall]; constructor; [|done].
  intros Hx. rewrite Forall_forall in Hall. specialize (Hall x Hx). lia.
Qed.

Lemma below_sorted_is_seq (l : list nat) k :
  StronglySorted lt l -> Forall (fun x => x < k) l -> length l = k -> l = seq 0 k.
Proof.
  intros Hs Hlt Hlen.
  apply (StronglySorted_unique_strong lt); [|done|apply StronglySorted_lt_seq|].
  - intros x1 x2 _ _ H1 H2. lia.
  - apply below_NoDup_Permutation; [by apply StronglySorted_lt_NoDup|done|done].
Qed.

Lemma matching_rows_below a (pairs : list (nat * nat)) :
  matching a pairs -> Forall (fun x => x < nrows a) pairs.*1.
Proof.
  intros (_ & _ & Hr). apply Forall_fmap. eapply Forall_impl; [exact Hr|].
  by intros p [? _].
Qed.

Lemma matching_cols_below a (pairs : list (nat * nat)) :
  matching a pairs -> Forall (fun x => x < ncols a) pairs.*2.
Proof.
  intros (_ & _ & Hr). apply Forall_fmap. eapply Forall_impl; [exact Hr|].
  by intros p [_ ?].
Qed.

Lemma assignment_cost_inf_member a (pairs : list (nat * nat)) p :
  p ∈ pairs -> cell_cost a p = Infinity -> assignment_cost a pairs = Infinity.
Proof.
  induction pairs as [|p' l IH]; intros Hp Hinf; [by apply elem_of_nil in Hp|].
  simpl. apply elem_of_cons in Hp as [<-|Hp].
  - by rewrite Hinf.
  - rewrite (IH Hp Hinf). by destruct (cell_cost a p').
Qed.

(** A column without a finite cell, in an array with at least as many rows
    as columns, is in every complete assignment; likewise a row. *)
Lemma blocked_column_infeasible a j :
  ncols a <= nrows a -> j < ncols a ->
  (forall i, i < nrows a -> getitem a i j = Ok Infinity) ->
  forall pairs, full_matching a pairs -> assignment_cost a pairs = Infinity.
Proof.
  intros Hle Hj Hcol pairs [Hm Hlen].
  assert (j ∈ pairs.*2) as Hin.
  { rewrite (below_NoDup_Permutation pairs.*2 (ncols a)).
    - apply elem_of_seq. lia.
    - by destruct Hm as (_ & ? & _).
    - by apply matching_cols_below.
    - rewrite length_fmap. lia. }
  apply list_elem_of_fmap in Hin as ([i j'] & Heq & Hp). simpl in Heq. subst j'.
  apply (assignment_cost_inf_member a pairs (i, j) Hp).
  destruct Hm as (_ & _ & Hr). rewrite Forall_forall in Hr.
  destruct (Hr _ Hp) as [Hi _]. simpl in Hi.
  unfold cell_cost. simpl. by rewrite Hcol.
Qed.

Lemma blocked_row_infeasible a i :
  nrows a <= ncols a -> i < nrows a ->
  (forall j, j < ncols a -> getitem a i j = Ok Infinity) ->
  forall pairs, full_matching a pairs -> assignment_cost a pairs = Infinity.
Proof.
  intros Hle Hi Hrow pairs [Hm Hlen].
  assert (i ∈ pairs.*1) as Hin.
  { rewrite (below_NoDup_Permutation pairs.*1 (nrows a)).
    - apply elem_of_seq. lia.
    - by destruct Hm as (? & _ & _).
    - by apply matching_rows_below.
    - rewrite length_fmap. lia. }
  apply list_elem_of_fmap in Hin as ([i' j] & Heq & Hp). simpl in Heq. subst i'.
  apply (assignment_cost_inf_member a pairs (i, j) Hp).
  destruct Hm as (_ & _ & Hr). rewrite Forall_forall in Hr.
  destruct (Hr _ Hp) as [_ Hj]. simpl in Hj.
  unfold cell_cost. simpl. by rewrite Hrow.
Qed.

(** X10: what [solve] returns is never a partial cover: the comprehension of
    lines 67-70 drops nothing, so there are exactly min(rows, cols) pairs,
    with rows in increasing order and finite cells. With at most as many
    rows as columns every row is assigned, and with at most as many columns
    as rows every column is. *)
Theorem X10_solve_covers_smaller_side
    (lsa : ndarray -> result (list nat * list nat))
    (a : ndarray) (pairs : list (nat * nat)) :
  lsa_contract lsa -> well_shaped a ->
  solve lsa a = Ok pairs ->
  (exists rs cs, lsa a = Ok (rs, cs) /\ pairs = zip rs cs) /\
  length pairs = Nat.min (nrows a) (ncols a) /\
  StronglySorted lt pairs.*1 /\
  Forall (fun p => exists q, getitem a (fst p) (snd p) = Ok (Finite q)) pairs /\
  (nrows a <= ncols a -> pairs.*1 = seq 0 (nrows a)) /\
  (ncols a <= nrows a -> pairs.*2 ≡ₚ seq 0 (ncols a)).
Proof.
  intros Hlsa Hws Hsolve.
  destruct (solve_Ok_inv lsa Hlsa a pairs Hws Hsolve)
    as (rs & cs & Hrun & Hzip & Hsorted & Hlen & [Hm Hfull] & Hfin).
  assert (pairs.*1 = rs) as H1.
  { rewrite Hzip. apply fst_zip. lia. }
  split; [by exists rs, cs|]. split; [done|].
  split; [by rewrite H1|].
  split; [by apply assignment_cost_finite_cells|]. split.
  - intros Hle. rewrite <- H1 in Hsorted.
    apply below_sorted_is_seq; [done | by apply matching_rows_below |].
    rewrite length_fmap. lia.
  - intros Hle. apply below_NoDup_Permutation.
    + by destruct Hm as (_ & ? & _).
    + by apply matching_cols_below.
    + rewrite length_fmap. lia.
Qed.

Lemma X10_solve_covers_smaller_side_witness :
  length [(0, 1); (1, 0); (2, 2)] = Nat.min (nrows matrix_3x3) (ncols matrix_3x3) /\
  [(0, 1); (1, 0); (2, 2)].*1 = seq 0 (nrows matrix_3x3).
Proof.
  destruct (X10_solve_covers_smaller_side exhaustive_lsa matrix_3x3
              [(0, 1); (1, 0); (2, 2)])
    as (_ & Hlen & _ & _ & Hrows & _).
  - apply exhaustive_lsa_contract.
  - split; [reflexivity|]. by repeat constructor.
  - vm_compute. reflexivity.
  - split; [exact Hlen|]. apply Hrows. unfold nrows, ncols. simpl. lia.
Defined.

(** X11: [solve] returns exactly when some complete assignment avoids every
    [np.inf] cell; otherwise it raises ValueError, and nothing else. *)
Theorem X11_solve_returns_iff_feasible
    (lsa : ndarray -> result (list nat * list nat)) (a : ndarray) :
  lsa_contract lsa -> well_shaped a ->
  (returns (solve lsa a) <->
   exists pairs, full_matching a pairs /\
                 is_finite (assignment_cost a pairs) = true) /\
  (returns (solve lsa a) \/ solve lsa a = Raise ValueError).
Proof.
  intros Hlsa Hws. split; [split|].
  - intros [pairs Hsolve].
    destruct (solve_Ok_inv lsa Hlsa a pairs Hws Hsolve)
      as (_ & _ & _ & _ & _ & _ & Hfull & Hfin).
    by exists pairs.
  - intros (pairs & Hfull & Hfin). by eapply solve_returns.
  - unfold solve. destruct (lsa a) as [[rs cs]|e] eqn:Hrun.
    + left. simpl.
      rewrite valid_pairs_all_finite; [by eexists|].
      apply assignment_cost_finite_cells.
      apply (lsa_result_finite lsa Hlsa a rs cs Hws Hrun).
    + right. simpl.
      assert (forall pairs, full_matching a pairs ->
                assignment_cost a pairs = Infinity) as Hinf.
      { intros pairs Hfull.
        destruct (assignment_cost a pairs) as [q|] eqn:Hc; [|done].
        destruct (lsa_feasible _ Hlsa a pairs Hws Hfull) as [r Hr];
          [by rewrite Hc | congruence]. }
      rewrite (lsa_infeasible _ Hlsa a Hws Hinf) in Hrun. congruence.
Qed.

Lemma X11_solve_returns_iff_feasible_witness :
  returns (solve exhaustive_lsa matrix_3x3).
Proof.
  destruct (X11_solve_returns_iff_feasible exhaustive_lsa matrix_3x3) as [H _].
  - apply exhaustive_lsa_contract.
  - split; [reflexivity|]. by repeat constructor.
  - apply H. exists [(0, 0); (1, 1); (2, 2)]. split; [|reflexivity].
    split; [|reflexivity].
    split; [by apply (bool_decide_unpack _)|].
    split; [by apply (bool_decide_unpack _)|].
    repeat constructor; unfold nrows, ncols; simpl; lia.
Defined.

(** ** optimizer.py: the whole run *)

Section Engine.
Variable strptime : string -> option Q.
Variable geodesic : Q * Q -> Q * Q -> result Q.
Variable lsa : ndarray -> result (list nat * list nat).
Variable globals : list string.
Hypothesis contract : lsa_contract lsa.

Local Abbreviation build := (calculate_cost_matrix strptime geodesic globals).
Local Abbreviation run := (optimize_assignments strptime geodesic lsa globals).

Lemma optimize_assignments_Ok_inv trucks cargo pairs ti :
  run trucks cargo = Ok (pairs, ti) ->
  exists cm, build trucks cargo = Ok (cm, ti) /\ solve lsa cm = Ok pairs.
Proof.
  unfold optimize_assignments. intros Hrun.
  apply bind_Ok_inv in Hrun as ([cm ti'] & Hbuild & Hrun).
  apply bind_Ok_inv in Hrun as (pairs' & Hsolve & Hrun).
  injection Hrun as -> ->. by exists cm.
Qed.

(** A cell outside its window holds [np.inf]. *)
Lemma late_pair_is_infinite trucks cargo cm ti i j t c :
  build trucks cargo = Ok (cm, ti) ->
  trucks !! i = Some t -> cargo !! j = Some c ->
  (forall p a, projected_pickup_time strptime geodesic t c = Ok p ->
               available_to strptime c = Ok a -> (a < p)%Q) ->
  getitem cm i j = Ok Infinity.
Proof.
  intros Hbuild Ht Hc Hlate.
  destruct (calculate_cost_matrix_cell _ _ _ _ _ _ _ _ _ _ _ Hbuild Ht Hc)
    as (d & p & w & a & _ & Hp & _ & Ha & Hcell).
  destruct (Qle_bool p a) eqn:Hle.
  - apply Qle_bool_iff in Hle. specialize (Hlate p a Hp Ha). lra.
  - by destruct Hcell.
Qed.

Lemma unreachable_cargo_raises trucks cargo cm ti j c :
  build trucks cargo = Ok (cm, ti) ->
  length cargo <= length trucks ->
  cargo !! j = Some c ->
  (forall t p a, t ∈ trucks ->
     projected_pickup_time strptime geodesic t c = Ok p ->
     available_to strptime c = Ok a -> (a < p)%Q) ->
  run trucks cargo = Raise ValueError.
Proof.
  intros Hbuild Hle Hc Hlate. unfold optimize_assignments. rewrite Hbuild. simpl.
  destruct (calculate_cost_matrix_cells _ _ _ _ _ _ _ Hbuild) as (Hws & Hsh & _ & _).
  rewrite (solve_infeasible lsa contract cm Hws); [done|].
  apply (blocked_column_infeasible cm j); unfold nrows, ncols; rewrite Hsh; simpl;
    [done | by eapply lookup_lt_Some |].
  intros i Hi. destruct (lookup_lt_is_Some_2 trucks i Hi) as [t Ht].
  eapply late_pair_is_infinite; [done | done | done |].
  intros p a. apply Hlate. by eapply list_elem_of_lookup_2.
Qed.

Lemma unusable_truck_raises trucks cargo cm ti i t :
  build trucks cargo = Ok (cm, ti) ->
  length trucks <= length cargo ->
  trucks !! i = Some t ->
  (forall c p a, c ∈ cargo ->
     projected_pickup_time strptime geodesic t c = Ok p ->
     available_to strptime c = Ok a -> (a < p)%Q) ->
  run trucks cargo = Raise ValueError.
Proof.
  intros Hbuild Hle Ht Hlate. unfold optimize_assignments. rewrite Hbuild. simpl.
  destruct (calculate_cost_matrix_cells _ _ _ _ _ _ _ Hbuild) as (Hws & Hsh & _ & _).
  rewrite (solve_infeasible lsa contract cm Hws); [done|].
  apply (blocked_row_infeasible cm i); unfold nrows, ncols; rewrite Hsh; simpl;
    [done | by eapply lookup_lt_Some |].
  intros j Hj. destruct (lookup_lt_is_Some_2 cargo j Hj) as [c Hc].
  eapply late_pair_is_infinite; [done | done | done |].
  intros p a. apply Hlate. by eapply list_elem_of_lookup_2.
Qed.

(** The cost of pairs that all have an entry is the sum of the entries. *)
Lemma assignment_cost_total trucks cargo cm ti (pairs : list (nat * nat)) :
  build trucks cargo = Ok (cm, ti) ->
  Forall (fun p => is_Some (ti !! p)) pairs ->
  assignment_cost cm pairs = Finite (assignment_total ti pairs).
Proof.
  intros Hbuild. destruct (calculate_cost_matrix_cells _ _ _ _ _ _ _ Hbuild)
    as (_ & _ & Hdom & Hcells).
  induction 1 as [|[i j] l [e He] _ IH]; simpl; [done|].
  rewrite IH, He. unfold cell_cost. simpl.
  destruct (Hdom i j) as [Hi Hj]; [by eexists|].
  destruct (lookup_lt_is_Some_2 trucks i Hi) as [t Ht].
  destruct (lookup_lt_is_Some_2 cargo j Hj) as [c Hc].
  destruct (Hcells i j t c Ht Hc) as (o & _ & Hrec).
  destruct o as [e'|]; simpl in Hrec; destruct Hrec as [Hcell Hti]; [|congruence].
  rewrite Hcell. by assert (e' = e) as -> by congruence.
Qed.

Lemma returned_pairs_have_entries trucks cargo cm ti (pairs : list (nat * nat)) :
  build trucks cargo = Ok (cm, ti) ->
  Forall (fun p => exists q, getitem cm (fst p) (snd p) = Ok (Finite q)) pairs ->
  Forall (fun p => is_Some (ti !! p)) pairs.
Proof.
  intros Hbuild. destruct (calculate_cost_matrix_cells _ _ _ _ _ _ _ Hbuild)
    as (Hws & Hsh & _ & Hcells).
  intros Hfin. eapply Forall_impl; [exact Hfin|].
  intros [i j] [q Hq]. simpl in Hq.
  destruct (getitem_Ok_lt cm i j _ Hws Hq) as [Hi Hj].
  unfold nrows, ncols in *. rewrite Hsh in Hi, Hj. simpl in *.
  destruct (lookup_lt_is_Some_2 trucks i Hi) as [t Ht].
  destruct (lookup_lt_is_Some_2 cargo j Hj) as [c Hc].
  destruct (Hcells i j t c Ht Hc) as (o & _ & Hrec).
  destruct o as [e'|]; simpl in Hrec; destruct Hrec as [Hcell Hti]; [by eexists|].
  rewrite Hcell in Hq. discriminate.
Qed.

Lemma optimize_assignments_total_minimal trucks cargo pairs ti other :
  run trucks cargo = Ok (pairs, ti) ->
  NoDup other.*1 -> NoDup other.*2 ->
  Forall (fun p => is_Some (ti !! p)) other ->
  length other = length pairs ->
  Forall (fun p => is_Some (ti !! p)) pairs /\
  (assignment_total ti pairs <= assignment_total ti other)%Q.
Proof.
  intros Hrun Hnd1 Hnd2 Hentries Hlen.
  apply optimize_assignments_Ok_inv in Hrun as (cm & Hbuild & Hsolve).
  destruct (calculate_cost_matrix_cells _ _ _ _ _ _ _ Hbuild)
    as (Hws & Hsh & Hdom & _).
  destruct (solve_Ok_inv lsa contract cm pairs Hws Hsolve)
    as (rs & cs & Hlsa & -> & _ & _ & [_ Hfull] & Hfin).
  assert (Forall (fun p => is_Some (ti !! p)) (zip rs cs)) as Hmine.
  { eapply returned_pairs_have_entries; [done|].
    by apply assignment_cost_finite_cells. }
  split; [done|].
  assert (full_matching cm other) as Hother.
  { split; [|congruence]. split; [done|]. split; [done|].
    eapply Forall_impl; [exact Hentries|]. intros [i j] Hij.
    unfold nrows, ncols. rewrite Hsh. simpl. by apply Hdom. }
  pose proof (lsa_optimal _ contract cm rs cs other Hws Hlsa Hother) as Hle.
  rewrite (assignment_cost_total _ _ _ _ _ Hbuild Hmine) in Hle.
  rewrite (assignment_cost_total _ _ _ _ _ Hbuild Hentries) in Hle.
  exact Hle.
Qed.
End Engine.

(** X12: a run does not leave out what cannot be served. If the build
    returns, every truck would reach some cargo only after its window has
    closed, and there are at most as many cargos as trucks, then
    [optimize_assignments] raises ValueError; likewise for a truck that is
    late for every cargo when there are at most as many trucks as cargos. *)
Theorem X12_unservable_record_fails_run (strptime : string -> option Q)
    (geodesic : Q * Q -> Q * Q -> result Q)
    (lsa : ndarray -> result (list nat * list nat)) (globals : list string)
    (trucks : list Truck) (cargo : list Cargo) :
  lsa_contract lsa ->
  returns (calculate_cost_matrix strptime geodesic globals trucks cargo) ->
  (forall c, c ∈ cargo -> length cargo <= length trucks ->
     (forall t p a, t ∈ trucks ->
        projected_pickup_time strptime geodesic t c = Ok p ->
        available_to strptime c = Ok a -> (a < p)%Q) ->
     optimize_assignments strptime geodesic lsa globals trucks cargo
       = Raise ValueError) /\
  (forall t, t ∈ trucks -> length trucks <= length cargo ->
     (forall c p a, c ∈ cargo ->
        projected_pickup_time strptime geodesic t c = Ok p ->
        available_to strptime c = Ok a -> (a < p)%Q) ->
     optimize_assignments strptime geodesic lsa globals trucks cargo
       = Raise ValueError).
Proof.
  intros Hlsa [[cm ti] Hbuild]. split.
  - intros c Hc Hle Hlate. apply list_elem_of_lookup_1 in Hc as [j Hj].
    by eapply unreachable_cargo_raises.
  - intros t Ht Hle Hlate. apply list_elem_of_lookup_1 in Ht as [i Hi].
    by eapply unusable_truck_raises.
Qed.

Lemma X12_unservable_record_fails_run_witness :
  optimize_assignments iso_strptime grid_geodesic exhaustive_lsa
    globals_with_datetime [truck_R1; truck_R2] [cargo_A; cargo_closed]
  = Raise ValueError.
Proof.
  destruct (X12_unservable_record_fails_run iso_strptime grid_geodesic
              exhaustive_lsa globals_with_datetime
              [truck_R1; truck_R2] [cargo_A; cargo_closed]) as [H _].
  - apply exhaustive_lsa_contract.
  - destruct (calculate_cost_matrix iso_strptime grid_geodesic
                globals_with_datetime [truck_R1; truck_R2] [cargo_A; cargo_closed])
      as [st|e] eqn:Hrun; [by exists st | by vm_compute in Hrun].
  - apply (H cargo_closed).
    + apply list_elem_of_In. right. by left.
    + simpl. lia.
    + intros t p a Ht Hp Ha. apply list_elem_of_In in Ht.
      destruct Ht as [<-|[<-|[]]];
        vm_compute in Hp; injection Hp as <-;
        vm_compute in Ha; injection Ha as <-; reflexivity.
Defined.

(** X13: every pair a run returns has its entry in the returned
    [time_info], and the sum of the [total_cost] of the returned pairs is at
    most that of any other one-to-one choice of as many recorded pairs. *)
Theorem X13_run_minimises_recorded_total (strptime : string -> option Q)
    (geodesic : Q * Q -> Q * Q -> result Q)
    (lsa : ndarray -> result (list nat * list nat)) (globals : list string)
    (trucks : list Truck) (cargo : list Cargo)
    (pairs other : list (nat * nat)) (ti : gmap (nat * nat) CostEntry) :
  lsa_contract lsa ->
  optimize_assignments strptime geodesic lsa globals trucks cargo
    = Ok (pairs, ti) ->
  NoDup other.*1 -> NoDup other.*2 ->
  Forall (fun p => is_Some (ti !! p)) other ->
  length other = length pairs ->
  Forall (fun p => is_Some (ti !! p)) pairs /\
  (assignment_total ti pairs <= assignment_total ti other)%Q.
Proof. intros Hlsa. by apply optimize_assignments_total_minimal. Qed.

Lemma X13_run_minimises_recorded_total_witness :
  exists pairs ti,
    optimize_assignments iso_strptime grid_geodesic exhaustive_lsa
      globals_with_datetime [truck_R1; truck_R2] [cargo_A; cargo_B]
      = Ok (pairs, ti) /\
    (assignment_total ti pairs
     <= assignment_total ti [(0, 1); (1, 0)]%nat)%Q.
Proof.
  destruct (optimize_assignments iso_strptime grid_geodesic exhaustive_lsa
              globals_with_datetime [truck_R1; truck_R2] [cargo_A; cargo_B])
    as [[pairs ti]|e] eqn:Hrun; [|by vm_compute in Hrun].
  exists pairs, ti. split; [reflexivity|].
  apply (X13_run_minimises_recorded_total iso_strptime grid_geodesic
           exhaustive_lsa globals_with_datetime [truck_R1; truck_R2]
           [cargo_A; cargo_B] pairs [(0, 1); (1, 0)] ti
           exhaustive_lsa_contract Hrun).
  - by apply (bool_decide_unpack _).
  - by apply (bool_decide_unpack _).
  - vm_compute in Hrun. injection Hrun as <- <-.
    repeat constructor; by eexists.
  - vm_compute in Hrun. by injection Hrun as <- _.
Defined.

(** ** optimizer.py as it is written *)

Lemma calculate_pickup_time_default_returns strptime ts r d :
  timestamp_value strptime ts = Some r ->
  returns (calculate_pickup_time strptime (TimeCostCalculator_init None) ts d).
Proof.
  intros Hr. unfold calculate_pickup_time, calculate_travel_time. simpl.
  destruct ts as [s|t|]; simpl in *.
  - unfold datetime_strptime. rewrite Hr. by eexists.
  - by eexists.
  - done.
Qed.

Lemma calculate_waiting_time_returns strptime calc p from f :
  timestamp_value strptime from = Some f ->
  returns (calculate_waiting_time strptime calc p from).
Proof.
  intros Hf. unfold calculate_waiting_time.
  destruct from as [s|t|]; simpl in *.
  - unfold datetime_strptime. rewrite Hf. simpl. destruct (Qltb p f); by eexists.
  - destruct (Qltb p t); by eexists.
  - done.
Qed.

Lemma pair_outcome_NameError strptime geodesic globals t c d r f :
  "datetime"%string ∉ globals ->
  geodesic (Latitude_dropoff t, Longitude_dropoff t)
           (Delivery_Latitude c, Delivery_Longitude c) = Ok d ->
  timestamp_value strptime (Timestamp_dropoff t) = Some r ->
  timestamp_value strptime (Available_From c) = Some f ->
  pair_outcome strptime geodesic globals (TimeCostCalculator_init None) t c
    = Raise NameError.
Proof.
  intros Hg Hd Hr Hf. unfold pair_outcome. rewrite Hd. simpl.
  destruct (calculate_pickup_time_default_returns strptime _ r d Hr) as [p ->].
  simpl.
  destruct (calculate_waiting_time_returns strptime (TimeCostCalculator_init None) p
              (Available_From c) f Hf) as [w ->].
  simpl. unfold load_global. by rewrite bool_decide_eq_false_2.
Qed.

(** X17: optimizer.py as it is written serves empty input only. Its
    [optimize_assignments] returns exactly when there is no truck or no
    cargo; on any other input it raises, and the exception is NameError as
    soon as the first truck and the first cargo have a distance, a usable
    dropoff timestamp and a usable availability start. *)
Theorem X17_as_written_only_empty_input_returns (strptime : string -> option Q)
    (geodesic : Q * Q -> Q * Q -> result Q)
    (lsa : ndarray -> result (list nat * list nat))
    (trucks : list Truck) (cargo : list Cargo) :
  lsa_contract lsa ->
  (returns (optimize_assignments strptime geodesic lsa optimizer_globals
              trucks cargo) <-> trucks = [] \/ cargo = []) /\
  (forall t c,
     trucks !! 0 = Some t -> cargo !! 0 = Some c ->
     returns (geodesic (Latitude_dropoff t, Longitude_dropoff t)
                       (Delivery_Latitude c, Delivery_Longitude c)) ->
     is_Some (timestamp_value strptime (Timestamp_dropoff t)) ->
     is_Some (timestamp_value strptime (Available_From c)) ->
     optimize_assignments strptime geodesic lsa optimizer_globals trucks cargo
       = Raise NameError).
Proof.
  intros Hlsa. split; [split|].
  - intros [[pairs ti] Hrun].
    destruct trucks as [|t trucks]; [by left|].
    destruct cargo as [|c cargo]; [by right|]. exfalso.
    unfold optimize_assignments in Hrun.
    apply bind_Ok_inv in Hrun as ([cm ti'] & Hbuild & _).
    destruct (calculate_cost_matrix_raises strptime geodesic optimizer_globals
                (t :: trucks) (c :: cargo) 0 0 t c eq_refl eq_refl) as [e He].
    { apply pair_outcome_unbound, datetime_unbound. }
    congruence.
  - intros Hempty. unfold optimize_assignments.
    rewrite (calculate_cost_matrix_empty _ _ _ _ _ Hempty). simpl.
    rewrite (solve_no_cells lsa Hlsa); [by eexists | apply well_shaped_np_full |].
    unfold nrows, ncols. simpl. destruct Hempty as [->| ->]; [by left | by right].
  - intros t c Ht Hc [d Hd] [r Hr] [f Hf]. unfold optimize_assignments.
    rewrite (calculate_cost_matrix_first_error strptime geodesic optimizer_globals
               trucks cargo 0 0 t c NameError Ht Hc); [done | |].
    + by eapply pair_outcome_NameError; [apply datetime_unbound|..].
    + intros i' j' t' c' Hlt. lia.
Qed.

Lemma X17_as_written_only_empty_input_returns_witness :
  returns (optimize_assignments iso_strptime grid_geodesic exhaustive_lsa
             optimizer_globals [] [cargo_A]) /\
  optimize_assignments iso_strptime grid_geodesic exhaustive_lsa
    optimizer_globals [truck_R1; truck_R2] [cargo_A; cargo_B] = Raise NameError.
Proof.
  destruct (X17_as_written_only_empty_input_returns iso_strptime grid_geodesic
              exhaustive_lsa [] [cargo_A] exhaustive_lsa_contract) as [[_ H1] _].
  destruct (X17_as_written_only_empty_input_returns iso_strptime grid_geodesic
              exhaustive_lsa [truck_R1; truck_R2] [cargo_A; cargo_B]
              exhaustive_lsa_contract) as [_ H2].
  split; [apply H1; by left|].
  apply (H2 truck_R1 cargo_A); [reflexivity | reflexivity | | |];
    eexists; vm_compute; reflexivity.
Defined.

(** ** Two runs on the same input *)










Lemma In_reverse {A} (x : A) (l : list A) : In x (reverse l) <-> In x l.
Proof. by rewrite <- !list_elem_of_In, elem_of_reverse. Qed.

Lemma exhaustive_lsa_rev_Ok_inv a rs cs :
  exhaustive_lsa_rev a = Ok (rs, cs) ->
  exists P, In P (candidates a) /\
            (forall Q, In Q (candidates a) ->
                       cost_le (assignment_cost a P) (assignment_cost a Q)) /\
            is_finite (assignment_cost a P) = true /\
            rs = P.*1 /\ cs = P.*2.
Proof.
  unfold exhaustive_lsa_rev.
  destruct (argmin (assignment_cost a) (reverse (candidates a))) as [P|] eqn:Hmin;
    [|done].
  destruct (is_finite (assignment_cost a P)) eqn:Hfin; [|done].
  intros [= <- <-]. apply argmin_Some in Hmin as [Hin Hle].
  exists P. split; [by apply In_reverse|]. split; [|done].
  intros Q HQ. apply Hle. by apply In_reverse.
Qed.

Lemma exhaustive_lsa_rev_contract : lsa_contract exhaustive_lsa_rev.
Proof.
  split.
  - intros a rs cs _ H.
    apply exhaustive_lsa_rev_Ok_inv in H as (P & HP & _ & _ & -> & ->).
    rewrite !length_fmap, zip_fst_snd. split; [done|].
    by destruct (candidate_full_matching a P HP).
  - intros a rs cs _ H.
    apply exhaustive_lsa_rev_Ok_inv in H as (P & HP & _ & _ & -> & _).
    by destruct (candidate_full_matching a P HP).
  - intros a rs cs pairs _ H Hfull.
    apply exhaustive_lsa_rev_Ok_inv in H as (P & HP & Hmin & _ & -> & ->).
    rewrite zip_fst_snd.
    destruct (full_matching_candidate a pairs Hfull) as (Q & HQ & Hperm).
    apply (cost_le_trans _ (assignment_cost a Q));
      [by apply Hmin | by apply assignment_cost_perm_le].
  - intros a pairs _ Hfull Hfin.
    destruct (full_matching_candidate a pairs Hfull) as (Q & HQ & Hperm).
    unfold exhaustive_lsa_rev.
    destruct (argmin (assignment_cost a) (reverse (candidates a))) as [P|] eqn:Hmin.
    + apply argmin_Some in Hmin as [Hin Hle].
      assert (is_finite (assignment_cost a P) = true) as ->; [|by eexists].
      eapply cost_le_finite; [|exact Hfin].
      apply (cost_le_trans _ (assignment_cost a Q));
        [apply Hle; by apply In_reverse | by apply assignment_cost_perm_le].
    + apply argmin_None in Hmin. apply (proj2 (In_reverse _ _)) in HQ.
      rewrite Hmin in HQ. done.
  - intros a _ Hinf. unfold exhaustive_lsa_rev.
    destruct (argmin (assignment_cost a) (reverse (candidates a))) as [P|] eqn:Hmin;
      [|done].
    apply argmin_Some in Hmin as [Hin _]. apply (proj1 (In_reverse _ _)) in Hin.
    apply candidate_full_matching in Hin as [Hfull _].
    by rewrite (Hinf P Hfull).
Qed.

(** The contract does not fix the pairs when assignments tie: both solvers
    meet it and they differ on a matrix of equal cells. *)
Lemma contract_leaves_ties_open :
  lsa_contract exhaustive_lsa /\ lsa_contract exhaustive_lsa_rev /\
  solve exhaustive_lsa matrix_tie = Ok [(0, 0); (1, 1)] /\
  solve exhaustive_lsa_rev matrix_tie = Ok [(0, 1); (1, 0)].
Proof.
  split; [apply exhaustive_lsa_contract|].
  split; [apply exhaustive_lsa_rev_contract|].
  split; vm_compute; reflexivity.
Qed.


(** ** streamlit_app.py *)

Section Distances.
Variable geodesic : Q * Q -> Q * Q -> result Q.

Local Abbreviation dist t c :=
  (geodesic (StreamlitApp.Latitude t, StreamlitApp.Longitude t)
            (StreamlitApp.Latitude c, StreamlitApp.Longitude c)).
Local Abbreviation dbody i t :=
  (fun (j : nat) (c : StreamlitApp.Place) (distances : ndarray) =>
     d ← dist t c; setitem distances i j (Finite d)).
Local Abbreviation dinv := (distances_inv geodesic).

Lemma distances_inv_init trucks cargo :
  dinv trucks cargo 0 0 (StreamlitApp.np_zeros (length trucks, length cargo)).
Proof.
  split; [apply well_shaped_np_full|]. split; [done|].
  intros i j t c Ht Hc. rewrite decide_False by lia.
  apply getitem_np_full; by eapply lookup_lt_Some.
Qed.

Lemma distances_inv_next_row trucks cargo k dm :
  dinv trucks cargo k (length cargo) dm -> dinv trucks cargo (S k) 0 dm.
Proof.
  intros (Hws & Hsh & Hcells). split; [done|]. split; [done|].
  intros i j t c Ht Hc. specialize (Hcells i j t c Ht Hc).
  assert (j < length cargo) by (by eapply lookup_lt_Some).
  destruct (decide (i < k \/ i = k /\ j < length cargo)).
  - by rewrite decide_True by lia.
  - by rewrite decide_False by lia.
Qed.

Lemma distances_inv_step trucks cargo k kj t c dm d :
  dinv trucks cargo k kj dm ->
  trucks !! k = Some t -> cargo !! kj = Some c ->
  dist t c = Ok d ->
  exists dm', dbody k t kj c dm = Ok dm' /\ dinv trucks cargo k (S kj) dm'.
Proof.
  intros (Hws & Hsh & Hcells) Ht Hc Hd. simpl. rewrite Hd. simpl.
  assert (k < length trucks) as Hk by (by eapply lookup_lt_Some).
  assert (kj < length cargo) as Hkj by (by eapply lookup_lt_Some).
  destruct (setitem_returns dm k kj (Finite d)) as [dm' Hset];
    [done | unfold nrows; by rewrite Hsh | unfold ncols; by rewrite Hsh |].
  exists dm'. split; [done|].
  apply setitem_Ok_inv in Hset as (Hsh' & Hget & Hother & Hws').
  split; [by apply Hws'|]. split; [congruence|].
  intros i j t' c' Ht' Hc'. specialize (Hcells i j t' c' Ht' Hc').
  destruct (decide ((i, j) = (k, kj))) as [[= -> ->]|Hne].
  - rewrite decide_True by lia. exists d.
    assert (t' = t) as -> by congruence. assert (c' = c) as -> by congruence.
    done.
  - assert (i <> k \/ j <> kj) by (destruct (decide (i = k)); [right|left]; congruence).
    rewrite Hother by done.
    destruct (decide (i < k \/ i = k /\ j < kj)).
    + by rewrite decide_True by lia.
    + by rewrite decide_False by lia.
Qed.

Lemma distances_body_Ok_inv i t j c dm dm' :
  dbody i t j c dm = Ok dm' -> returns (dist t c).
Proof.
  simpl. intros H. apply bind_Ok_inv in H as (d & Hd & _). by exists d.
Qed.

Lemma calculate_distances_inv trucks cargo dm :
  StreamlitApp.calculate_distances geodesic trucks cargo = Ok dm ->
  dinv trucks cargo (length trucks) 0 dm.
Proof.
  unfold StreamlitApp.calculate_distances. intros Hrun.
  apply (for_each_invariant
           (fun i t => for_each (dbody i t) 0 cargo)
           (fun k s => dinv trucks cargo k 0 s) trucks 0
           (StreamlitApp.np_zeros (length trucks, length cargo)) dm);
    [apply distances_inv_init | | done].
  simpl. intros k t s s1 Ht Hs Hstep. apply distances_inv_next_row.
  apply (for_each_invariant (dbody k t)
           (fun kj s => dinv trucks cargo k kj s) cargo 0 s s1); [done | | done].
  simpl. intros kj c s2 s3 Hc Hs2 Hstep2.
  destruct (distances_body_Ok_inv _ _ _ _ _ _ Hstep2) as [d Hd].
  destruct (distances_inv_step _ _ _ _ _ _ _ _ Hs2 Ht Hc Hd) as (s4 & Hs4 & Hinv4).
  simpl in Hs4. congruence.
Qed.

Lemma calculate_distances_cells trucks cargo dm :
  StreamlitApp.calculate_distances geodesic trucks cargo = Ok dm ->
  well_shaped dm /\ shape dm = (length trucks, length cargo) /\
  forall i j t c, trucks !! i = Some t -> cargo !! j = Some c ->
    exists d, dist t c = Ok d /\ getitem dm i j = Ok (Finite d).
Proof.
  intros Hrun. apply calculate_distances_inv in Hrun as (Hws & Hsh & Hcells).
  split; [done|]. split; [done|].
  intros i j t c Ht Hc. specialize (Hcells i j t c Ht Hc).
  assert (i < length trucks) by (by eapply lookup_lt_Some).
  by rewrite decide_True in Hcells by lia.
Qed.

Lemma calculate_distances_returns trucks cargo :
  (forall t c, t ∈ trucks -> c ∈ cargo -> returns (dist t c)) ->
  returns (StreamlitApp.calculate_distances geodesic trucks cargo).
Proof.
  intros Hall. unfold StreamlitApp.calculate_distances.
  destruct (for_each_returns
              (fun i t => for_each (dbody i t) 0 cargo)
              (fun k s => dinv trucks cargo k 0 s) trucks 0
              (StreamlitApp.np_zeros (length trucks, length cargo)))
    as (st & Hst & _); [apply distances_inv_init | | by exists st].
  simpl. intros k t s Ht Hs.
  destruct (for_each_returns (dbody k t)
              (fun kj s => dinv trucks cargo k kj s) cargo 0 s)
    as (s1 & Hs1 & Hinv1); [done | |].
  - simpl. intros kj c s2 Hc Hs2.
    destruct (Hall t c) as [d Hd]; [by eapply list_elem_of_lookup_2.. |].
    by eapply distances_inv_step.
  - exists s1. split; [done|]. by apply distances_inv_next_row.
Qed.

Lemma calculate_distances_first_error trucks cargo i j t c e :
  trucks !! i = Some t -> cargo !! j = Some c ->
  dist t c = Raise e ->
  (forall i' j' t' c',
     i' < i \/ (i' = i /\ j' < j) ->
     trucks !! i' = Some t' -> cargo !! j' = Some c' -> returns (dist t' c')) ->
  StreamlitApp.calculate_distances geodesic trucks cargo = Raise e.
Proof.
  intros Ht Hc He Hbefore. unfold StreamlitApp.calculate_distances.
  apply (for_each_raises_first
           (fun i t => for_each (dbody i t) 0 cargo)
           (fun k s => dinv trucks cargo k 0 s) trucks 0 _ i t e);
    [apply distances_inv_init | done | |].
  - simpl. intros k' t' s Hlt Ht' Hs.
    destruct (for_each_returns (dbody k' t')
                (fun kj s => dinv trucks cargo k' kj s) cargo 0 s)
      as (s1 & Hs1 & Hinv1); [done | |].
    + simpl. intros kj c' s2 Hc' Hs2.
      destruct (Hbefore k' kj t' c') as [d Hd]; [lia | done | done |].
      by eapply distances_inv_step.
    + exists s1. split; [done|]. by apply distances_inv_next_row.
  - simpl. intros s Hs.
    apply (for_each_raises_first (dbody i t)
             (fun kj s => dinv trucks cargo i kj s) cargo 0 s j c e);
      [done | done | |].
    + simpl. intros j' c' s' Hlt Hc' Hs'.
      destruct (Hbefore i j' t c') as [d Hd]; [lia | done | done |].
      by eapply distances_inv_step.
    + simpl. intros s' _. by rewrite He.
Qed.
End Distances.

(** X14: [calculate_distances] returns exactly when the distance provider
    returns for every (truck, cargo) pair; the array it returns has
    len(trucks) rows and len(cargo) columns, and cell (i, j) is the distance
    between truck i and cargo j. No cell keeps the initial zero unless its
    distance is zero, and the function never fails on an index. *)
Theorem X14_distance_matrix (geodesic : Q * Q -> Q * Q -> result Q)
    (trucks cargo : list StreamlitApp.Place) :
  (returns (StreamlitApp.calculate_distances geodesic trucks cargo) <->
   forall t c, t ∈ trucks -> c ∈ cargo ->
     returns (geodesic (StreamlitApp.Latitude t, StreamlitApp.Longitude t)
                       (StreamlitApp.Latitude c, StreamlitApp.Longitude c))) /\
  (forall dm,
     StreamlitApp.calculate_distances geodesic trucks cargo = Ok dm ->
     well_shaped dm /\ shape dm = (length trucks, length cargo) /\
     forall i j t c, trucks !! i = Some t -> cargo !! j = Some c ->
       exists d,
         geodesic (StreamlitApp.Latitude t, StreamlitApp.Longitude t)
                  (StreamlitApp.Latitude c, StreamlitApp.Longitude c) = Ok d /\
         getitem dm i j = Ok (Finite d)).
Proof.
  split; [split|].
  - intros [dm Hrun] t c Ht Hc.
    apply list_elem_of_lookup_1 in Ht as [i Hi].
    apply list_elem_of_lookup_1 in Hc as [j Hj].
    destruct (calculate_distances_cells _ _ _ _ Hrun) as (_ & _ & Hcells).
    destruct (Hcells i j t c Hi Hj) as (d & Hd & _). by exists d.
  - apply calculate_distances_returns.
  - apply calculate_distances_cells.
Qed.

Lemma X14_distance_matrix_witness :
  exists dm,
    StreamlitApp.calculate_distances grid_geodesic
      [place_origin; place_far] [place_near_origin] = Ok dm /\
    shape dm = (2, 1) /\
    exists d, grid_geodesic (10, 10)%Q (1 # 10, 1 # 10)%Q = Ok d /\
              getitem dm 1 0 = Ok (Finite d).
Proof.
  destruct (X14_distance_matrix grid_geodesic
              [place_origin; place_far] [place_near_origin]) as [[_ Hret] Hcells].
  destruct Hret as [dm Hdm].
  - intros t c Ht Hc. apply list_elem_of_In in Ht, Hc.
    destruct Ht as [<-|[<-|[]]]; destruct Hc as [<-|[]];
      eexists; vm_compute; reflexivity.
  - exists dm. split; [exact Hdm|].
    destruct (Hcells dm Hdm) as (_ & Hsh & Hc). split; [exact Hsh|].
    apply (Hc 1 0 place_far place_near_origin); reflexivity.
Defined.

(** *** The square matrix *)

Lemma square_cost_matrix_well_shaped distances n m :
  well_shaped (StreamlitApp.square_cost_matrix distances n m) /\
  shape (StreamlitApp.square_cost_matrix distances n m)
    = (Nat.max n m, Nat.max n m).
Proof.
  split; [|done]. split.
  - unfold nrows. simpl. by rewrite length_imap, length_replicate.
  - unfold ncols. simpl. apply Forall_forall. intros row Hrow.
    apply list_elem_of_lookup_1 in Hrow as [i Hi].
    rewrite list_lookup_imap in Hi.
    destruct (replicate _ _ !! i) as [r|] eqn:Hr; [|done].
    apply lookup_replicate in Hr as [-> _]. simpl in Hi.
    destruct (data distances !! i); injection Hi as <-.
    + by rewrite length_imap, length_replicate.
    + by rewrite length_replicate.
Qed.

Lemma square_cost_matrix_block distances n m i j c :
  i < n -> j < m -> getitem distances i j = Ok c ->
  getitem (StreamlitApp.square_cost_matrix distances n m) i j = Ok c.
Proof.
  intros Hi Hj Hget. unfold getitem in *.
  unfold StreamlitApp.square_cost_matrix, StreamlitApp.set_block. simpl.
  rewrite list_lookup_imap, lookup_replicate_2 by lia. simpl.
  destruct (data distances !! i) as [brow|]; [|done].
  rewrite list_lookup_imap, lookup_replicate_2 by lia. simpl.
  destruct (brow !! j) as [v|]; [|done]. simpl. done.
Qed.

(** Every cell of the square matrix over a distance matrix is finite. *)
Lemma square_cost_matrix_finite geodesic trucks cargo dm i j :
  StreamlitApp.calculate_distances geodesic trucks cargo = Ok dm ->
  i < Nat.max (length trucks) (length cargo) ->
  j < Nat.max (length trucks) (length cargo) ->
  exists q,
    getitem (StreamlitApp.square_cost_matrix dm (length trucks) (length cargo)) i j
      = Ok (Finite q).
Proof.
  intros Hrun Hi Hj.
  destruct (calculate_distances_cells _ _ _ _ Hrun) as ([Hlen Hrows] & Hsh & Hcells).
  unfold nrows, ncols in *. rewrite Hsh in *. simpl in *.
  destruct (decide (i < length trucks /\ j < length cargo)) as [[Hi' Hj']|Hpad].
  - destruct (lookup_lt_is_Some_2 trucks i Hi') as [t Ht].
    destruct (lookup_lt_is_Some_2 cargo j Hj') as [c Hc].
    destruct (Hcells i j t c Ht Hc) as (d & _ & Hd).
    exists d. by apply square_cost_matrix_block.
  - eexists. apply square_cost_matrix_padding; [done | done | done | done | lia].
Qed.

(** *** Counting the pairs that are kept *)

Lemma length_filter_below n k :
  length (filter (fun x => x < n) (seq 0 k)) = Nat.min n k.
Proof.
  induction k as [|k IH]; [by rewrite Nat.min_0_r|].
  rewrite seq_S, filter_app, length_app, IH. simpl.
  rewrite filter_cons, filter_nil. destruct (decide (k < n)); simpl; lia.
Qed.

Lemma filter_rows_only n m (l : list (nat * nat)) :
  Forall (fun p => snd p < m) l ->
  filter (fun rc => fst rc < n /\ snd rc < m) l = filter (fun rc => fst rc < n) l.
Proof.
  induction 1 as [|p l Hp _ IH]; [done|].
  rewrite !filter_cons, IH.
  destruct (decide (fst p < n /\ snd p < m)), (decide (fst p < n)); try done; lia.
Qed.

Lemma filter_cols_only n m (l : list (nat * nat)) :
  Forall (fun p => fst p < n) l ->
  filter (fun rc => fst rc < n /\ snd rc < m) l = filter (fun rc => snd rc < m) l.
Proof.
  induction 1 as [|p l Hp _ IH]; [done|].
  rewrite !filter_cons, IH.
  destruct (decide (fst p < n /\ snd p < m)), (decide (snd p < m)); try done; lia.
Qed.

Lemma filter_fst_below n (l : list (nat * nat)) :
  (filter (fun rc => fst rc < n) l).*1 = filter (fun x => x < n) l.*1.
Proof.
  induction l as [|p l IH]; [done|].
  rewrite fmap_cons, !filter_cons.
  destruct (decide (fst p < n)); [rewrite fmap_cons|]; by rewrite IH.
Qed.

Lemma filter_snd_below m (l : list (nat * nat)) :
  (filter (fun rc => snd rc < m) l).*2 = filter (fun x => x < m) l.*2.
Proof.
  induction l as [|p l IH]; [done|].
  rewrite fmap_cons, !filter_cons.
  destruct (decide (snd p < m)); [rewrite fmap_cons|]; by rewrite IH.
Qed.

(** In a complete assignment of a square array of side max(n, m), exactly
    min(n, m) pairs lie in the first n rows and first m columns. *)
Lemma square_assignment_kept_count a n m (pairs : list (nat * nat)) :
  shape a = (Nat.max n m, Nat.max n m) ->
  full_matching a pairs ->
  length (filter (fun rc => fst rc < n /\ snd rc < m) pairs) = Nat.min n m.
Proof.
  intros Hsh [Hm Hlen].
  pose proof (matching_rows_below a pairs Hm) as Hr.
  pose proof (matching_cols_below a pairs Hm) as Hc.
  destruct Hm as (Hnd1 & Hnd2 & _).
  unfold nrows, ncols in *. rewrite Hsh in *. simpl in *.
  rewrite Nat.min_id in Hlen.
  destruct (decide (n <= m)) as [Hnm|Hnm].
  - rewrite Nat.max_r in * by done.
    rewrite filter_rows_only by (by apply Forall_fmap in Hc).
    assert (length (filter (fun rc : nat * nat => fst rc < n) pairs)
            = length (filter (fun x => x < n) pairs.*1)) as ->
      by (rewrite <- filter_fst_below; by rewrite length_fmap).
    rewrite (below_NoDup_Permutation pairs.*1 m) by (by rewrite ?length_fmap).
    rewrite length_filter_below. lia.
  - rewrite Nat.max_l in * by lia.
    rewrite filter_cols_only by (by apply Forall_fmap in Hr).
    assert (length (filter (fun rc : nat * nat => snd rc < m) pairs)
            = length (filter (fun x => x < m) pairs.*2)) as ->
      by (rewrite <- filter_snd_below; by rewrite length_fmap).
    rewrite (below_NoDup_Permutation pairs.*2 n) by (by rewrite ?length_fmap).
    rewrite length_filter_below. lia.
Qed.

Lemma diagonal_full_matching a k :
  shape a = (k, k) -> full_matching a (diagonal k).
Proof.
  intros Hsh. unfold diagonal.
  assert (length (seq 0 k) <= length (seq 0 k)) as Hle by done.
  split; [split; [|split]|].
  - rewrite fst_zip by done. apply NoDup_seq.
  - rewrite snd_zip by done. apply NoDup_seq.
  - apply Forall_forall. intros [i j] Hp. unfold nrows, ncols. rewrite Hsh. simpl.
    pose proof (elem_of_zip_l _ _ _ _ Hp) as Hi.
    pose proof (elem_of_zip_r _ _ _ _ Hp) as Hj.
    apply elem_of_seq in Hi, Hj. lia.
  - unfold nrows, ncols. rewrite Hsh. simpl.
    rewrite length_zip, length_seq. lia.
Qed.

Section StreamlitRun.
Variable geodesic : Q * Q -> Q * Q -> result Q.
Variable lsa : ndarray -> result (list nat * list nat).
Hypothesis contract : lsa_contract lsa.

Local Abbreviation distances := (StreamlitApp.calculate_distances geodesic).
Local Abbreviation run := (StreamlitApp.optimize_assignments geodesic lsa).

Lemma square_solver_returns trucks cargo dm :
  distances trucks cargo = Ok dm ->
  returns (lsa (StreamlitApp.square_cost_matrix dm (length trucks) (length cargo))).
Proof.
  intros Hdm.
  destruct (square_cost_matrix_well_shaped dm (length trucks) (length cargo))
    as [Hws Hsh].
  pose proof (diagonal_full_matching _ _ Hsh) as Hdiag.
  apply (lsa_feasible _ contract _ _ Hws Hdiag).
  apply assignment_cost_all_finite. apply Forall_forall. intros [i j] Hp.
  destruct Hdiag as [(_ & _ & Hr) _]. rewrite Forall_forall in Hr.
  destruct (Hr _ Hp) as [Hi Hj]. unfold nrows, ncols in *. rewrite Hsh in *.
  simpl in *. by eapply square_cost_matrix_finite.
Qed.

Lemma streamlit_run_Ok_inv trucks cargo pairs :
  run trucks cargo = Ok pairs ->
  exists dm rs cs,
    distances trucks cargo = Ok dm /\
    lsa (StreamlitApp.square_cost_matrix dm (length trucks) (length cargo))
      = Ok (rs, cs) /\
    pairs = filter (fun rc => fst rc < length trucks /\ snd rc < length cargo)
                   (zip rs cs).
Proof.
  unfold StreamlitApp.optimize_assignments. intros H.
  apply bind_Ok_inv in H as (dm & Hdm & H).
  apply bind_Ok_inv in H as ([rs cs] & Hlsa & H).
  injection H as <-. by exists dm, rs, cs.
Qed.

Lemma streamlit_run_returns trucks cargo :
  returns (distances trucks cargo) -> returns (run trucks cargo).
Proof.
  intros [dm Hdm]. unfold StreamlitApp.optimize_assignments. rewrite Hdm. simpl.
  destruct (square_solver_returns _ _ _ Hdm) as [[rs cs] Hlsa].
  rewrite Hlsa. simpl. by eexists.
Qed.

Lemma streamlit_run_matching trucks cargo pairs :
  run trucks cargo = Ok pairs ->
  NoDup pairs.*1 /\ NoDup pairs.*2 /\
  Forall (fun p => fst p < length trucks /\ snd p < length cargo) pairs /\
  length pairs = Nat.min (length trucks) (length cargo).
Proof.
  intros Hrun.
  apply streamlit_run_Ok_inv in Hrun as (dm & rs & cs & Hdm & Hlsa & ->).
  destruct (square_cost_matrix_well_shaped dm (length trucks) (length cargo))
    as [Hws Hsh].
  destruct (lsa_full _ contract _ rs cs Hws Hlsa) as [Hlen Hfull].
  pose proof Hfull as [(Hnd1 & Hnd2 & _) _].
  split; [|split; [|split]].
  - eapply sublist_NoDup; [exact Hnd1|]. apply fmap_sublist, sublist_filter.
  - eapply sublist_NoDup; [exact Hnd2|]. apply fmap_sublist, sublist_filter.
  - apply Forall_forall. intros p Hp. by apply list_elem_of_filter in Hp as [? _].
  - by eapply square_assignment_kept_count.
Qed.
End StreamlitRun.

(** X15: streamlit_app.py's [optimize_assignments] returns whenever the
    distances can be computed (the solver cannot fail on the padded matrix),
    and what it returns is a one-to-one assignment of existing trucks to
    existing cargos with exactly min(len(trucks), len(cargo)) pairs: nobody
    is left out that could be served. *)
Theorem X15_padded_assignment_is_complete (geodesic : Q * Q -> Q * Q -> result Q)
    (lsa : ndarray -> result (list nat * list nat))
    (trucks cargo : list StreamlitApp.Place) :
  lsa_contract lsa ->
  (returns (StreamlitApp.optimize_assignments geodesic lsa trucks cargo) <->
   returns (StreamlitApp.calculate_distances geodesic trucks cargo)) /\
  (forall pairs,
     StreamlitApp.optimize_assignments geodesic lsa trucks cargo = Ok pairs ->
     NoDup pairs.*1 /\ NoDup pairs.*2 /\
     Forall (fun p => fst p < length trucks /\ snd p < length cargo) pairs /\
     length pairs = Nat.min (length trucks) (length cargo)).
Proof.
  intros Hlsa. split; [split|].
  - intros [pairs Hrun].
    apply streamlit_run_Ok_inv in Hrun as (dm & _ & _ & Hdm & _). by exists dm.
  - by apply streamlit_run_returns.
  - intros pairs. by apply streamlit_run_matching.
Qed.

Lemma X15_padded_assignment_is_complete_witness :
  exists pairs,
    StreamlitApp.optimize_assignments grid_geodesic exhaustive_lsa
      [place_origin; place_far; place_near_far] [place_near_origin] = Ok pairs /\
    length pairs = 1 /\ NoDup pairs.*1.
Proof.
  destruct (X15_padded_assignment_is_complete grid_geodesic exhaustive_lsa
              [place_origin; place_far; place_near_far] [place_near_origin]
              exhaustive_lsa_contract) as [_ H].
  destruct (StreamlitApp.optimize_assignments grid_geodesic exhaustive_lsa
              [place_origin; place_far; place_near_far] [place_near_origin])
    as [pairs|e] eqn:Hrun; [|by vm_compute in Hrun].
  destruct (H pairs eq_refl) as (Hnd & _ & _ & Hlen).
  exists pairs. by repeat split.
Defined.

(** *** The kept pairs are the best ones *)

Lemma cells_sum_app a (l1 l2 : list (nat * nat)) :
  (cells_sum a (l1 ++ l2) == cells_sum a l1 + cells_sum a l2)%Q.
Proof.
  induction l1 as [|p l1 IH]; simpl; [ring|]. rewrite IH. ring.
Qed.

Lemma cells_sum_perm a (l1 l2 : list (nat * nat)) :
  l1 ≡ₚ l2 -> (cells_sum a l1 == cells_sum a l2)%Q.
Proof.
  induction 1 as [|p l1 l2 _ IH|p1 p2 l|l1 l2 l3 _ IH1 _ IH2]; simpl.
  - reflexivity.
  - by rewrite IH.
  - ring.
  - by rewrite IH1.
Qed.

Lemma assignment_cost_cells_sum a (l : list (nat * nat)) :
  Forall (fun p => exists q, getitem a (fst p) (snd p) = Ok (Finite q)) l ->
  assignment_cost a l = Finite (cells_sum a l).
Proof.
  induction 1 as [|p l [q Hq] _ IH]; simpl; [done|].
  rewrite IH. unfold cell_cost. by rewrite Hq.
Qed.

Lemma cells_sum_const a (l : list (nat * nat)) v :
  Forall (fun p => getitem a (fst p) (snd p) = Ok (Finite v)) l ->
  (cells_sum a l == inject_Z (Z.of_nat (length l)) * v)%Q.
Proof.
  induction 1 as [|p l Hp _ IH].
  - simpl. ring.
  - cbn [cells_sum foldr length]. fold (cells_sum a l). rewrite IH.
    unfold cell_cost. rewrite Hp. rewrite Nat2Z.inj_succ. unfold Z.succ.
    rewrite inject_Z_plus. ring.
Qed.

Lemma cells_sum_agree a b (l : list (nat * nat)) :
  Forall (fun p => cell_cost a p = cell_cost b p) l ->
  cells_sum a l = cells_sum b l.
Proof.
  induction 1 as [|p l Hp _ IH]; simpl; [done|]. by rewrite Hp, IH.
Qed.

Lemma unused_length (l : list nat) k :
  NoDup l -> Forall (fun x => x < k) l -> length (unused l k) = k - length l.
Proof.
  intros Hnd Hlt. unfold unused.
  pose proof (filter_app_complement (fun x => x ∈ l) (seq 0 k)) as Hpart.
  apply Permutation_length in Hpart. rewrite length_app, length_seq in Hpart.
  assert (filter (fun x => x ∈ l) (seq 0 k) ≡ₚ l) as Hused.
  { apply NoDup_Permutation; [apply NoDup_filter, NoDup_seq | done |].
    intros x. rewrite list_elem_of_filter, elem_of_seq. split; [tauto|].
    intros Hx. split; [done|]. rewrite Forall_forall in Hlt.
    specialize (Hlt x Hx). lia. }
  apply Permutation_length in Hused. lia.
Qed.

Lemma unused_spec (l : list nat) k x : x ∈ unused l k <-> (x ∉ l) /\ x < k.
Proof.
  unfold unused. rewrite list_elem_of_filter, elem_of_seq. intuition lia.
Qed.

(** The completion of a matching inside the first n rows and m columns is a
    complete assignment of the square of side max(n, m); what it adds lies
    outside the block when the matching has min(n, m) pairs. *)
Lemma completion_full_matching a n m (other : list (nat * nat)) :
  shape a = (Nat.max n m, Nat.max n m) ->
  NoDup other.*1 -> NoDup other.*2 ->
  Forall (fun p => fst p < n /\ snd p < m) other ->
  full_matching a (completion other (Nat.max n m)).
Proof.
  intros Hsh Hnd1 Hnd2 Hrange. set (k := Nat.max n m) in *.
  assert (Forall (fun x => x < k) other.*1) as Hr.
  { apply Forall_fmap. eapply Forall_impl; [exact Hrange|]. intros p [? _]. simpl. lia. }
  assert (Forall (fun x => x < k) other.*2) as Hc.
  { apply Forall_fmap. eapply Forall_impl; [exact Hrange|]. intros p [_ ?]. simpl. lia. }
  pose proof (unused_length _ _ Hnd1 Hr) as Hlr.
  pose proof (unused_length _ _ Hnd2 Hc) as Hlc.
  rewrite length_fmap in Hlr, Hlc.
  assert (length other <= k) as Hlen.
  { assert (length other.*1 <= length (seq 0 k)) as H.
    { apply submseteq_length, NoDup_submseteq; [done|].
      intros x Hx. rewrite Forall_forall in Hr. apply elem_of_seq.
      specialize (Hr x Hx). lia. }
    by rewrite length_fmap, length_seq in H. }
  unfold completion. fold k.
  split; [split; [|split]|].
  - rewrite fmap_app, fst_zip by lia. apply NoDup_app. split; [done|]. split.
    + intros x Hx Hu. apply unused_spec in Hu. tauto.
    + apply NoDup_filter, NoDup_seq.
  - rewrite fmap_app, snd_zip by lia. apply NoDup_app. split; [done|]. split.
    + intros x Hx Hu. apply unused_spec in Hu. tauto.
    + apply NoDup_filter, NoDup_seq.
  - unfold nrows, ncols. rewrite Hsh. simpl. apply Forall_app. split.
    + eapply Forall_impl; [exact Hrange|]. intros p [? ?]. simpl. lia.
    + apply Forall_forall. intros [i j] Hp.
      pose proof (elem_of_zip_l _ _ _ _ Hp) as Hi.
      pose proof (elem_of_zip_r _ _ _ _ Hp) as Hj.
      apply unused_spec in Hi, Hj. simpl. lia.
  - unfold nrows, ncols. rewrite Hsh. simpl.
    rewrite length_app, length_zip, Hlr, Hlc. lia.
Qed.

Lemma completion_added_outside n m (other : list (nat * nat)) p :
  NoDup other.*1 -> NoDup other.*2 ->
  Forall (fun p => fst p < n /\ snd p < m) other ->
  length other = Nat.min n m ->
  p ∈ zip (unused other.*1 (Nat.max n m)) (unused other.*2 (Nat.max n m)) ->
  fst p < Nat.max n m /\ snd p < Nat.max n m /\ (n <= fst p \/ m <= snd p).
Proof.
  intros Hnd1 Hnd2 Hrange Hlen Hp. destruct p as [i j].
  pose proof (elem_of_zip_l _ _ _ _ Hp) as Hi.
  pose proof (elem_of_zip_r _ _ _ _ Hp) as Hj.
  apply unused_spec in Hi as [Hi Hik], Hj as [Hj Hjk]. simpl.
  split; [done|]. split; [done|].
  destruct (decide (n <= m)) as [Hnm|Hnm].
  - left. apply Nat.nlt_ge. intros Hlt. apply Hi.
    rewrite (below_NoDup_Permutation other.*1 n).
    + apply elem_of_seq. lia.
    + done.
    + apply Forall_fmap. eapply Forall_impl; [exact Hrange|]. by intros ? [? _].
    + rewrite length_fmap. lia.
  - right. apply Nat.nlt_ge. intros Hlt. apply Hj.
    rewrite (below_NoDup_Permutation other.*2 m).
    + apply elem_of_seq. lia.
    + done.
    + apply Forall_fmap. eapply Forall_impl; [exact Hrange|]. by intros ? [_ ?].
    + rewrite length_fmap. lia.
Qed.

Section StreamlitOptimal.
Variable geodesic : Q * Q -> Q * Q -> result Q.
Variable lsa : ndarray -> result (list nat * list nat).
Hypothesis contract : lsa_contract lsa.

Local Abbreviation distances := (StreamlitApp.calculate_distances geodesic).
Local Abbreviation run := (StreamlitApp.optimize_assignments geodesic lsa).

Lemma square_cell_inside trucks cargo dm i j :
  distances trucks cargo = Ok dm ->
  i < length trucks -> j < length cargo ->
  (exists q, getitem dm i j = Ok (Finite q)) /\
  cell_cost (StreamlitApp.square_cost_matrix dm (length trucks) (length cargo)) (i, j)
    = cell_cost dm (i, j).
Proof.
  intros Hdm Hi Hj.
  destruct (calculate_distances_cells _ _ _ _ Hdm) as (_ & _ & Hcells).
  destruct (lookup_lt_is_Some_2 trucks i Hi) as [t Ht].
  destruct (lookup_lt_is_Some_2 cargo j Hj) as [c Hc].
  destruct (Hcells i j t c Ht Hc) as (d & _ & Hd).
  split; [by exists d|]. unfold cell_cost. simpl.
  by rewrite (square_cost_matrix_block dm _ _ i j _ Hi Hj Hd), Hd.
Qed.

Lemma square_cell_outside trucks cargo dm i j :
  distances trucks cargo = Ok dm ->
  i < Nat.max (length trucks) (length cargo) ->
  j < Nat.max (length trucks) (length cargo) ->
  length trucks <= i \/ length cargo <= j ->
  getitem (StreamlitApp.square_cost_matrix dm (length trucks) (length cargo)) i j
    = Ok (Finite 1000000%Q).
Proof.
  intros Hdm Hi Hj Hpad.
  destruct (calculate_distances_cells _ _ _ _ Hdm) as ([Hlen Hrows] & Hsh & _).
  unfold nrows, ncols in *. rewrite Hsh in *. simpl in *.
  by apply square_cost_matrix_padding.
Qed.

Lemma cells_sum_inside trucks cargo dm (l : list (nat * nat)) :
  distances trucks cargo = Ok dm ->
  Forall (fun p => fst p < length trucks /\ snd p < length cargo) l ->
  cells_sum (StreamlitApp.square_cost_matrix dm (length trucks) (length cargo)) l
    = cells_sum dm l /\
  assignment_cost dm l = Finite (cells_sum dm l).
Proof.
  intros Hdm Hl. split.
  - apply cells_sum_agree. eapply Forall_impl; [exact Hl|].
    intros [i j] [Hi Hj]. by apply (square_cell_inside trucks cargo).
  - apply assignment_cost_cells_sum. eapply Forall_impl; [exact Hl|].
    intros [i j] [Hi Hj]. by apply (square_cell_inside trucks cargo).
Qed.

Lemma cells_sum_outside trucks cargo dm (l : list (nat * nat)) :
  distances trucks cargo = Ok dm ->
  Forall (fun p => fst p < Nat.max (length trucks) (length cargo) /\
                   snd p < Nat.max (length trucks) (length cargo) /\
                   (length trucks <= fst p \/ length cargo <= snd p)) l ->
  (cells_sum (StreamlitApp.square_cost_matrix dm (length trucks) (length cargo)) l
   == inject_Z (Z.of_nat (length l)) * 1000000)%Q.
Proof.
  intros Hdm Hl. apply cells_sum_const. eapply Forall_impl; [exact Hl|].
  intros [i j] (Hi & Hj & Hpad). by apply (square_cell_outside trucks cargo).
Qed.

Lemma streamlit_run_minimal trucks cargo pairs :
  run trucks cargo = Ok pairs ->
  exists dm,
    distances trucks cargo = Ok dm /\
    forall other,
      NoDup other.*1 -> NoDup other.*2 ->
      Forall (fun p => fst p < length trucks /\ snd p < length cargo) other ->
      length other = length pairs ->
      assignment_cost dm pairs = Finite (cells_sum dm pairs) /\
      assignment_cost dm other = Finite (cells_sum dm other) /\
      (cells_sum dm pairs <= cells_sum dm other)%Q.
Proof.
  intros Hrun.
  destruct (streamlit_run_matching geodesic lsa contract _ _ _ Hrun)
    as (_ & _ & Hmine & Hcount).
  apply streamlit_run_Ok_inv in Hrun as (dm & rs & cs & Hdm & Hlsa & Hpairs).
  exists dm. split; [done|].
  intros other Hnd1 Hnd2 Hrange Hlen.
  set (n := length trucks) in *. set (m := length cargo) in *.
  set (sq := StreamlitApp.square_cost_matrix dm n m) in *.
  destruct (square_cost_matrix_well_shaped dm n m) as [Hws Hsh]. fold sq in Hws, Hsh.
  destruct (lsa_full _ contract _ rs cs Hws Hlsa) as [_ Hfull].
  pose proof (completion_full_matching sq n m other Hsh Hnd1 Hnd2 Hrange) as Hcomp.
  pose proof (lsa_optimal _ contract sq rs cs _ Hws Hlsa Hcomp) as Hle.
  destruct (cells_sum_inside trucks cargo dm pairs Hdm Hmine) as [Hp1 Hp2].
  destruct (cells_sum_inside trucks cargo dm other Hdm Hrange) as [Ho1 Ho2].
  fold n m sq in Hp1, Ho1.
  split; [done|]. split; [done|].
  (* both assignments of the square are sums of finite cells *)
  assert (forall l, full_matching sq l ->
            assignment_cost sq l = Finite (cells_sum sq l)) as Hsum.
  { intros l [(_ & _ & Hr) _]. apply assignment_cost_cells_sum.
    eapply Forall_impl; [exact Hr|]. intros [i j] [Hi Hj].
    unfold nrows, ncols in *. rewrite Hsh in *. simpl in *.
    by apply (square_cost_matrix_finite geodesic trucks cargo). }
  rewrite (Hsum _ Hfull), (Hsum _ Hcomp) in Hle. simpl in Hle.
  (* the solver's assignment: kept pairs and dropped pairs *)
  set (dropped := filter (fun rc : nat * nat => ~ (fst rc < n /\ snd rc < m))
                         (zip rs cs)).
  assert (pairs ++ dropped ≡ₚ zip rs cs) as Hsplit
    by (rewrite Hpairs; apply filter_app_complement).
  assert (cells_sum sq (zip rs cs)
          == cells_sum dm pairs + inject_Z (Z.of_nat (length dropped)) * 1000000)%Q
    as Hmine_sum.
  { rewrite <- (cells_sum_perm sq _ _ Hsplit), cells_sum_app, Hp1.
    apply Qplus_inj_l. apply (cells_sum_outside trucks cargo dm); [done|].
    apply Forall_forall. intros [i j] Hij.
    apply list_elem_of_filter in Hij as [Hout Hin].
    destruct Hfull as [(_ & _ & Hr) _]. rewrite Forall_forall in Hr.
    destruct (Hr _ Hin) as [Hi Hj]. unfold nrows, ncols in *. rewrite Hsh in *.
    simpl in *. fold n m. split; [done|]. split; [done|]. lia. }
  (* the competitor: the other pairs and what completes them *)
  set (added := zip (unused other.*1 (Nat.max n m)) (unused other.*2 (Nat.max n m))).
  assert (cells_sum sq (completion other (Nat.max n m))
          == cells_sum dm other + inject_Z (Z.of_nat (length added)) * 1000000)%Q
    as Hother_sum.
  { unfold completion. fold added. rewrite cells_sum_app, Ho1.
    apply Qplus_inj_l. apply (cells_sum_outside trucks cargo dm); [done|].
    apply Forall_forall. intros p Hp.
    apply (completion_added_outside n m other p); try done. lia. }
  (* as many dropped pairs as added ones *)
  assert (length dropped = length added) as Hsame.
  { apply Permutation_length in Hsplit. rewrite length_app in Hsplit.
    destruct Hfull as [_ Hl]. destruct Hcomp as [_ Hl'].
    unfold completion in Hl'. fold added in Hl'. rewrite length_app in Hl'.
    lia. }
  rewrite Hmine_sum, Hother_sum, Hsame in Hle. lra.
Qed.
End StreamlitOptimal.

(** X16: the pairs streamlit_app.py's [optimize_assignments] returns have
    the least total distance among all one-to-one assignments of as many
    trucks to cargos: padding the matrix to a square with 1e6 does not
    change which real pairs are best. *)
Theorem X16_padded_assignment_is_shortest (geodesic : Q * Q -> Q * Q -> result Q)
    (lsa : ndarray -> result (list nat * list nat))
    (trucks cargo : list StreamlitApp.Place) (pairs : list (nat * nat)) :
  lsa_contract lsa ->
  StreamlitApp.optimize_assignments geodesic lsa trucks cargo = Ok pairs ->
  exists dm,
    StreamlitApp.calculate_distances geodesic trucks cargo = Ok dm /\
    forall other,
      NoDup other.*1 -> NoDup other.*2 ->
      Forall (fun p => fst p < length trucks /\ snd p < length cargo) other ->
      length other = length pairs ->
      exists x y, assignment_cost dm pairs = Finite x /\
                  assignment_cost dm other = Finite y /\ (x <= y)%Q.
Proof.
  intros Hlsa Hrun.
  destruct (streamlit_run_minimal geodesic lsa Hlsa _ _ _ Hrun) as (dm & Hdm & H).
  exists dm. split; [done|]. intros other Hnd1 Hnd2 Hrange Hlen.
  destruct (H other Hnd1 Hnd2 Hrange Hlen) as (Hx & Hy & Hle). eauto.
Qed.

Lemma X16_padded_assignment_is_shortest_witness :
  exists dm x y,
    StreamlitApp.calculate_distances grid_geodesic
      [place_origin; place_far] [place_near_far; place_near_origin] = Ok dm /\
    assignment_cost dm [(0, 1); (1, 0)] = Finite x /\
    assignment_cost dm [(0, 0); (1, 1)] = Finite y /\ (x <= y)%Q.
Proof.
  destruct (X16_padded_assignment_is_shortest grid_geodesic exhaustive_lsa
              [place_origin; place_far] [place_near_far; place_near_origin]
              [(0, 1); (1, 0)] exhaustive_lsa_contract) as (dm & Hdm & H).
  { vm_compute. reflexivity. }
  destruct (H [(0, 0); (1, 1)]) as (x & y & Hx & Hy & Hle).
  - by apply (bool_decide_unpack _).
  - by apply (bool_decide_unpack _).
  - repeat constructor; simpl; lia.
  - reflexivity.
  - by exists dm, x, y.
Defined.

(** X18: when the distance provider raises for some pair, streamlit_app.py's
    [calculate_distances] raises the exception of the first such pair in
    row-major order, and [optimize_assignments] passes it on without calling
    the solver. *)
Theorem X18_distance_error_propagates (geodesic : Q * Q -> Q * Q -> result Q)
    (lsa : ndarray -> result (list nat * list nat))
    (trucks cargo : list StreamlitApp.Place)
    (i j : nat) (t c : StreamlitApp.Place) (e : exn) :
  trucks !! i = Some t -> cargo !! j = Some c ->
  geodesic (StreamlitApp.Latitude t, StreamlitApp.Longitude t)
           (StreamlitApp.Latitude c, StreamlitApp.Longitude c) = Raise e ->
  (forall i' j' t' c',
     i' < i \/ (i' = i /\ j' < j) ->
     trucks !! i' = Some t' -> cargo !! j' = Some c' ->
     returns (geodesic (StreamlitApp.Latitude t', StreamlitApp.Longitude t')
                       (StreamlitApp.Latitude c', StreamlitApp.Longitude c'))) ->
  StreamlitApp.calculate_distances geodesic trucks cargo = Raise e /\
  StreamlitApp.optimize_assignments geodesic lsa trucks cargo = Raise e.
Proof.
  intros Ht Hc He Hbefore.
  pose proof (calculate_distances_first_error geodesic trucks cargo i j t c e
                Ht Hc He Hbefore) as Hd.
  split; [done|]. unfold StreamlitApp.optimize_assignments. by rewrite Hd.
Qed.

Lemma X18_distance_error_propagates_witness :
  StreamlitApp.calculate_distances grid_geodesic
    [place_origin; place_off_globe] [place_near_origin] = Raise ValueError /\
  StreamlitApp.optimize_assignments grid_geodesic exhaustive_lsa
    [place_origin; place_off_globe] [place_near_origin] = Raise ValueError.
Proof.
  apply (X18_distance_error_propagates grid_geodesic exhaustive_lsa
           [place_origin; place_off_globe] [place_near_origin]
           1 0 place_off_globe place_near_origin ValueError);
    [reflexivity | reflexivity | vm_compute; reflexivity |].
  intros i' j' t' c' Hlt Ht' Hc'.
  assert (i' = 0) as -> by lia. injection Ht' as <-.
  destruct j' as [|j']; simpl in Hc'; [|done]. injection Hc' as <-.
  eexists. vm_compute. reflexivity.
Defined.
